(** * A shallow embedding of the xiinko trading bot

    The development follows the JavaScript sources:

    - [src/lib/state.js]     the in-memory state store (module [botState]);
    - [src/lib/strategy.js]  the moving-average crossover strategy;
    - [src/lib/tradeLog.js]  the trade history (only [recordTrade]);
    - the bot route          [executePairTrade], [executeTradingCycle];
    - the settings route     the [POST] handler.

    Conventions of the embedding.

    - JavaScript numbers are modelled by exact rationals [Q]: rounding of
      IEEE doubles, [NaN] and the infinities are outside the model.
      [parseFloat] of a number and the round trip [parseFloat (String x)]
      are the identity.  Comparisons of numbers are stated with [==].
    - String-valued enumerations (['buy'], ['BUY'], ['long'], ['info'],
      ['demo'] ...) are inductive types.
    - A template literal is kept as the list of its pieces, so that no
      number formatting has to be modelled.
    - The store is a singleton mutated in place: all operations live in a
      state monad over a [World] that also holds the clock read by
      [Date.now()]/[new Date()], the module variables of the exchange
      client and of the trade log, and the trace of external calls.
    - [console.log]/[console.error] have no effect on the model. *)

From Stdlib Require Import ZArith QArith Qround String List Lia DecimalString.
From stdpp Require Import base option list gmap strings.

Local Open Scope Z_scope.
Local Open Scope Q_scope.
Local Open Scope string_scope.
Local Open Scope list_scope.
Local Open Scope stdpp_scope.

(** ** Values *)

Inductive Side := buy | sell.
Inductive Signal := BUY | SELL | WAIT.
Inductive Direction := long | short.
Inductive Mode := demo | live.
Inductive LogType := info | trade | error | signal.

Definition Side_eqb (a b : Side) : bool :=
  match a, b with buy, buy | sell, sell => true | _, _ => false end.

Definition Signal_eqb (a b : Signal) : bool :=
  match a, b with BUY, BUY | SELL, SELL | WAIT, WAIT => true | _, _ => false end.

(** [side.toUpperCase()] and the text of a signal or of a mode. *)
Definition Side_upper (s : Side) : string :=
  match s with buy => "BUY" | sell => "SELL" end.

Definition Signal_text (s : Signal) : string :=
  match s with BUY => "BUY" | SELL => "SELL" | WAIT => "WAIT" end.

(** The pieces of a template literal: literal text, an interpolated
    number, and a number printed with [toFixed(digits)]. *)
Inductive Piece :=
| Txt (s : string)
| Num (q : Q)
| Fixed (digits : nat) (q : Q).

Definition Template := list Piece.

(** Decimal text of an integer, for [`pos_${Date.now()}`]. *)
Definition string_of_Z (z : Z) : string := NilZero.string_of_int (Z.to_int z).

(** A thrown [Error]: only its [message] is ever read. *)
Record Exn := { message : string }.

(** [Math.round]: to the nearest integer, ties towards +infinity. *)
Definition Math_round (x : Q) : Z := Qfloor (x + (1 # 2)).

Definition Math_max (a b : Q) : Q := if Qle_bool a b then b else a.
Definition Math_min (a b : Q) : Q := if Qle_bool a b then a else b.

(** A number is falsy exactly when it is zero ([NaN] is not modelled). *)
Definition truthy_num (x : Q) : bool := negb (Qeq_bool x 0).

Definition truthy_str (s : string) : bool := negb (String.eqb s "").

(** [arr.findIndex(f)]: [None] stands for -1. *)
Fixpoint findIndex {A} (f : A -> bool) (l : list A) : option nat :=
  match l with
  | [] => None
  | x :: l' => if f x then Some 0%nat else S <$> findIndex f l'
  end.

(** ** Records of the store *)

(** An entry of [botState.positions]. *)
Module Pos.
Record t := mk {
  id : string;
  instId : string;
  side : Side;
  size : Q;
  leverage : Q;
  entryPrice : Q;
  currentPrice : Q;
  timestamp : Z;
  orderId : option string;
  mode : Mode;
}.

(** [{ ...pos, currentPrice: price }] *)
Definition with_currentPrice (price : Q) (pos : t) : t :=
  mk (id pos) (instId pos) (side pos) (size pos) (leverage pos)
     (entryPrice pos) price (timestamp pos) (orderId pos) (mode pos).

(** [{ ...existing, size: totalSize, entryPrice: avgPrice, leverage }] *)
Definition merged (totalSize avgPrice lev : Q) (pos : t) : t :=
  mk (id pos) (instId pos) (side pos) totalSize lev
     avgPrice (currentPrice pos) (timestamp pos) (orderId pos) (mode pos).
End Pos.

(** The argument object of [addPosition]. *)
Module Fill.
Record t := mk {
  instId : string;
  side : Side;
  size : Q;
  price : Q;
  orderId : option string;
  mode : option Mode;
  leverage : option Q;
}.
End Fill.

(** An entry of [botState.pairState]; a missing [signal] is [None]. *)
Module Pair.
Record t := mk {
  lastPosition : option Direction;
  lastTradeTime : option Z;
  signal : option Signal;
}.
End Pair.

(** An entry of [botState.logs]. *)
Module Log.
Record t := mk {
  timestamp : Z;
  message : Template;
  type : LogType;
}.
End Log.

Record TradeConfig := {
  tradeSize : Q;
  leverage : Q;
  maxLeverage : Q;
}.

Record LastTrade := {
  lt_side : Side;
  lt_price : Q;
  lt_size : Q;
  lt_timestamp : Z;
}.

Record MarketPrice := {
  mp_price : Q;
  mp_timestamp : Z;
}.

(** The singleton [botState].  The fields [intervalId], [lastPrice],
    [fastMA] and [slowMA] are not touched by any modelled function and
    are left out. *)
Record BotState := {
  isRunning : bool;
  currentSignal : Signal;
  lastPosition : option Direction;
  pairState : gmap string Pair.t;
  lastTradeTime : option Z;
  cooldownSeconds : Q;
  pairCooldownSeconds : Q;
  lastTrade : option LastTrade;
  positions : list Pos.t;
  tradeConfig : TradeConfig;
  logs : list Log.t;
  maxLogs : nat;
  marketPrices : gmap string MarketPrice;
}.

(** [botState] as the module initialises it; [cfg] is what [loadConfig]
    read from the configuration file. *)
Definition initialState (cfg : TradeConfig) : BotState := {|
  isRunning := false;
  currentSignal := WAIT;
  lastPosition := None;
  pairState := ∅;
  lastTradeTime := None;
  cooldownSeconds := 60;
  pairCooldownSeconds := 30;
  lastTrade := None;
  positions := [];
  tradeConfig := cfg;
  logs := [];
  maxLogs := 100;
  marketPrices := ∅;
|}.

(** [loadConfig] when no configuration file exists. *)
Definition defaultConfig : TradeConfig :=
  {| tradeSize := 10; leverage := 1; maxLeverage := 125 |}.

(** Field updates of [botState]. *)
Definition set_logs (l : list Log.t) (b : BotState) : BotState :=
  {| isRunning := isRunning b; currentSignal := currentSignal b;
     lastPosition := lastPosition b; pairState := pairState b;
     lastTradeTime := lastTradeTime b; cooldownSeconds := cooldownSeconds b;
     pairCooldownSeconds := pairCooldownSeconds b; lastTrade := lastTrade b;
     positions := positions b; tradeConfig := tradeConfig b;
     logs := l; maxLogs := maxLogs b; marketPrices := marketPrices b |}.

Definition set_positions (l : list Pos.t) (b : BotState) : BotState :=
  {| isRunning := isRunning b; currentSignal := currentSignal b;
     lastPosition := lastPosition b; pairState := pairState b;
     lastTradeTime := lastTradeTime b; cooldownSeconds := cooldownSeconds b;
     pairCooldownSeconds := pairCooldownSeconds b; lastTrade := lastTrade b;
     positions := l; tradeConfig := tradeConfig b;
     logs := logs b; maxLogs := maxLogs b; marketPrices := marketPrices b |}.

Definition set_pairState (m : gmap string Pair.t) (b : BotState) : BotState :=
  {| isRunning := isRunning b; currentSignal := currentSignal b;
     lastPosition := lastPosition b; pairState := m;
     lastTradeTime := lastTradeTime b; cooldownSeconds := cooldownSeconds b;
     pairCooldownSeconds := pairCooldownSeconds b; lastTrade := lastTrade b;
     positions := positions b; tradeConfig := tradeConfig b;
     logs := logs b; maxLogs := maxLogs b; marketPrices := marketPrices b |}.

Definition set_marketPrices (m : gmap string MarketPrice) (b : BotState) : BotState :=
  {| isRunning := isRunning b; currentSignal := currentSignal b;
     lastPosition := lastPosition b; pairState := pairState b;
     lastTradeTime := lastTradeTime b; cooldownSeconds := cooldownSeconds b;
     pairCooldownSeconds := pairCooldownSeconds b; lastTrade := lastTrade b;
     positions := positions b; tradeConfig := tradeConfig b;
     logs := logs b; maxLogs := maxLogs b; marketPrices := m |}.

Definition set_tradeConfig (c : TradeConfig) (b : BotState) : BotState :=
  {| isRunning := isRunning b; currentSignal := currentSignal b;
     lastPosition := lastPosition b; pairState := pairState b;
     lastTradeTime := lastTradeTime b; cooldownSeconds := cooldownSeconds b;
     pairCooldownSeconds := pairCooldownSeconds b; lastTrade := lastTrade b;
     positions := positions b; tradeConfig := c;
     logs := logs b; maxLogs := maxLogs b; marketPrices := marketPrices b |}.

Definition set_currentSignal (s : Signal) (b : BotState) : BotState :=
  {| isRunning := isRunning b; currentSignal := s;
     lastPosition := lastPosition b; pairState := pairState b;
     lastTradeTime := lastTradeTime b; cooldownSeconds := cooldownSeconds b;
     pairCooldownSeconds := pairCooldownSeconds b; lastTrade := lastTrade b;
     positions := positions b; tradeConfig := tradeConfig b;
     logs := logs b; maxLogs := maxLogs b; marketPrices := marketPrices b |}.

(** The three assignments of [recordTrade]. *)
Definition set_lastTrade (t : LastTrade) (now : Z) (d : Direction) (b : BotState)
  : BotState :=
  {| isRunning := isRunning b; currentSignal := currentSignal b;
     lastPosition := Some d; pairState := pairState b;
     lastTradeTime := Some now; cooldownSeconds := cooldownSeconds b;
     pairCooldownSeconds := pairCooldownSeconds b; lastTrade := Some t;
     positions := positions b; tradeConfig := tradeConfig b;
     logs := logs b; maxLogs := maxLogs b; marketPrices := marketPrices b |}.

(** ** The exchange connector and the trade history *)

(** What [getTicker] resolves to. *)
Record Ticker := {
  tk_instId : string;
  last : Q;
  bid : Q;
  ask : Q;
  high24h : Q;
  low24h : Q;
  volume24h : Q;
}.

(** One element of what [getCandles] resolves to. *)
Record Candle := {
  c_timestamp : Z;
  open : Q;
  high : Q;
  low : Q;
  close : Q;
  volume : Q;
}.

(** What [placeMarketOrder] resolves to. *)
Record Order := {
  o_orderId : string;
  clientOrderId : string;
  success : bool;
  simulated : bool;
}.

(** The argument of [recordTrade] in [tradeLog.js]. *)
Module Trade.
Record t := mk {
  mode : Mode;
  instId : string;
  side : Side;
  price : Q;
  size : Q;
  leverage : Q;
  signal : Signal;
  fastMA : option Q;
  slowMA : option Q;
  orderId : string;
  reason : Template;
}.
End Trade.

(** An entry of [tradeHistory].  Its [id] is [`trade_${Date.now()}_${r}`]
    with a random suffix [r]; the model keeps the clock reading only. *)
Record TradeEntry := {
  te_id_time : Z;
  te_timestamp : Z;
  te_trade : Trade.t;
  te_value : Q;
}.

Definition MAX_TRADES : nat := 1000.

(** External calls, in the order they are issued.  Each event also keeps
    the store as it was when the call was issued (a ghost snapshot that no
    modelled code reads). *)
Inductive Call :=
| GetTicker (instId : string)
| GetCandles (instId : string) (bar : string) (limit : nat)
| PlaceMarketOrder (instId : string) (side : Side) (size : Q) (lev : Q)
| SaveConfig (cfg : TradeConfig).

Record Event := { ev_call : Call; ev_store : BotState }.

(** ** The world and its monad *)

Inductive Outcome (A : Type) :=
| Return (a : A)
| Throw (e : Exn).
Arguments Return {A} a.
Arguments Throw {A} e.

(** Answers of the exchange: a rejected promise is a [Throw]. *)
Record Exchange := {
  ticker_of : string -> Outcome Ticker;
  candles_of : string -> string -> nat -> Outcome (list Candle);
  order_of : string -> Side -> Q -> Q -> Outcome Order;
  configured : bool;
}.

Record World := {
  bot : BotState;                   (* state.js: botState *)
  demoMode : bool;                  (* okxClient.js: demoMode *)
  tradeHistory : list TradeEntry;   (* tradeLog.js: tradeHistory *)
  clock : nat -> Z;                 (* successive readings of the clock *)
  ticks : nat;                      (* how many readings were taken *)
  trace : list Event;               (* external calls, newest first *)
}.

Definition M (A : Type) : Type := World -> Outcome A * World.

#[global] Instance M_ret : MRet M := fun A a w => (Return a, w).

#[global] Instance M_bind : MBind M := fun A B f m w =>
  match m w with
  | (Return a, w') => f a w'
  | (Throw e, w') => (Throw e, w')
  end.

Definition throw {A} (e : Exn) : M A := fun w => (Throw e, w).

(** [try { body } catch (error) { handler }]: what [body] did to the world
    before it threw stays done. *)
Definition try_catch {A} (body : M A) (handler : Exn -> M A) : M A := fun w =>
  match body w with
  | (Return a, w') => (Return a, w')
  | (Throw e, w') => handler e w'
  end.

(** Reading a property of [undefined]. *)
Definition TypeError : Exn := {| message := "Cannot read properties of undefined" |}.

Definition get_bot : M BotState := fun w => (Return (bot w), w).

Definition modify_bot (f : BotState -> BotState) : M unit := fun w =>
  (Return tt,
   {| bot := f (bot w); demoMode := demoMode w; tradeHistory := tradeHistory w;
      clock := clock w; ticks := ticks w; trace := trace w |}).

(** [Date.now()] and [new Date()]: the next reading of the clock. *)
Definition Date_now : M Z := fun w =>
  (Return (clock w (ticks w)),
   {| bot := bot w; demoMode := demoMode w; tradeHistory := tradeHistory w;
      clock := clock w; ticks := S (ticks w); trace := trace w |}).

Definition emit (c : Call) : M unit := fun w =>
  (Return tt,
   {| bot := bot w; demoMode := demoMode w; tradeHistory := tradeHistory w;
      clock := clock w; ticks := ticks w;
      trace := {| ev_call := c; ev_store := bot w |} :: trace w |}).

Definition lift {A} (o : Outcome A) : M A := fun w => (o, w).

Definition isDemoMode : M bool := fun w => (Return (demoMode w), w).

Definition setDemoMode (enabled : bool) : M unit := fun w =>
  (Return tt,
   {| bot := bot w; demoMode := enabled; tradeHistory := tradeHistory w;
      clock := clock w; ticks := ticks w; trace := trace w |}).

Definition modify_history (f : list TradeEntry -> list TradeEntry) : M unit :=
  fun w =>
  (Return tt,
   {| bot := bot w; demoMode := demoMode w; tradeHistory := f (tradeHistory w);
      clock := clock w; ticks := ticks w; trace := trace w |}).

Definition getTicker (ex : Exchange) (instId : string) : M Ticker :=
  emit (GetTicker instId);; lift (ticker_of ex instId).

Definition getCandles (ex : Exchange) (instId bar : string) (limit : nat)
  : M (list Candle) :=
  emit (GetCandles instId bar limit);; lift (candles_of ex instId bar limit).

Definition placeMarketOrder (ex : Exchange) (instId : string) (side : Side)
    (size lev : Q) : M Order :=
  emit (PlaceMarketOrder instId side size lev);; lift (order_of ex instId side size lev).

Definition isConfigured (ex : Exchange) : M bool := mret (configured ex).

(** [saveConfig]: the write is recorded; its failure is swallowed by the
    source and has no effect on the store. *)
Definition saveConfig (cfg : TradeConfig) : M unit := emit (SaveConfig cfg).

(** [recordTrade] of [tradeLog.js]. *)
Definition logTrade (t : Trade.t) : M TradeEntry :=
  idTime ← Date_now;
  stamp ← Date_now;
  let tradeEntry :=
    {| te_id_time := idTime; te_timestamp := stamp; te_trade := t;
       te_value := Trade.price t * (Trade.size t / Trade.price t) |} in
  modify_history (fun h =>
    let h' := tradeEntry :: h in
    if (MAX_TRADES <? length h')%nat then removelast h' else h');;
  mret tradeEntry.

(** ** state.js *)

(** [addLog(message, type)] *)
Definition addLog (message : Template) (type : LogType) : M unit :=
  stamp ← Date_now;
  let entry := Log.mk stamp message type in
  modify_bot (fun b => set_logs (entry :: logs b) b);;
  b ← get_bot;
  (if (maxLogs b <? length (logs b))%nat
   then modify_bot (fun b => set_logs (take (maxLogs b) (logs b)) b)
   else mret tt).

(** [setSignal(signal)] *)
Definition setSignal (s : Signal) : M unit :=
  b ← get_bot;
  (if negb (Signal_eqb (currentSignal b) s)
   then addLog [Txt "Signal changed: "; Txt (Signal_text (currentSignal b));
                Txt " → "; Txt (Signal_text s)] signal
   else mret tt);;
  modify_bot (set_currentSignal s).

Definition direction_of (s : Side) : Direction :=
  match s with buy => long | sell => short end.

(** [recordTrade(side, price, size)] of [state.js]. *)
Definition recordTrade (s : Side) (price size : Q) : M unit :=
  stamp ← Date_now;
  now ← Date_now;
  modify_bot (set_lastTrade
    {| lt_side := s; lt_price := price; lt_size := size; lt_timestamp := stamp |}
    now (direction_of s));;
  addLog [Txt "Trade executed: "; Txt (Side_upper s); Txt " "; Num size;
          Txt " USDT at $"; Num price] trade.

(** [getPairState(instId)] *)
Definition getPairState (instId : string) : M Pair.t :=
  b ← get_bot;
  (match pairState b !! instId with
   | None => modify_bot (fun b =>
       set_pairState (<[instId := Pair.mk None None (Some WAIT)]> (pairState b)) b)
   | Some _ => mret tt
   end);;
  b ← get_bot;
  match pairState b !! instId with
  | Some ps => mret ps
  | None => throw TypeError
  end.

(** [updatePairState(instId, side)] *)
Definition updatePairState (instId : string) (s : Side) : M unit :=
  b ← get_bot;
  (match pairState b !! instId with
   | None => modify_bot (fun b =>
       set_pairState (<[instId := Pair.mk None None None]> (pairState b)) b)
   | Some _ => mret tt
   end);;
  modify_bot (fun b => set_pairState
    (alter (fun ps => Pair.mk (Some (direction_of s)) (Pair.lastTradeTime ps)
                              (Pair.signal ps)) instId (pairState b)) b);;
  now ← Date_now;
  modify_bot (fun b => set_pairState
    (alter (fun ps => Pair.mk (Pair.lastPosition ps) (Some now)
                              (Pair.signal ps)) instId (pairState b)) b).

(** [setPairSignal(instId, signal)] *)
Definition setPairSignal (instId : string) (s : Signal) : M unit :=
  b ← get_bot;
  (match pairState b !! instId with
   | None => modify_bot (fun b =>
       set_pairState (<[instId := Pair.mk None None None]> (pairState b)) b)
   | Some _ => mret tt
   end);;
  modify_bot (fun b => set_pairState
    (alter (fun ps => Pair.mk (Pair.lastPosition ps) (Pair.lastTradeTime ps)
                              (Some s)) instId (pairState b)) b).

Definition Qlt_bool (a b : Q) : bool := negb (Qle_bool b a).

(** [!pairState || !pairState.lastTradeTime]: the time of the last trade
    when it is there and truthy (a time of 0 is falsy). *)
Definition truthy_lastTradeTime (b : BotState) (instId : string) : option Z :=
  match pairState b !! instId with
  | None => None
  | Some ps =>
      match Pair.lastTradeTime ps with
      | None => None
      | Some t => if (t =? 0)%Z then None else Some t
      end
  end.

(** [isPairInCooldown(instId)] *)
Definition isPairInCooldown (instId : string) : M bool :=
  b ← get_bot;
  match truthy_lastTradeTime b instId with
  | None => mret false
  | Some t =>
      now ← Date_now;
      let elapsed := inject_Z (now - t) / 1000 in
      mret (Qlt_bool elapsed (pairCooldownSeconds b))
  end.

(** [getPairCooldownRemaining(instId)] *)
Definition getPairCooldownRemaining (instId : string) : M Z :=
  b ← get_bot;
  match truthy_lastTradeTime b instId with
  | None => mret 0%Z
  | Some t =>
      now ← Date_now;
      let elapsed := inject_Z (now - t) / 1000 in
      let remaining := pairCooldownSeconds b - elapsed in
      mret (Z.max 0 (Math_round remaining))
  end.

(** [updateMarketPrice(instId, price)] *)
Definition updateMarketPrice (instId : string) (price : Q) : M unit :=
  now ← Date_now;
  modify_bot (fun b => set_marketPrices
    (<[instId := {| mp_price := price; mp_timestamp := now |}]> (marketPrices b)) b);;
  modify_bot (fun b => set_positions
    (map (fun pos => if String.eqb (Pos.instId pos) instId
                     then Pos.with_currentPrice price pos else pos)
         (positions b)) b).

(** [p.instId === position.instId && p.side !== position.side] *)
Definition isOpposite (fill : Fill.t) (p : Pos.t) : bool :=
  String.eqb (Pos.instId p) (Fill.instId fill)
  && negb (Side_eqb (Pos.side p) (Fill.side fill)).

(** [p.instId === position.instId && p.side === position.side] *)
Definition isSameSide (fill : Fill.t) (p : Pos.t) : bool :=
  String.eqb (Pos.instId p) (Fill.instId fill)
  && Side_eqb (Pos.side p) (Fill.side fill).

(** [position.orderId || `pos_${Date.now()}`]: the clock is read only when
    the order id is missing or empty. *)
Definition positionId (orderId : option string) : M string :=
  match orderId with
  | Some o => if truthy_str o then mret o
              else now ← Date_now; mret ("pos_" +:+ string_of_Z now)
  | None => now ← Date_now; mret ("pos_" +:+ string_of_Z now)
  end.

(** [parseFloat(position.leverage) || 1] *)
Definition leverageOrOne (lev : option Q) : Q :=
  match lev with
  | Some l => if truthy_num l then l else 1
  | None => 1
  end.

(** [addPosition(position)] *)
Definition addPosition (position : Fill.t) : M Pos.t :=
  let entryPrice := Fill.price position in
  let size := Fill.size position in
  let lev := leverageOrOne (Fill.leverage position) in
  newId ← positionId (Fill.orderId position);
  stamp ← Date_now;
  let newPosition :=
    Pos.mk newId (Fill.instId position) (Fill.side position) size lev
           entryPrice entryPrice stamp (Fill.orderId position)
           (default live (Fill.mode position)) in
  (* close an opposite position, if any *)
  b ← get_bot;
  (match findIndex (isOpposite position) (positions b) with
   | Some oppositeIndex =>
       match positions b !! oppositeIndex with
       | Some closedPos =>
           modify_bot (fun b => set_positions (delete oppositeIndex (positions b)) b);;
           addLog [Txt "Position closed: "; Txt (Side_upper (Pos.side closedPos));
                   Txt " "; Txt (Pos.instId closedPos)] trade
       | None => throw TypeError
       end
   | None => mret tt
   end);;
  (* add to a same-side position, or open a new one *)
  b ← get_bot;
  (match findIndex (isSameSide position) (positions b) with
   | Some sameIndex =>
       match positions b !! sameIndex with
       | Some existing =>
           let existingSize := Pos.size existing in
           let existingEntry := Pos.entryPrice existing in
           let totalSize := existingSize + size in
           let avgPrice :=
             ((existingEntry * existingSize) + (entryPrice * size)) / totalSize in
           modify_bot (fun b => set_positions
             (<[sameIndex := Pos.merged totalSize avgPrice lev existing]> (positions b)) b);;
           addLog [Txt "Position added: "; Txt (Side_upper (Fill.side position));
                   Txt " "; Txt (Fill.instId position); Txt " (avg: $";
                   Fixed 2 avgPrice; Txt ")"] trade
       | None => throw TypeError
       end
   | None =>
       modify_bot (fun b => set_positions (positions b ++ [newPosition]) b);;
       addLog [Txt "Position opened: "; Txt (Side_upper (Fill.side position));
               Txt " "; Num (Fill.size position); Txt " ";
               Txt (Fill.instId position); Txt " @ $"; Num (Fill.price position)] trade
   end);;
  mret newPosition.

(** [closePosition(positionId)]: [None] is [null]. *)
Definition closePosition (positionId : string) : M (option Pos.t) :=
  b ← get_bot;
  match findIndex (fun p => String.eqb (Pos.id p) positionId) (positions b) with
  | Some index =>
      match positions b !! index with
      | Some pos =>
          modify_bot (fun b => set_positions (delete index (positions b)) b);;
          addLog [Txt "Position manually closed: "; Txt (Side_upper (Pos.side pos));
                  Txt " "; Txt (Pos.instId pos)] trade;;
          mret (Some pos)
      | None => throw TypeError
      end
  | None => mret None
  end.

(** [clearPositions()] *)
Definition clearPositions : M unit :=
  modify_bot (set_positions []);;
  addLog [Txt "All positions cleared"] info.

(** [getTradeConfig()]: a copy of the stored configuration. *)
Definition getTradeConfig : M TradeConfig :=
  b ← get_bot; mret (tradeConfig b).

(** A property value as JavaScript sees it at run time. *)
Inductive JsValue :=
| JUndefined
| JNull
| JBool (b : bool)
| JNumber (q : Q)
| JString (s : string)
| JObject.

(** The [config] argument of [setTradeConfig]: the properties a caller
    may put there.  [setTradeConfig] reads [tradeSize] and [leverage]. *)
Module Update.
Record t := mk {
  margin : JsValue;
  tradeSize : JsValue;
  leverage : JsValue;
}.
End Update.

(** [setTradeConfig(config)] *)
Definition setTradeConfig (config : Update.t) : M TradeConfig :=
  changed1 ←
    match Update.tradeSize config with
    | JNumber n =>
        if Qlt_bool 0 n then
          modify_bot (fun b => set_tradeConfig
            {| tradeSize := n; leverage := leverage (tradeConfig b);
               maxLeverage := maxLeverage (tradeConfig b) |} b);;
          addLog [Txt "Trade size updated to "; Num n; Txt " USDT"] info;;
          mret true
        else mret false
    | _ => mret false
    end;
  changed2 ←
    match Update.leverage config with
    | JNumber n =>
        b ← get_bot;
        let lev := Math_min (Math_max 1 n) (maxLeverage (tradeConfig b)) in
        modify_bot (fun b => set_tradeConfig
          {| tradeSize := tradeSize (tradeConfig b); leverage := lev;
             maxLeverage := maxLeverage (tradeConfig b) |} b);;
        addLog [Txt "Leverage updated to "; Num lev; Txt "x"] info;;
        mret true
    | _ => mret changed1
    end;
  (if changed2 : bool
   then b ← get_bot; saveConfig (tradeConfig b)
   else mret tt);;
  getTradeConfig.

(** ** strategy.js *)

Definition FAST_MA_PERIOD : nat := 9.
Definition SLOW_MA_PERIOD : nat := 21.

Definition total (l : list Q) : Q := foldr Qplus 0 l.

(** Arithmetic mean of a window. *)
Definition mean (l : list Q) : Q := total l / inject_Z (Z.of_nat (length l)).

(** Modelled from the spec: [SMA.calculate] belongs to the package
    [technicalindicators], which is not part of the sources.  As section 4.1
    of the specification says, the moving average at index [i] is the
    arithmetic mean of the [period] most recent values up to and including
    [i]; the series has one value for each full window, oldest first. *)
Definition calculateSMA (prices : list Q) (period : nat) : list Q :=
  map (fun k => mean (take period (drop k prices)))
      (seq 0 (length prices + 1 - period)).

(** [arr[arr.length - k]] for [k >= 1]; [None] is [undefined]. *)
Definition fromEnd {A} (k : nat) (l : list A) : option A :=
  if (k <=? length l)%nat then l !! (length l - k)%nat else None.

(** Comparisons of possibly undefined numbers: with [undefined] every
    comparison is false. *)
Definition num_le (a b : option Q) : bool :=
  match a, b with Some x, Some y => Qle_bool x y | _, _ => false end.

Definition num_lt (a b : option Q) : bool :=
  match a, b with Some x, Some y => Qlt_bool x y | _, _ => false end.

(** [Math.round(x * 100) / 100] *)
Definition round2 (x : Q) : Q := inject_Z (Math_round (x * 100)) / 100.

Definition show_num (o : option Q) : Piece :=
  match o with Some q => Num q | None => Txt "NaN" end.

Record Analysis := {
  a_signal : Signal;
  a_reason : option Template;
  a_fastMA : option Q;
  a_slowMA : option Q;
  fastMAPeriod : option nat;
  slowMAPeriod : option nat;
}.

(** [analyzeMarket(closePrices)]; [None] is a missing argument. *)
Definition analyzeMarket (closePrices : option (list Q)) : Analysis :=
  match closePrices with
  | None =>
      {| a_signal := WAIT; a_reason := Some [Txt "Insufficient data for analysis"];
         a_fastMA := None; a_slowMA := None;
         fastMAPeriod := None; slowMAPeriod := None |}
  | Some prices =>
      if (length prices <? SLOW_MA_PERIOD + 2)%nat then
        {| a_signal := WAIT; a_reason := Some [Txt "Insufficient data for analysis"];
           a_fastMA := None; a_slowMA := None;
           fastMAPeriod := None; slowMAPeriod := None |}
      else
        let fastMAValues := calculateSMA prices FAST_MA_PERIOD in
        let slowMAValues := calculateSMA prices SLOW_MA_PERIOD in
        let currentFastMA := fromEnd 1 fastMAValues in
        let currentSlowMA := fromEnd 1 slowMAValues in
        let prevFastMA := fromEnd 2 fastMAValues in
        let prevSlowMA := fromEnd 2 slowMAValues in
        let fastMA := round2 <$> currentFastMA in
        let slowMA := round2 <$> currentSlowMA in
        let '(sig, reason) :=
          if num_le prevFastMA prevSlowMA && num_lt currentSlowMA currentFastMA then
            (BUY, [Txt "Bullish crossover: Fast MA ("; show_num fastMA;
                   Txt ") crossed above Slow MA ("; show_num slowMA; Txt ")"])
          else if num_le prevSlowMA prevFastMA && num_lt currentFastMA currentSlowMA then
            (SELL, [Txt "Bearish crossover: Fast MA ("; show_num fastMA;
                    Txt ") crossed below Slow MA ("; show_num slowMA; Txt ")"])
          else if num_lt currentSlowMA currentFastMA then
            (BUY, [Txt "Bullish trend: Fast MA ("; show_num fastMA;
                   Txt ") above Slow MA ("; show_num slowMA; Txt ")"])
          else if num_lt currentFastMA currentSlowMA then
            (SELL, [Txt "Bearish trend: Fast MA ("; show_num fastMA;
                    Txt ") below Slow MA ("; show_num slowMA; Txt ")"])
          else
            (WAIT, [Txt "MAs converging: Fast MA ("; show_num fastMA;
                    Txt ") ≈ Slow MA ("; show_num slowMA; Txt ")"]) in
        {| a_signal := sig; a_reason := Some reason;
           a_fastMA := fastMA; a_slowMA := slowMA;
           fastMAPeriod := Some FAST_MA_PERIOD; slowMAPeriod := Some SLOW_MA_PERIOD |}
  end.

Record Decision := {
  d_shouldTrade : bool;
  d_side : option Side;
  d_reason : Template;
}.

(** [lastPosition === 'long'] and the like; [None] is [null]. *)
Definition isDirection (lastPos : option Direction) (d : Direction) : bool :=
  match lastPos, d with
  | Some long, long | Some short, short => true
  | _, _ => false
  end.

(** [shouldTrade(signal, lastPosition)] *)
Definition shouldTrade (sig : Signal) (lastPos : option Direction) : Decision :=
  if Signal_eqb sig WAIT then
    {| d_shouldTrade := false; d_side := None; d_reason := [Txt "No clear signal"] |}
  else if Signal_eqb sig BUY && isDirection lastPos long then
    {| d_shouldTrade := false; d_side := None;
       d_reason := [Txt "Already in long position"] |}
  else if Signal_eqb sig SELL && isDirection lastPos short then
    {| d_shouldTrade := false; d_side := None;
       d_reason := [Txt "Already in short position"] |}
  else
    {| d_shouldTrade := true;
       d_side := Some (if Signal_eqb sig BUY then buy else sell);
       d_reason := [Txt (Signal_text sig); Txt " signal confirmed"] |}.

(** ** The bot route *)

Definition CANDLE_TIMEFRAME : string := "1m".
Definition CANDLE_LIMIT : nat := 100.

Definition TRADING_PAIRS : list string :=
  ["BTC-USDT"; "ETH-USDT"; "SOL-USDT"; "XRP-USDT"; "DOGE-USDT"; "ADA-USDT"].

(** What [executePairTrade] returns; absent properties are [None]. *)
Module Result.
Record t := mk {
  instId : string;
  executed : bool;
  reason : option Template;
  signal : option Signal;
  mode : option Mode;
  side : option Side;
  price : option Q;
  orderId : option string;
}.

(** [{ instId, executed: false, reason }] *)
Definition failed (inst : string) (why : Template) : t :=
  mk inst false (Some why) None None None None None.
End Result.

(** [executePairTrade(instId)] *)
Definition executePairTrade (ex : Exchange) (instId : string) : M Result.t :=
  try_catch
    (inCooldown ← isPairInCooldown instId;
     if inCooldown : bool then
       remaining ← getPairCooldownRemaining instId;
       mret (Result.failed instId [Txt "Cooldown "; Num (inject_Z remaining); Txt "s"])
     else
       ticker ← getTicker ex instId;
       candles ← getCandles ex instId CANDLE_TIMEFRAME CANDLE_LIMIT;
       let closePrices := map close candles in
       let analysis := analyzeMarket (Some closePrices) in
       updateMarketPrice instId (last ticker);;
       setPairSignal instId (a_signal analysis);;
       pairState ← getPairState instId;
       let tradeDecision :=
         shouldTrade (a_signal analysis) (Pair.lastPosition pairState) in
       if negb (d_shouldTrade tradeDecision) then
         mret (Result.mk instId false (Some (d_reason tradeDecision))
                         (Some (a_signal analysis)) None None None None)
       else
         isDemo ← isDemoMode;
         let mode := if isDemo : bool then demo else live in
         tradeConfig ← getTradeConfig;
         let tradeSize := tradeSize tradeConfig in
         let lev := leverage tradeConfig in
         match d_side tradeDecision with
         | None => throw TypeError
         | Some side =>
             addLog [Txt "["; Txt instId; Txt "] "; Txt (Side_upper side);
                     Txt " @ $"; Num (last ticker); Txt " - "; Num tradeSize;
                     Txt " USDT @ "; Num lev; Txt "x"] trade;;
             order ← placeMarketOrder ex instId side tradeSize lev;
             updatePairState instId side;;
             recordTrade side (last ticker) tradeSize;;
             addPosition (Fill.mk instId side tradeSize (last ticker)
                            (Some (o_orderId order)) (Some mode) (Some lev));;
             logTrade (Trade.mk mode instId side (last ticker) tradeSize lev
                         (a_signal analysis) (a_fastMA analysis) (a_slowMA analysis)
                         (o_orderId order) (d_reason tradeDecision));;
             let simText := if simulated order then " (SIM)" else "" in
             addLog [Txt "["; Txt instId; Txt "] Order filled! ";
                     Txt (o_orderId order); Txt simText] trade;;
             mret (Result.mk instId true None None (Some mode) (Some side)
                             (Some (last ticker)) (Some (o_orderId order)))
         end)
    (fun err =>
       addLog [Txt "["; Txt instId; Txt "] Error: "; Txt (message err)] error;;
       mret (Result.failed instId [Txt (message err)])).

Record CycleReport := {
  cr_executed : bool;
  cr_reason : option Template;
  tradesExecuted : option nat;
  totalPairs : option nat;
  trades : list Result.t;
}.

(** [await new Promise(resolve => setTimeout(resolve, ms))] *)
Definition delay (ms : nat) : M unit := mret tt.

(** The body of [for (const instId of TRADING_PAIRS)], threading the
    local variables [results] and [tradesExecuted]. *)
Fixpoint cycleLoop (ex : Exchange) (pairs : list string)
    (results : list Result.t) (count : nat) : M (list Result.t * nat) :=
  match pairs with
  | [] => mret (results, count)
  | instId :: rest =>
      '(results', count') ←
        try_catch
          (result ← executePairTrade ex instId;
           let results' := results ++ [result] in
           let count' := if Result.executed result then S count else count in
           delay 200;;
           mret (results', count'))
          (fun pairError =>
             addLog [Txt "["; Txt instId; Txt "] Failed: ";
                     Txt (message pairError)] error;;
             mret (results ++ [Result.failed instId [Txt (message pairError)]], count));
      cycleLoop ex rest results' count'
  end.

(** [executeTradingCycle()] *)
Definition executeTradingCycle (ex : Exchange) : M CycleReport :=
  try_catch
    (addLog [Txt "Scanning "; Num (inject_Z (Z.of_nat (length TRADING_PAIRS)));
             Txt " pairs..."] info;;
     ok ← isConfigured ex;
     if negb ok then
       addLog [Txt "API not configured - skipping trade execution"] error;;
       mret {| cr_executed := false; cr_reason := Some [Txt "API not configured"];
               tradesExecuted := None; totalPairs := None; trades := [] |}
     else
       '(results, count) ← cycleLoop ex TRADING_PAIRS [] 0%nat;
       addLog [Txt "Cycle complete: "; Num (inject_Z (Z.of_nat count)); Txt "/";
               Num (inject_Z (Z.of_nat (length TRADING_PAIRS)));
               Txt " trades executed"] info;;
       (if (0 <? length results)%nat then
          match List.find (fun r => String.eqb (Result.instId r) "BTC-USDT") results with
          | Some btcResult =>
              match Result.signal btcResult with
              | Some s => setSignal s
              | None => mret tt
              end
          | None => mret tt
          end
        else mret tt);;
       mret {| cr_executed := (0 <? count)%nat; cr_reason := None;
               tradesExecuted := Some count;
               totalPairs := Some (length TRADING_PAIRS); trades := results |})
    (fun err =>
       addLog [Txt "Trading cycle error: "; Txt (message err)] error;;
       throw err).

(** ** The settings route *)

(** The properties of the request body read by the handler. *)
Module Body.
Record t := mk {
  demoMode : JsValue;
  margin : JsValue;
  tradeSize : JsValue;
  leverage : JsValue;
}.
End Body.

(** What [request.json()] resolves to: [null], or a value whose
    properties can be read (a non-object has none of them). *)
Inductive Json :=
| JsonNull
| JsonValue (body : Body.t).

Record Response := {
  status : nat;
  r_success : bool;
  r_demoMode : option bool;
  r_tradeConfig : option TradeConfig;
  r_error : option string;
}.

(** [a ?? b] *)
Definition nullish (a b : JsValue) : JsValue :=
  match a with JUndefined | JNull => b | _ => a end.

(** [POST(request)] of the settings route; [request] is the outcome of
    [await request.json()]. *)
Definition POST (request : Outcome Json) : M Response :=
  try_catch
    (parsed ← lift request;
     match parsed with
     | JsonNull => throw TypeError
     | JsonValue body =>
         (match Body.demoMode body with
          | JBool enabled =>
              setDemoMode enabled;;
              addLog [Txt "Demo mode "; Txt (if enabled then "enabled" else "disabled")]
                     info
          | _ => mret tt
          end);;
         let marginValue := nullish (Body.margin body) (Body.tradeSize body) in
         (match marginValue with
          | JNumber _ =>
              setTradeConfig (Update.mk marginValue JUndefined JUndefined);; mret tt
          | _ => mret tt
          end);;
         (match Body.leverage body with
          | JNumber _ =>
              setTradeConfig (Update.mk JUndefined JUndefined (Body.leverage body));;
              mret tt
          | _ => mret tt
          end);;
         isDemo ← isDemoMode;
         cfg ← getTradeConfig;
         mret {| status := 200; r_success := true; r_demoMode := Some isDemo;
                 r_tradeConfig := Some cfg; r_error := None |}
     end)
    (fun err =>
       mret {| status := 500; r_success := false; r_demoMode := None;
               r_tradeConfig := None; r_error := Some (message err) |}).

(** ** Vocabulary of the statements *)

(** The world an action leaves, and what it returns. *)
Definition run {A} (m : M A) (w : World) : World := snd (m w).
Definition outcome {A} (m : M A) (w : World) : Outcome A := fst (m w).

(** The world after one [addLog] that created [entry]. *)
Definition logged (entry : Log.t) (w : World) : World :=
  {| bot := set_logs (take (maxLogs (bot w)) (entry :: logs (bot w))) (bot w);
     demoMode := demoMode w; tradeHistory := tradeHistory w;
     clock := clock w; ticks := S (ticks w); trace := trace w |}.

(** A sequence of log appends, first element first. *)
Fixpoint appendAll (entries : list (Template * LogType)) : M unit :=
  match entries with
  | [] => mret tt
  | e :: rest => addLog e.1 e.2;; appendAll rest
  end.

(** The entries that [appendAll] creates when the clock has been read
    [n] times before. *)
Fixpoint stamped (clk : nat -> Z) (n : nat) (entries : list (Template * LogType))
  : list Log.t :=
  match entries with
  | [] => []
  | e :: rest => Log.mk (clk n) e.1 e.2 :: stamped clk (S n) rest
  end.

(** A world right after start-up, for the examples. *)
Definition world0 : World :=
  {| bot := initialState defaultConfig; demoMode := true; tradeHistory := [];
     clock := fun n => (1700000000000 + Z.of_nat n)%Z; ticks := 0; trace := [] |}.

(** The operations on the positions collection that the claims range
    over. *)
Inductive StoreOp :=
| OpAddPosition (fill : Fill.t)
| OpClosePosition (positionId : string)
| OpClearPositions
| OpUpdateMarketPrice (instId : string) (price : Q).

Definition applyOp (op : StoreOp) : M unit :=
  match op with
  | OpAddPosition fill => addPosition fill;; mret tt
  | OpClosePosition positionId => closePosition positionId;; mret tt
  | OpClearPositions => clearPositions
  | OpUpdateMarketPrice instId price => updateMarketPrice instId price
  end.

Fixpoint applyOps (ops : list StoreOp) : M unit :=
  match ops with
  | [] => mret tt
  | op :: rest => applyOp op;; applyOps rest
  end.

(** [p] is a position of instrument [inst] on side [s]. *)
Definition onPair (inst : string) (s : Side) (p : Pos.t) : bool :=
  String.eqb (Pos.instId p) inst && Side_eqb (Pos.side p) s.

(** No instrument has both a buy-side and a sell-side position. *)
Definition noBothSides (l : list Pos.t) : Prop :=
  forall p q, p ∈ l -> q ∈ l -> Pos.instId p = Pos.instId q ->
              Pos.side p = buy -> Pos.side q = sell -> False.

(** At most one position for each (instId, side). *)
Definition atMostOnePerPair (l : list Pos.t) : Prop :=
  forall inst s, (length (List.filter (onPair inst s) l) <= 1)%nat.

(** What [addPosition] does to the array [botState.positions], given the
    object [newPosition] it built. *)
Definition positionsAfterAdd (fill : Fill.t) (newPosition : Pos.t)
    (ps : list Pos.t) : list Pos.t :=
  let ps1 :=
    match findIndex (isOpposite fill) ps with
    | Some i => delete i ps
    | None => ps
    end in
  match findIndex (isSameSide fill) ps1 with
  | Some j =>
      match ps1 !! j with
      | Some existing =>
          let totalSize := Pos.size existing + Fill.size fill in
          let avgPrice :=
            ((Pos.entryPrice existing * Pos.size existing)
             + (Fill.price fill * Fill.size fill)) / totalSize in
          <[j := Pos.merged totalSize avgPrice
                   (leverageOrOne (Fill.leverage fill)) existing]> ps1
      | None => ps1
      end
  | None => ps1 ++ [newPosition]
  end.

(** Everything but the positions, the log and the number of clock
    readings is the same in both worlds. *)
Definition positionsFrame (w w' : World) : Prop :=
  pairState (bot w') = pairState (bot w)
  /\ tradeConfig (bot w') = tradeConfig (bot w)
  /\ maxLogs (bot w') = maxLogs (bot w)
  /\ pairCooldownSeconds (bot w') = pairCooldownSeconds (bot w)
  /\ marketPrices (bot w') = marketPrices (bot w)
  /\ lastTrade (bot w') = lastTrade (bot w)
  /\ lastTradeTime (bot w') = lastTradeTime (bot w)
  /\ lastPosition (bot w') = lastPosition (bot w)
  /\ currentSignal (bot w') = currentSignal (bot w)
  /\ demoMode w' = demoMode w
  /\ tradeHistory w' = tradeHistory w
  /\ clock w' = clock w
  /\ trace w' = trace w.

(** No two positions share an instrument. *)
Definition distinctInstruments (l : list Pos.t) : Prop :=
  NoDup (Pos.instId <$> l).

(** The last [k] elements of a list. *)
Definition lastn {A} (k : nat) (l : list A) : list A := drop (length l - k) l.

(** The signal as the specification words it, from the two most recent
    pairs of moving averages. *)
Definition crossoverSignal (prevFast prevSlow currFast currSlow : Q) : Signal :=
  if Qle_bool prevFast prevSlow && Qlt_bool currSlow currFast then BUY
  else if Qlt_bool currSlow currFast then BUY
  else if Qle_bool prevSlow prevFast && Qlt_bool currFast currSlow then SELL
  else if Qlt_bool currFast currSlow then SELL
  else WAIT.

(** The world after [f] was applied to [botState], after one more reading
    of the clock, and after an external call was issued. *)
Definition with_bot (f : BotState -> BotState) (w : World) : World :=
  run (modify_bot f) w.
Definition ticked (w : World) : World := run Date_now w.
Definition emitted (c : Call) (w : World) : World := run (emit c) w.

(** [botState.pairState[instId].lastTradeTime] and [.lastPosition] as a
    reader sees them: [None] when the entry or the property is missing. *)
Definition pairLastTradeTime (b : BotState) (instId : string) : option Z :=
  ps ← pairState b !! instId; Pair.lastTradeTime ps.

Definition pairLastPosition (b : BotState) (instId : string) : option Direction :=
  ps ← pairState b !! instId; Pair.lastPosition ps.

Definition pairSignal (b : BotState) (instId : string) : option Signal :=
  ps ← pairState b !! instId; Pair.signal ps.

(** Two worlds that differ at most in the number of clock readings. *)
Definition sameButTicks (w w' : World) : Prop :=
  bot w' = bot w /\ demoMode w' = demoMode w /\ tradeHistory w' = tradeHistory w
  /\ clock w' = clock w /\ trace w' = trace w /\ (ticks w <= ticks w')%nat.

(** [updateMarketPrice] on one position. *)
Definition refreshed (instId : string) (price : Q) (pos : Pos.t) : Pos.t :=
  if String.eqb (Pos.instId pos) instId then Pos.with_currentPrice price pos else pos.

(** The call of an event is not an order submission. *)
Definition notOrder (ev : Event) : Prop :=
  match ev_call ev with PlaceMarketOrder _ _ _ _ => False | _ => True end.

(** The entry that the [catch] of [executePairTrade] logs. *)
Definition errorEntry (now : Z) (instId : string) (e : Exn) : Log.t :=
  Log.mk now [Txt "["; Txt instId; Txt "] Error: "; Txt (message e)] error.

(** An external call of the pipeline of [instId] is bound to fail: the
    ticker request, the candles request, or every order for it. *)
Definition someCallFails (ex : Exchange) (instId : string) : Prop :=
  (exists e, ticker_of ex instId = Throw e)
  \/ (exists e, candles_of ex instId CANDLE_TIMEFRAME CANDLE_LIMIT = Throw e)
  \/ (forall side size lev, exists e, order_of ex instId side size lev = Throw e).

(** A result that can only be [executed] when no call of its pipeline was
    bound to fail. *)
Definition resultSound (ex : Exchange) (r : Result.t) : Prop :=
  someCallFails ex (Result.instId r) -> Result.executed r = false.

(** The pipelines of [pairs] run one after the other, each in the world
    that the one before it left: what each of them returns, in order, and
    the world after the last. *)
Fixpoint pipelines (ex : Exchange) (pairs : list string) (w : World)
  : list (Outcome Result.t) * World :=
  match pairs with
  | [] => ([], w)
  | instId :: rest =>
      let '(results, w') := pipelines ex rest (run (executePairTrade ex instId) w) in
      (outcome (executePairTrade ex instId) w :: results, w')
  end.

(** The request body [{ "margin": 50 }]. *)
Definition marginBody : Json :=
  JsonValue (Body.mk JUndefined (JNumber 50) JUndefined JUndefined).

(** The request body that the README gives for this route:
    [{ "demoMode": true, "tradeSize": 100, "leverage": 10 }]. *)
Definition readmeBody : Json :=
  JsonValue (Body.mk (JBool true) JUndefined (JNumber 100) (JNumber 10)).

(** *** Concrete exchanges and worlds for the examples *)

Definition flatCandle (stamp : Z) (c : Q) : Candle :=
  {| c_timestamp := stamp; open := c; high := c; low := c; close := c; volume := 1 |}.

(** 23 candles closing at 101, 102, ..., 123. *)
Definition risingCandles : list Candle :=
  map (fun n => flatCandle (Z.of_nat n) (inject_Z (100 + Z.of_nat n))) (seq 1 23).

(** 23 candles closing at 123, 122, ..., 101. *)
Definition fallingCandles : list Candle :=
  map (fun n => flatCandle (Z.of_nat n) (inject_Z (124 - Z.of_nat n))) (seq 1 23).

Definition tickerAt (instId : string) (price : Q) : Ticker :=
  {| tk_instId := instId; last := price; bid := price; ask := price;
     high24h := price; low24h := price; volume24h := 1 |}.

(** A rising market where every order is filled. *)
Definition exAccept : Exchange :=
  {| ticker_of := fun instId => Return (tickerAt instId 123);
     candles_of := fun _ _ _ => Return risingCandles;
     order_of := fun _ _ _ _ =>
       Return {| o_orderId := "ord-1"; clientOrderId := "cl-1";
                 success := true; simulated := true |};
     configured := true |}.

(** A falling market where every order is rejected. *)
Definition exReject : Exchange :=
  {| ticker_of := fun instId => Return (tickerAt instId 90);
     candles_of := fun _ _ _ => Return fallingCandles;
     order_of := fun _ _ _ _ => Throw {| message := "Order failed: rejected" |};
     configured := true |}.

(** A rising market where every order is filled, but the ticker request
    for ETH-USDT fails. *)
Definition exOneDown : Exchange :=
  {| ticker_of := fun instId =>
       if String.eqb instId "ETH-USDT"
       then Throw {| message := "Network error for ETH-USDT" |}
       else Return (tickerAt instId 123);
     candles_of := fun _ _ _ => Return risingCandles;
     order_of := fun _ _ _ _ =>
       Return {| o_orderId := "ord-1"; clientOrderId := "cl-1";
                 success := true; simulated := true |};
     configured := true |}.

(** A long position on BTC-USDT opened at 100, long before [world0]. *)
Definition longBTC : Pos.t :=
  Pos.mk "ord-0" "BTC-USDT" buy 10 1 100 100 1600000000000 (Some "ord-0") demo.

Definition worldLong : World :=
  {| bot := set_pairState
              (<["BTC-USDT" := Pair.mk (Some long) (Some 1600000000000%Z) (Some BUY)]> ∅)
              (set_positions [longBTC] (initialState defaultConfig));
     demoMode := true; tradeHistory := [];
     clock := fun n => (1700000000000 + Z.of_nat n)%Z; ticks := 0; trace := [] |}.

(** A sequence of operations on the positions, for the examples. *)
Definition opsExample : list StoreOp :=
  [OpAddPosition (Fill.mk "BTC-USDT" buy 10 100 (Some "a") (Some demo) (Some 1));
   OpUpdateMarketPrice "BTC-USDT" 105;
   OpAddPosition (Fill.mk "ETH-USDT" sell 5 20 (Some "b") (Some demo) (Some 2));
   OpAddPosition (Fill.mk "BTC-USDT" sell 10 110 (Some "c") (Some demo) (Some 1));
   OpClosePosition "b"].

(** * More of the sources

    The rest of [state.js] that works on the modelled part of the store,
    the readers and the eraser of [tradeLog.js], and the retry wrapper of
    [okxClient.js]. *)

From Stdlib Require Import Lqa.

(** ** state.js, continued *)

(** [botState.pairState] is a plain object, so [pairState[instId]] also
    finds what every object inherits from [Object.prototype]: at these
    names the code sees a truthy value where the store has no entry, and
    [pairState['__proto__']] is the prototype itself.  The finite map
    models the object at every other name; the instruments of
    [TRADING_PAIRS] are such names. *)
Definition objectPrototypeKeys : list string :=
  ["constructor"; "__proto__"; "hasOwnProperty"; "isPrototypeOf";
   "propertyIsEnumerable"; "toLocaleString"; "toString"; "valueOf";
   "__defineGetter__"; "__defineSetter__"; "__lookupGetter__";
   "__lookupSetter__"].

Definition plainKey (instId : string) : Prop := instId ∉ objectPrototypeKeys.

(** [!botState.lastTradeTime]: the time of the last trade when it is there
    and truthy. *)
Definition truthy_globalTradeTime (b : BotState) : option Z :=
  match lastTradeTime b with
  | None => None
  | Some t => if (t =? 0)%Z then None else Some t
  end.

(** [isInCooldown()] *)
Definition isInCooldown : M bool :=
  b ← get_bot;
  match truthy_globalTradeTime b with
  | None => mret false
  | Some t =>
      now ← Date_now;
      let elapsed := inject_Z (now - t) / 1000 in
      mret (Qlt_bool elapsed (cooldownSeconds b))
  end.

(** [getCooldownRemaining()] *)
Definition getCooldownRemaining : M Z :=
  b ← get_bot;
  match truthy_globalTradeTime b with
  | None => mret 0%Z
  | Some t =>
      now ← Date_now;
      let elapsed := inject_Z (now - t) / 1000 in
      let remaining := cooldownSeconds b - elapsed in
      mret (Z.max 0 (Math_round remaining))
  end.


(** ** tradeLog.js, continued *)

Definition Mode_eqb (a b : Mode) : bool :=
  match a, b with demo, demo | live, live => true | _, _ => false end.

(** The [options] of [getTradeHistory]; a missing (or falsy) property is
    [None].  A date is a non-empty date string or a [Date], which are
    truthy; the model keeps the instant it denotes, like the timestamps of
    the entries.  The limit is an integer. *)
Module Query.
Record t := mk {
  mode : option Mode;
  instId : option string;
  side : option Side;
  startDate : option Z;
  endDate : option Z;
  limit : option Z;
}.
End Query.

(** One [if (options.x) trades = trades.filter(...)] step. *)
Definition filterWhen {A B} (o : option A) (truthy : A -> bool)
    (keep : A -> B -> bool) (l : list B) : list B :=
  match o with
  | Some x => if truthy x then List.filter (keep x) l else l
  | None => l
  end.

(** [arr.slice(0, n)]: a negative [n] counts from the end. *)
Definition slice0 {A} (n : Z) (l : list A) : list A :=
  if (0 <=? n)%Z then take (Z.to_nat n) l
  else take (Z.to_nat (Z.of_nat (length l) + n)) l.

(** [getTradeHistory(options)] *)
Definition getTradeHistory (options : Query.t) : M (list TradeEntry) := fun w =>
  let trades := tradeHistory w in
  let trades := filterWhen (Query.mode options) (fun _ => true)
                  (fun m t => Mode_eqb (Trade.mode (te_trade t)) m) trades in
  let trades := filterWhen (Query.instId options) truthy_str
                  (fun i t => String.eqb (Trade.instId (te_trade t)) i) trades in
  let trades := filterWhen (Query.side options) (fun _ => true)
                  (fun s t => Side_eqb (Trade.side (te_trade t)) s) trades in
  let trades := filterWhen (Query.startDate options) (fun _ => true)
                  (fun d t => (d <=? te_timestamp t)%Z) trades in
  let trades := filterWhen (Query.endDate options) (fun _ => true)
                  (fun d t => (te_timestamp t <=? d)%Z) trades in
  let trades := match Query.limit options with
                | Some n => if (n =? 0)%Z then trades else slice0 n trades
                | None => trades
                end in
  (Return trades, w).

(** [clearTradeHistory(mode)]; [None] is the default [null]. *)
Definition clearTradeHistory (mode : option Mode) : M unit :=
  match mode with
  | Some m =>
      modify_history
        (List.filter (fun t => negb (Mode_eqb (Trade.mode (te_trade t)) m)))
  | None => modify_history (fun _ => [])
  end.

(** A sequence of [recordTrade] calls of the trade log, first one first. *)
Fixpoint logTrades (ts : list Trade.t) : M unit :=
  match ts with
  | [] => mret tt
  | t :: rest => logTrade t;; logTrades rest
  end.

(** ** okxClient.js: the retry wrapper *)

(** [hay.includes(needle)] *)
Definition includes (needle hay : string) : bool :=
  match String.index 0 needle hay with Some _ => true | None => false end.

(** [isRateLimit] in the [catch] of [withRetry]. *)
Definition isRateLimit (e : Exn) : bool :=
  includes "Too many requests" (message e)
  || includes "rate limit" (message e)
  || includes "50011" (message e).

(** What [withRetry] settles to; [Rejected None] is [throw undefined]. *)
Inductive Settled (A : Type) :=
| Resolved (a : A)
| Rejected (e : option Exn).
Arguments Resolved {A} a.
Arguments Rejected {A} e.

(** What [withRetry] does besides settling, in order. *)
Inductive RetryEvent :=
| WaitForRateLimit
| CallFn (attempt : nat)
| Sleep (ms : nat).

(** The [for] loop of [withRetry]: [remaining] iterations are left,
    starting with [attempt]; [fn k] is what the call of attempt [k]
    settles to.  Returns the events in order and the result. *)
Fixpoint retryLoop {A} (fn : nat -> Outcome A) (baseDelay : nat)
    (remaining attempt : nat) (lastError : option Exn)
  : list RetryEvent * Settled A :=
  match remaining with
  | O => ([], Rejected lastError)
  | S remaining' =>
      match fn attempt with
      | Return a => ([WaitForRateLimit; CallFn attempt], Resolved a)
      | Throw err =>
          if isRateLimit err then
            if (0 <? remaining')%nat then
              let delay := (baseDelay * 2 ^ attempt)%nat in
              let '(events, settled) :=
                retryLoop fn baseDelay remaining' (S attempt) (Some err) in
              (WaitForRateLimit :: CallFn attempt :: Sleep delay :: events, settled)
            else
              let '(events, settled) :=
                retryLoop fn baseDelay remaining' (S attempt) (Some err) in
              (WaitForRateLimit :: CallFn attempt :: events, settled)
          else ([WaitForRateLimit; CallFn attempt], Rejected (Some err))
      end
  end.

(** [withRetry(fn, maxRetries, baseDelay)] *)
Definition withRetry {A} (fn : nat -> Outcome A) (maxRetries baseDelay : nat)
  : list RetryEvent * Settled A :=
  retryLoop fn baseDelay maxRetries 0 None.

Definition callsOf (events : list RetryEvent) : list nat :=
  omap (fun ev => match ev with CallFn k => Some k | _ => None end) events.

Definition sleepsOf (events : list RetryEvent) : list nat :=
  omap (fun ev => match ev with Sleep ms => Some ms | _ => None end) events.

(** ** Vocabulary of the further statements *)

Definition positiveSize (p : Pos.t) : Prop := 0 < Pos.size p.

Definition positiveSizeOp (op : StoreOp) : Prop :=
  match op with
  | OpAddPosition fill => 0 < Fill.size fill
  | _ => True
  end.

(** The order submissions among events. *)
Definition isOrder (ev : Event) : bool :=
  match ev_call ev with PlaceMarketOrder _ _ _ _ => true | _ => false end.

(** The instrument that an external call is about. *)
Definition callInstrument (c : Call) : option string :=
  match c with
  | GetTicker i | GetCandles i _ _ | PlaceMarketOrder i _ _ _ => Some i
  | SaveConfig _ => None
  end.

(** The number of orders for [instId] among the events. *)
Definition ordersFor (instId : string) (evs : list Event) : nat :=
  length (List.filter
            (fun ev => match ev_call ev with
                       | PlaceMarketOrder i _ _ _ => String.eqb i instId
                       | _ => false
                       end) evs).

(** The external calls of one complete pipeline for [instId], newest
    first. *)
Definition pipelineCalls (instId : string) (side : Side) (cfg : TradeConfig)
  : list Call :=
  [PlaceMarketOrder instId side (tradeSize cfg) (leverage cfg);
   GetCandles instId CANDLE_TIMEFRAME CANDLE_LIMIT;
   GetTicker instId].

(** An entry passes every filter that the options ask for. *)
Definition queryMatches (o : Query.t) (t : TradeEntry) : bool :=
  match Query.mode o with
  | Some m => Mode_eqb (Trade.mode (te_trade t)) m | None => true end
  && match Query.instId o with
     | Some i => if truthy_str i then String.eqb (Trade.instId (te_trade t)) i
                 else true
     | None => true end
  && match Query.side o with
     | Some s => Side_eqb (Trade.side (te_trade t)) s | None => true end
  && match Query.startDate o with
     | Some d => (d <=? te_timestamp t)%Z | None => true end
  && match Query.endDate o with
     | Some d => (te_timestamp t <=? d)%Z | None => true end.

(** *** More exchanges and values for the examples *)

(** An exchange that has only five candles to offer. *)
Definition exThin : Exchange :=
  {| ticker_of := fun instId => Return (tickerAt instId 105);
     candles_of := fun _ _ _ => Return (take 5 risingCandles);
     order_of := fun _ _ _ _ =>
       Return {| o_orderId := "ord-1"; clientOrderId := "cl-1";
                 success := true; simulated := true |};
     configured := true |}.

(** The connector without API credentials. *)
Definition exOffline : Exchange :=
  {| ticker_of := fun instId => Return (tickerAt instId 123);
     candles_of := fun _ _ _ => Return risingCandles;
     order_of := fun _ _ _ _ => Throw {| message := "OKX API credentials not configured" |};
     configured := false |}.

Definition buyBTC : Fill.t :=
  Fill.mk "BTC-USDT" buy 10 110 (Some "a") (Some demo) (Some 1).

Definition tradeBTC : Trade.t :=
  Trade.mk demo "BTC-USDT" buy 123 10 1 BUY (Some 119) (Some 113) "ord-1"
    [Txt "BUY signal confirmed"].


(** * Proofs *)

(** ** The activity log *)

Lemma addLog_eq message type w :
  addLog message type w
  = (Return tt, logged (Log.mk (clock w (ticks w)) message type) w).
Proof.
  unfold addLog, logged, mbind, M_bind, mret, M_ret, Date_now, modify_bot, get_bot.
  cbn -[Nat.ltb take].
  destruct (Nat.ltb_spec (maxLogs (bot w)) (S (length (logs (bot w)))))
    as [Hlt | Hge]; cbn -[take].
  - reflexivity.
  - rewrite (take_ge (_ :: _)) by (cbn; lia). reflexivity.
Qed.

Lemma appendAll_logs entries : forall w,
  (length (logs (bot w)) <= maxLogs (bot w))%nat ->
  maxLogs (bot (run (appendAll entries) w)) = maxLogs (bot w)
  /\ ticks (run (appendAll entries) w) = (ticks w + length entries)%nat
  /\ clock (run (appendAll entries) w) = clock w
  /\ logs (bot (run (appendAll entries) w))
     = take (maxLogs (bot w))
            (rev (stamped (clock w) (ticks w) entries) ++ logs (bot w)).
Proof.
  induction entries as [| e rest IH]; intros w Hlen.
  - cbn. rewrite take_ge by lia. rewrite Nat.add_0_r. auto.
  - unfold run in *. cbn [appendAll].
    unfold mbind, M_bind. rewrite addLog_eq.
    destruct (IH (logged (Log.mk (clock w (ticks w)) e.1 e.2) w))
      as (Hmax & Hticks & Hclock & Hlogs).
    { cbn -[take]. rewrite length_take. lia. }
    rewrite Hmax, Hticks, Hclock, Hlogs. cbn -[take].
    repeat split; try lia.
    rewrite <- app_assoc. cbn -[take].
    set (n := maxLogs (bot w)). set (old := logs (bot w)).
    set (new := rev _). set (x := Log.mk _ _ _).
    destruct (decide (length new < n)%nat) as [Hlt | Hge].
    + rewrite !take_app_ge by lia.
      f_equal.
      rewrite take_take. f_equal. lia.
    + rewrite !take_app_le by lia. reflexivity.
Qed.

(** C8.  Starting from a log within its capacity [maxLogs] (100 in
    [botState]), after any sequence of [addLog] calls the log is still
    within capacity and holds the most recent entries, newest first: it is
    the first [maxLogs] elements of the new entries in reverse order of
    creation followed by the old log.  One more [addLog] puts its entry at
    the front and, when the log is full, drops exactly the last (oldest)
    entry. *)
Theorem log_bounded_newest_first (w : World) (entries : list (Template * LogType)) :
  (length (logs (bot w)) <= maxLogs (bot w))%nat ->
  (0 < maxLogs (bot w))%nat ->
  let w' := run (appendAll entries) w in
  (length (logs (bot w')) <= maxLogs (bot w'))%nat
  /\ maxLogs (bot w') = maxLogs (bot w)
  /\ logs (bot w')
     = take (maxLogs (bot w))
            (rev (stamped (clock w) (ticks w) entries) ++ logs (bot w))
  /\ forall message type,
       logs (bot (run (addLog message type) w'))
       = Log.mk (clock w' (ticks w')) message type
         :: (if decide (length (logs (bot w')) = maxLogs (bot w'))
             then removelast (logs (bot w'))
             else logs (bot w')).
Proof.
  intros Hlen Hpos w'.
  destruct (appendAll_logs entries w Hlen) as (Hmax & Hticks & Hclock & Hlogs).
  fold w' in Hmax, Hticks, Hclock, Hlogs.
  assert (Hlen' : (length (logs (bot w')) <= maxLogs (bot w'))%nat).
  { rewrite Hlogs, Hmax, length_take. lia. }
  repeat split; try assumption.
  intros message type. unfold run. rewrite addLog_eq. cbn -[take].
  destruct (maxLogs (bot w')) as [| n] eqn:Hn; [lia |].
  rewrite firstn_cons. f_equal.
  case_decide as Hfull.
  - rewrite removelast_firstn_len. f_equal. lia.
  - rewrite take_ge by lia. reflexivity.
Qed.

Lemma log_bounded_newest_first_witness :
  let w' := run (appendAll [([Txt "Bot started"], info)]) world0 in
  (length (logs (bot w')) <= maxLogs (bot w'))%nat
  /\ maxLogs (bot w') = maxLogs (bot world0)
  /\ logs (bot w')
     = take (maxLogs (bot world0))
            (rev (stamped (clock world0) (ticks world0) [([Txt "Bot started"], info)])
             ++ logs (bot world0))
  /\ forall message type,
       logs (bot (run (addLog message type) w'))
       = Log.mk (clock w' (ticks w')) message type
         :: (if decide (length (logs (bot w')) = maxLogs (bot w'))
             then removelast (logs (bot w'))
             else logs (bot w')).
Proof.
  apply (log_bounded_newest_first world0 [([Txt "Bot started"], info)]).
  - cbn. lia.
  - cbn. lia.
Defined.


(** ** Lists *)

Lemma findIndex_Some {A} (f : A -> bool) (l : list A) i :
  findIndex f l = Some i ->
  exists x, l !! i = Some x /\ f x = true
            /\ forall j y, (j < i)%nat -> l !! j = Some y -> f y = false.
Proof.
  revert i. induction l as [| a l IH]; intros i H; cbn in H; [discriminate |].
  destruct (f a) eqn:Hfa.
  - injection H as <-. exists a. repeat split; auto. intros j y Hj. lia.
  - destruct (findIndex f l) as [k |] eqn:Hk; cbn in H; [| discriminate].
    injection H as <-. destruct (IH k eq_refl) as (x & Hx & Hfx & Hbefore).
    exists x. repeat split; auto.
    intros [| j] y Hj Hy; cbn in Hy.
    + congruence.
    + apply (Hbefore j); [lia | assumption].
Qed.

Lemma findIndex_None {A} (f : A -> bool) (l : list A) :
  findIndex f l = None <-> forall x, x ∈ l -> f x = false.
Proof.
  induction l as [| a l IH]; cbn.
  - split; [intros _ x Hx; inversion Hx | reflexivity].
  - destruct (f a) eqn:Hfa.
    + split; [discriminate |]. intros H.
      rewrite H in Hfa by left. discriminate.
    + destruct (findIndex f l) eqn:Hk; cbn.
      * split; [discriminate |]. intros H.
        assert (Hn : Some n = None); [| discriminate].
        apply IH. intros x Hx. apply H. now right.
      * split; [| reflexivity]. intros _ x Hx.
        apply elem_of_cons in Hx as [-> | Hx]; [assumption |].
        now apply IH.
Qed.

(** ** Positions *)

(** C10.  When no open position has the given id, [closePosition] returns
    [null] and changes nothing at all: the positions, the log, the clock
    and every other part of the world are the same. *)
Theorem closePosition_unknown_id (w : World) (positionId : string) :
  (forall p, p ∈ positions (bot w) -> Pos.id p <> positionId) ->
  closePosition positionId w = (Return None, w).
Proof.
  intros Hno. unfold closePosition, mbind, M_bind, get_bot. 
  assert (Hfind : findIndex (fun p => String.eqb (Pos.id p) positionId)
                            (positions (bot w)) = None).
  { apply findIndex_None. intros p Hp. apply String.eqb_neq. now apply Hno. }
  rewrite Hfind. reflexivity.
Qed.


Lemma addPosition_eq (fill : Fill.t) (w : World) :
  exists newPosition w',
    addPosition fill w = (Return newPosition, w')
    /\ positions (bot w')
       = positionsAfterAdd fill newPosition (positions (bot w))
    /\ Pos.instId newPosition = Fill.instId fill
    /\ Pos.side newPosition = Fill.side fill
    /\ Pos.size newPosition = Fill.size fill
    /\ Pos.entryPrice newPosition = Fill.price fill
    /\ Pos.currentPrice newPosition = Fill.price fill
    /\ Pos.leverage newPosition = leverageOrOne (Fill.leverage fill)
    /\ positionsFrame w w'
    /\ (ticks w <= ticks w')%nat.
Proof.
  unfold addPosition, positionsAfterAdd, positionsFrame.
  unfold mbind, M_bind.
  destruct (positionId (Fill.orderId fill) w) as [[newId | e] w1] eqn:Hid.
  2: { unfold positionId, mbind, M_bind, mret, M_ret, Date_now in Hid.
       repeat case_match; discriminate. }
  assert (Hw1 : bot w1 = bot w /\ demoMode w1 = demoMode w
                /\ tradeHistory w1 = tradeHistory w /\ clock w1 = clock w
                /\ trace w1 = trace w /\ (ticks w <= ticks w1)%nat).
  { unfold positionId, mbind, M_bind, mret, M_ret, Date_now in Hid.
    repeat case_match; injection Hid as <- <-; cbn; auto 10. }
  destruct Hw1 as (Hb & Hd & Hh & Hc & Ht & Hk).
  unfold Date_now, get_bot, modify_bot, mret, M_ret, throw.
  cbn -[addLog]. rewrite Hb.
  destruct (findIndex (isOpposite fill) (positions (bot w))) as [i |] eqn:Hopp.
  - destruct (findIndex_Some _ _ _ Hopp) as (closed & Hclosed & _).
    rewrite Hclosed. cbn -[addLog]. rewrite addLog_eq. cbn -[addLog].
    destruct (findIndex (isSameSide fill) (delete i (positions (bot w))))
      as [j |] eqn:Hsame.
    + destruct (findIndex_Some _ _ _ Hsame) as (existing & Hex & _).
      rewrite Hex. cbn -[addLog]. rewrite addLog_eq. cbn.
      eexists _, _. split; [reflexivity |]. cbn. rewrite ?Hb. repeat split; auto; lia.
    + cbn -[addLog]. rewrite addLog_eq. cbn.
      eexists _, _. split; [reflexivity |]. cbn. rewrite ?Hb. repeat split; auto; lia.
  - cbn -[addLog]. rewrite ?Hb.
    destruct (findIndex (isSameSide fill) (positions (bot w))) as [j |] eqn:Hsame.
    + destruct (findIndex_Some _ _ _ Hsame) as (existing & Hex & _).
      rewrite Hex. cbn -[addLog]. rewrite addLog_eq. cbn.
      eexists _, _. split; [reflexivity |]. cbn. rewrite ?Hb. repeat split; auto; lia.
    + cbn -[addLog]. rewrite addLog_eq. cbn.
      eexists _, _. split; [reflexivity |]. cbn. rewrite ?Hb. repeat split; auto; lia.
Qed.


Lemma distinct_delete l i :
  distinctInstruments l -> distinctInstruments (delete i l).
Proof.
  unfold distinctInstruments. intros H.
  eapply sublist_NoDup; [exact H |].
  apply fmap_sublist, sublist_delete.
Qed.

Lemma distinct_same_instrument l p q :
  distinctInstruments l -> p ∈ l -> q ∈ l ->
  Pos.instId p = Pos.instId q -> p = q.
Proof.
  unfold distinctInstruments. intros Hnd Hp Hq Heq.
  apply list_elem_of_lookup in Hp as [i Hi].
  apply list_elem_of_lookup in Hq as [j Hj].
  assert (i = j).
  { eapply NoDup_lookup; [exact Hnd | |].
    - rewrite list_lookup_fmap, Hi. reflexivity.
    - rewrite list_lookup_fmap, Hj. cbn. now rewrite Heq. }
  subst j. congruence.
Qed.

Lemma distinct_delete_absent l i p :
  distinctInstruments l -> l !! i = Some p ->
  forall q, q ∈ delete i l -> Pos.instId q <> Pos.instId p.
Proof.
  unfold distinctInstruments. intros Hnd Hi q Hq Heq.
  apply list_elem_of_lookup in Hq as [j Hj].
  rewrite list_lookup_delete in Hj.
  set (k := if decide (j < i)%nat then j else S j) in *.
  assert (Hk : l !! k = Some q).
  { unfold k. case_decide; assumption. }
  assert (k = i).
  { eapply NoDup_lookup; [exact Hnd | |].
    - rewrite list_lookup_fmap, Hk. reflexivity.
    - rewrite list_lookup_fmap, Hi. cbn. now rewrite Heq. }
  unfold k in *. case_decide; lia.
Qed.

Lemma distinct_insert_same l j p q :
  distinctInstruments l -> l !! j = Some p -> Pos.instId q = Pos.instId p ->
  distinctInstruments (<[j := q]> l).
Proof.
  unfold distinctInstruments. intros Hnd Hj Heq.
  rewrite list_fmap_insert, Heq, list_insert_id; [exact Hnd |].
  rewrite list_lookup_fmap, Hj. reflexivity.
Qed.

Lemma distinct_snoc l p :
  distinctInstruments l ->
  (forall q, q ∈ l -> Pos.instId q <> Pos.instId p) ->
  distinctInstruments (l ++ [p]).
Proof.
  unfold distinctInstruments. intros Hnd Hfresh.
  rewrite fmap_app. apply NoDup_app. repeat split.
  - exact Hnd.
  - intros x Hx Hx'. cbn in Hx'. apply list_elem_of_singleton in Hx'. subst x.
    apply list_elem_of_fmap in Hx as (q & Hq & Hin). now apply (Hfresh q).
  - cbn. apply NoDup_singleton.
Qed.

Lemma Side_eqb_eq a b : Side_eqb a b = true <-> a = b.
Proof. destruct a, b; cbn; split; congruence. Qed.

Lemma isOpposite_spec fill p :
  isOpposite fill p = true
  <-> Pos.instId p = Fill.instId fill /\ Pos.side p <> Fill.side fill.
Proof.
  unfold isOpposite. rewrite andb_true_iff, String.eqb_eq, negb_true_iff.
  rewrite <- not_true_iff_false, Side_eqb_eq. reflexivity.
Qed.

Lemma isSameSide_spec fill p :
  isSameSide fill p = true
  <-> Pos.instId p = Fill.instId fill /\ Pos.side p = Fill.side fill.
Proof.
  unfold isSameSide. rewrite andb_true_iff, String.eqb_eq, Side_eqb_eq.
  reflexivity.
Qed.

(** A position of the instrument is on the same side or on the other. *)
Lemma same_or_opposite fill p :
  Pos.instId p = Fill.instId fill ->
  isSameSide fill p = true \/ isOpposite fill p = true.
Proof.
  intros H. rewrite isSameSide_spec, isOpposite_spec.
  destruct (Pos.side p), (Fill.side fill); intuition congruence.
Qed.

Lemma positionsAfterAdd_distinct fill newPosition l :
  Pos.instId newPosition = Fill.instId fill ->
  distinctInstruments l ->
  distinctInstruments (positionsAfterAdd fill newPosition l).
Proof.
  intros Hnew Hnd. unfold positionsAfterAdd.
  set (l1 := match findIndex (isOpposite fill) l with
             | Some i => delete i l | None => l end).
  assert (Hnd1 : distinctInstruments l1).
  { unfold l1. destruct (findIndex _ l); [now apply distinct_delete | exact Hnd]. }
  assert (Hno : forall q, q ∈ l1 -> isOpposite fill q = false).
  { unfold l1. destruct (findIndex (isOpposite fill) l) as [i |] eqn:Hopp.
    - destruct (findIndex_Some _ _ _ Hopp) as (p & Hp & Hfp & _).
      intros q Hq. apply not_true_iff_false. rewrite isOpposite_spec.
      intros [Hq' _]. apply isOpposite_spec in Hfp as [Hp' _].
      apply (distinct_delete_absent l i p Hnd Hp q Hq). congruence.
    - now apply findIndex_None. }
  destruct (findIndex (isSameSide fill) l1) as [j |] eqn:Hsame.
  - destruct (findIndex_Some _ _ _ Hsame) as (existing & Hex & _).
    rewrite Hex. eapply distinct_insert_same; eauto.
  - apply distinct_snoc; [exact Hnd1 |].
    intros q Hq Heq. rewrite Hnew in Heq.
    destruct (same_or_opposite fill q Heq) as [Hs | Ho].
    + rewrite (proj1 (findIndex_None _ _) Hsame q Hq) in Hs. discriminate.
    + rewrite (Hno q Hq) in Ho. discriminate.
Qed.

Lemma distinct_noBothSides l : distinctInstruments l -> noBothSides l.
Proof.
  intros Hnd p q Hp Hq Heq Hbuy Hsell.
  assert (p = q) by (eapply distinct_same_instrument; eauto).
  subst q. congruence.
Qed.

Lemma distinct_atMostOnePerPair l : distinctInstruments l -> atMostOnePerPair l.
Proof.
  intros Hnd inst s. induction l as [| a l IH]; cbn; [lia |].
  assert (Hnd' : distinctInstruments l).
  { unfold distinctInstruments in *. cbn in Hnd. now apply NoDup_cons in Hnd. }
  destruct (onPair inst s a) eqn:Ha; [| now apply IH].
  cbn. enough (List.filter (onPair inst s) l = []) as -> by (cbn; lia).
  rewrite <- (filter_false l). apply filter_ext_in. intros q Hq.
  apply not_true_iff_false. intros Hq'.
  unfold onPair in Ha, Hq'. apply andb_true_iff in Ha as [Ha _].
  apply andb_true_iff in Hq' as [Hq' _].
  apply String.eqb_eq in Ha, Hq'.
  unfold distinctInstruments in Hnd. cbn in Hnd. apply NoDup_cons in Hnd as [Hnotin _].
  apply Hnotin. apply list_elem_of_fmap. exists q. split; [congruence |].
  now apply list_elem_of_In.
Qed.


Lemma distinct_index l i j p q :
  distinctInstruments l -> l !! i = Some p -> l !! j = Some q ->
  Pos.instId p = Pos.instId q -> i = j.
Proof.
  unfold distinctInstruments. intros Hnd Hi Hj Heq.
  eapply NoDup_lookup; [exact Hnd | |].
  - rewrite list_lookup_fmap, Hi. reflexivity.
  - rewrite list_lookup_fmap, Hj. cbn. now rewrite Heq.
Qed.

(** [addPosition] on a same-side position: it is merged in place. *)
Lemma positionsAfterAdd_merge fill newPosition l i p :
  distinctInstruments l -> l !! i = Some p -> isSameSide fill p = true ->
  positionsAfterAdd fill newPosition l
  = <[i := Pos.merged (Pos.size p + Fill.size fill)
             (((Pos.entryPrice p * Pos.size p) + (Fill.price fill * Fill.size fill))
              / (Pos.size p + Fill.size fill))
             (leverageOrOne (Fill.leverage fill)) p]> l.
Proof.
  intros Hnd Hi Hsame. unfold positionsAfterAdd.
  pose proof (proj1 (isSameSide_spec _ _) Hsame) as [Hinst Hside].
  assert (Hopp : findIndex (isOpposite fill) l = None).
  { apply findIndex_None. intros q Hq. apply not_true_iff_false.
    rewrite isOpposite_spec. intros [Hq1 Hq2].
    assert (p = q).
    { eapply distinct_same_instrument; eauto; [| congruence].
      apply list_elem_of_lookup. eauto. }
    subst q. contradiction. }
  rewrite Hopp.
  destruct (findIndex (isSameSide fill) l) as [j |] eqn:Hj.
  - destruct (findIndex_Some _ _ _ Hj) as (q & Hq & Hfq & _).
    apply isSameSide_spec in Hfq as [Hq1 _].
    assert (j = i) by (eapply distinct_index; eauto; congruence).
    subst j. rewrite Hi. reflexivity.
  - rewrite (proj1 (findIndex_None _ _) Hj p) in Hsame; [discriminate |].
    apply list_elem_of_lookup. eauto.
Qed.

(** [addPosition] on an opposite-side position: it is removed, then the
    new position is pushed. *)
Lemma positionsAfterAdd_flip fill newPosition l i p :
  distinctInstruments l -> l !! i = Some p -> isOpposite fill p = true ->
  positionsAfterAdd fill newPosition l = delete i l ++ [newPosition].
Proof.
  intros Hnd Hi Hopp. unfold positionsAfterAdd.
  pose proof (proj1 (isOpposite_spec _ _) Hopp) as [Hinst Hside].
  destruct (findIndex (isOpposite fill) l) as [j |] eqn:Hj.
  - destruct (findIndex_Some _ _ _ Hj) as (q & Hq & Hfq & _).
    apply isOpposite_spec in Hfq as [Hq1 _].
    assert (j = i) by (eapply distinct_index; eauto; congruence).
    subst j.
    assert (Hnone : findIndex (isSameSide fill) (delete i l) = None).
    { apply findIndex_None. intros r Hr. apply not_true_iff_false.
      rewrite isSameSide_spec. intros [Hr1 _].
      apply (distinct_delete_absent l i p Hnd Hi r Hr). congruence. }
    rewrite Hnone. reflexivity.
  - rewrite (proj1 (findIndex_None _ _) Hj p) in Hopp; [discriminate |].
    apply list_elem_of_lookup. eauto.
Qed.

Lemma closePosition_positions positionId w :
  exists r w',
    closePosition positionId w = (Return r, w')
    /\ (positions (bot w') = positions (bot w)
        \/ exists i, positions (bot w') = delete i (positions (bot w))).
Proof.
  unfold closePosition, mbind, M_bind, get_bot, modify_bot, mret, M_ret.
  destruct (findIndex _ (positions (bot w))) as [i |] eqn:Hfind.
  - destruct (findIndex_Some _ _ _ Hfind) as (pos & Hpos & _).
    rewrite Hpos. rewrite addLog_eq. cbn.
    eexists _, _. split; [reflexivity |]. right. exists i. reflexivity.
  - eexists _, _. split; [reflexivity |]. now left.
Qed.

Lemma updateMarketPrice_positions instId price w :
  updateMarketPrice instId price w
  = (Return tt, run (updateMarketPrice instId price) w)
  /\ positions (bot (run (updateMarketPrice instId price) w))
     = map (fun pos => if String.eqb (Pos.instId pos) instId
                       then Pos.with_currentPrice price pos else pos)
           (positions (bot w)).
Proof. split; reflexivity. Qed.

Lemma refresh_instruments instId price l :
  Pos.instId <$> map (fun pos => if String.eqb (Pos.instId pos) instId
                                 then Pos.with_currentPrice price pos else pos) l
  = Pos.instId <$> l.
Proof.
  induction l as [| a l IH]; cbn; [reflexivity |].
  f_equal; [| exact IH]. now destruct (String.eqb _ _).
Qed.

Lemma applyOp_distinct op w :
  distinctInstruments (positions (bot w)) ->
  applyOp op w = (Return tt, run (applyOp op) w)
  /\ distinctInstruments (positions (bot (run (applyOp op) w))).
Proof.
  intros Hnd. destruct op as [fill | pid | | inst price]; unfold run; cbn [applyOp].
  - destruct (addPosition_eq fill w) as (np & w' & Heq & Hps & Hinst & _).
    unfold mbind, M_bind. rewrite Heq. cbn. split; [reflexivity |].
    rewrite Hps. now apply positionsAfterAdd_distinct.
  - destruct (closePosition_positions pid w) as (r & w' & Heq & Hps).
    unfold mbind, M_bind. rewrite Heq. cbn. split; [reflexivity |].
    destruct Hps as [-> | [i ->]]; [exact Hnd | now apply distinct_delete].
  - unfold clearPositions, mbind, M_bind, modify_bot. rewrite addLog_eq. cbn.
    split; [reflexivity |]. apply NoDup_nil_2.
  - split; [reflexivity |].
    change (distinctInstruments (positions (bot (run (updateMarketPrice inst price) w)))).
    rewrite (proj2 (updateMarketPrice_positions inst price w)).
    unfold distinctInstruments. now rewrite refresh_instruments.
Qed.

Lemma applyOps_distinct ops : forall w,
  distinctInstruments (positions (bot w)) ->
  distinctInstruments (positions (bot (run (applyOps ops) w))).
Proof.
  induction ops as [| op rest IH]; intros w Hnd; [exact Hnd |].
  destruct (applyOp_distinct op w Hnd) as [Heq Hnd'].
  unfold run in *. cbn [applyOps]. unfold mbind, M_bind. rewrite Heq.
  now apply IH.
Qed.

(** C1.  Start from an empty positions collection and apply any sequence
    of [addPosition], [closePosition], [clearPositions] and
    [updateMarketPrice].  In the state reached, no instrument has both a
    buy-side and a sell-side position, and each (instId, side) has at most
    one position.  From such a state, [addPosition] on a side that already
    has a position merges into it in place (same index, sizes added,
    weighted-average entry price), and [addPosition] against a position on
    the other side removes that position and then pushes the new one. *)
Theorem one_position_per_instrument (w : World) (ops : list StoreOp) :
  positions (bot w) = [] ->
  let w' := run (applyOps ops) w in
  let ps := positions (bot w') in
  noBothSides ps
  /\ atMostOnePerPair ps
  /\ forall fill : Fill.t,
       let ps' := positions (bot (run (addPosition fill) w')) in
       (forall i p, ps !! i = Some p -> isSameSide fill p = true ->
          ps' = <[i := Pos.merged (Pos.size p + Fill.size fill)
                         (((Pos.entryPrice p * Pos.size p)
                           + (Fill.price fill * Fill.size fill))
                          / (Pos.size p + Fill.size fill))
                         (leverageOrOne (Fill.leverage fill)) p]> ps)
       /\ (forall i p, ps !! i = Some p -> isOpposite fill p = true ->
             exists newPosition,
               ps' = delete i ps ++ [newPosition]
               /\ Pos.instId newPosition = Fill.instId fill
               /\ Pos.side newPosition = Fill.side fill
               /\ Pos.size newPosition = Fill.size fill
               /\ Pos.entryPrice newPosition = Fill.price fill).
Proof.
  intros Hempty w' ps.
  assert (Hnd : distinctInstruments ps).
  { apply applyOps_distinct. rewrite Hempty. apply NoDup_nil_2. }
  split; [now apply distinct_noBothSides |].
  split; [now apply distinct_atMostOnePerPair |].
  intros fill ps'.
  destruct (addPosition_eq fill w')
    as (np & w'' & Heq & Hps & Hinst & Hside & Hsize & Hentry & _).
  assert (Hps' : ps' = positionsAfterAdd fill np ps).
  { unfold ps', run. rewrite Heq. exact Hps. }
  split.
  - intros i p Hi Hsame. rewrite Hps'. now apply positionsAfterAdd_merge.
  - intros i p Hi Hopp. exists np. rewrite Hps'.
    repeat split; try assumption. now apply (positionsAfterAdd_flip _ _ _ i p).
Qed.


(** *** Two same-side fills *)

Lemma findIndex_app_last {A} (f : A -> bool) (l : list A) (x : A) :
  findIndex f (l ++ [x])
  = match findIndex f l with
    | Some i => Some i
    | None => if f x then Some (length l) else None
    end.
Proof.
  induction l as [| a l IH]; cbn.
  - now destruct (f x).
  - destruct (f a); [reflexivity |]. rewrite IH.
    destruct (findIndex f l); cbn; [reflexivity |]. now destruct (f x).
Qed.

Lemma findIndex_lt {A} (f : A -> bool) (l : list A) i :
  findIndex f l = Some i -> (i < length l)%nat.
Proof.
  intros H. destruct (findIndex_Some _ _ _ H) as (x & Hx & _).
  now apply lookup_lt_Some in Hx.
Qed.

(** A first fill on a pair without position pushes the new position. *)
Lemma positionsAfterAdd_open fill newPosition l :
  (forall q, q ∈ l -> isSameSide fill q = false) ->
  exists l1, positionsAfterAdd fill newPosition l = l1 ++ [newPosition]
             /\ forall q, q ∈ l1 -> q ∈ l.
Proof.
  intros Hnone. unfold positionsAfterAdd.
  set (l1 := match findIndex (isOpposite fill) l with
             | Some i => delete i l | None => l end).
  assert (Hsub : forall q, q ∈ l1 -> q ∈ l).
  { unfold l1. destruct (findIndex _ l); [| auto].
    intros q Hq. eapply elem_of_sublist; [exact Hq | apply sublist_delete]. }
  assert (Hfind : findIndex (isSameSide fill) l1 = None).
  { apply findIndex_None. auto. }
  rewrite Hfind. exists l1. auto.
Qed.

(** A second fill on the same pair merges into the position pushed by the
    first, wherever an opposite position may have been removed. *)
Lemma positionsAfterAdd_last fill newPosition l1 p :
  (forall q, q ∈ l1 -> isSameSide fill q = false) ->
  isSameSide fill p = true ->
  exists l2,
    positionsAfterAdd fill newPosition (l1 ++ [p])
    = l2 ++ [Pos.merged (Pos.size p + Fill.size fill)
               (((Pos.entryPrice p * Pos.size p) + (Fill.price fill * Fill.size fill))
                / (Pos.size p + Fill.size fill))
               (leverageOrOne (Fill.leverage fill)) p]
    /\ forall q, q ∈ l2 -> q ∈ l1.
Proof.
  intros Hnone Hp. unfold positionsAfterAdd.
  assert (Hpo : isOpposite fill p = false).
  { apply not_true_iff_false. rewrite isOpposite_spec.
    apply isSameSide_spec in Hp. tauto. }
  rewrite findIndex_app_last, Hpo.
  assert (Hmerge : forall l2, (forall q, q ∈ l2 -> q ∈ l1) ->
    findIndex (isSameSide fill) (l2 ++ [p]) = Some (length l2)
    /\ (l2 ++ [p]) !! length l2 = Some p).
  { intros l2 Hsub. rewrite findIndex_app_last, Hp.
    assert (Hn : findIndex (isSameSide fill) l2 = None)
      by (apply findIndex_None; auto).
    rewrite Hn. split; [reflexivity |].
    rewrite lookup_app_r by lia. now rewrite Nat.sub_diag. }
  destruct (findIndex (isOpposite fill) l1) as [i |] eqn:Hopp.
  - pose proof (findIndex_lt _ _ _ Hopp) as Hlt.
    replace (delete i (l1 ++ [p])) with (delete i l1 ++ [p]).
    2: { clear -Hlt. revert i Hlt. induction l1 as [| a l1 IH]; intros i Hlt.
         - cbn in Hlt. lia.
         - destruct i as [| i]; cbn; [reflexivity |].
           f_equal. apply IH. cbn in Hlt. lia. }
    assert (Hsub : forall q, q ∈ delete i l1 -> q ∈ l1).
    { intros q Hq. eapply elem_of_sublist; [exact Hq | apply sublist_delete]. }
    destruct (Hmerge _ Hsub) as [-> ->].
    exists (delete i l1). split; [| exact Hsub].
    rewrite insert_app_r_alt by lia. now rewrite Nat.sub_diag.
  - destruct (Hmerge l1 (fun q H => H)) as [-> ->].
    exists l1. split; [| auto].
    rewrite insert_app_r_alt by lia. now rewrite Nat.sub_diag.
Qed.

Lemma filter_onPair_last inst s l p :
  (forall q, q ∈ l -> onPair inst s q = false) -> onPair inst s p = true ->
  List.filter (onPair inst s) (l ++ [p]) = [p].
Proof.
  intros Hnone Hp. rewrite List.filter_app. cbn. rewrite Hp.
  enough (List.filter (onPair inst s) l = []) as -> by reflexivity.
  rewrite <- (filter_false l). apply filter_ext_in.
  intros q Hq. apply Hnone. now apply list_elem_of_In.
Qed.

(** C7.  Take any state in which instrument [inst] has no position on side
    [s], and two successive [addPosition] calls for [(inst, s)] with positive
    sizes [s1], [s2] and prices [p1], [p2].  Afterwards the collection holds
    exactly one position for [(inst, s)]; its size is [s1 + s2] and its entry
    price is [(p1 * s1 + p2 * s2) / (s1 + s2)]. *)
Theorem same_side_fills_merge (w : World) (fill1 fill2 : Fill.t) :
  Fill.instId fill2 = Fill.instId fill1 ->
  Fill.side fill2 = Fill.side fill1 ->
  0 < Fill.size fill1 -> 0 < Fill.size fill2 ->
  (forall q, q ∈ positions (bot w) ->
             onPair (Fill.instId fill1) (Fill.side fill1) q = false) ->
  let w2 := run (addPosition fill1;; addPosition fill2) w in
  exists p,
    List.filter (onPair (Fill.instId fill1) (Fill.side fill1)) (positions (bot w2))
    = [p]
    /\ Pos.size p = Fill.size fill1 + Fill.size fill2
    /\ Pos.entryPrice p
       = ((Fill.price fill1 * Fill.size fill1) + (Fill.price fill2 * Fill.size fill2))
         / (Fill.size fill1 + Fill.size fill2)
    /\ 0 < Pos.size p.
Proof.
  intros Hinst Hside Hs1 Hs2 Hnone w2.
  assert (Hfun : forall (f : Fill.t) q,
            Fill.instId f = Fill.instId fill1 -> Fill.side f = Fill.side fill1 ->
            isSameSide f q = onPair (Fill.instId fill1) (Fill.side fill1) q).
  { intros f q Hi Hs. unfold isSameSide, onPair. now rewrite Hi, Hs. }
  destruct (addPosition_eq fill1 w)
    as (np1 & w1 & Heq1 & Hps1 & Hi1 & Hsd1 & Hsz1 & Hen1 & _).
  destruct (addPosition_eq fill2 w1) as (np2 & w2' & Heq2 & Hps2 & _).
  assert (Hw2 : positions (bot w2) = positions (bot w2')).
  { unfold w2, run, mbind, M_bind. now rewrite Heq1, Heq2. }
  destruct (positionsAfterAdd_open fill1 np1 (positions (bot w))) as (l1 & Hl1 & Hsub1).
  { intros q Hq. rewrite Hfun by reflexivity. now apply Hnone. }
  assert (Hnp1 : isSameSide fill2 np1 = true).
  { apply isSameSide_spec. split; congruence. }
  destruct (positionsAfterAdd_last fill2 np2 l1 np1) as (l2 & Hl2 & Hsub2).
  { intros q Hq. rewrite Hfun by assumption. auto. }
  { exact Hnp1. }
  rewrite Hw2, Hps2, Hps1, Hl1, Hl2.
  eexists. split.
  - apply filter_onPair_last.
    + intros q Hq. auto.
    + rewrite <- (Hfun fill2) by assumption.
      apply isSameSide_spec. apply isSameSide_spec in Hnp1. exact Hnp1.
  - cbn. rewrite Hsz1, Hen1. repeat split.
    apply Qlt_trans with (y := Fill.size fill1); [assumption |].
    rewrite <- (Qplus_0_r (Fill.size fill1)) at 1.
    apply Qplus_lt_r. assumption.
Qed.


(** ** The strategy *)

(** C4.  [shouldTrade] refuses to trade exactly for [WAIT], for [BUY] when
    the last position is long and for [SELL] when it is short; in every
    other case it trades, on the buy side for [BUY] and on the sell side
    for [SELL]. *)
Theorem shouldTrade_table (sig : Signal) (lastPos : option Direction) :
  let d := shouldTrade sig lastPos in
  (d_shouldTrade d = false
   <-> sig = WAIT \/ (sig = BUY /\ lastPos = Some long)
       \/ (sig = SELL /\ lastPos = Some short))
  /\ (d_shouldTrade d = true
      <-> d_side d = Some (match sig with BUY => buy | _ => sell end)
          /\ sig <> WAIT)
  /\ (d_shouldTrade d = true -> sig = BUY -> d_side d = Some buy)
  /\ (d_shouldTrade d = true -> sig = SELL -> d_side d = Some sell).
Proof.
  destruct sig, lastPos as [[|] |]; cbn; intuition (try discriminate; try congruence).
Qed.

Lemma lookup_seq_map {A} (f : nat -> A) n i :
  (i < n)%nat -> map f (seq 0 n) !! i = Some (f i).
Proof.
  intros Hi. change (map f (seq 0 n)) with (f <$> seq 0 n).
  rewrite list_lookup_fmap, lookup_seq_lt by assumption. reflexivity.
Qed.

Lemma calculateSMA_length prices period :
  length (calculateSMA prices period) = (length prices + 1 - period)%nat.
Proof. unfold calculateSMA. now rewrite length_map, length_seq. Qed.

(** The value [back] places before the end of the series is the mean of
    the window that ends [back] places before the end of the prices. *)
Lemma calculateSMA_fromEnd prices period back :
  (1 <= period)%nat -> (period + back <= length prices)%nat ->
  fromEnd (S back) (calculateSMA prices period)
  = Some (mean (take period (drop (length prices - period - back) prices))).
Proof.
  intros Hp Hlen. unfold fromEnd. rewrite calculateSMA_length.
  destruct (Nat.leb_spec (S back) (length prices + 1 - period)) as [Hle | Hgt];
    [| exfalso; lia].
  unfold calculateSMA. rewrite lookup_seq_map by lia.
  replace (length prices + 1 - period - S back)%nat
    with (length prices - period - back)%nat by lia.
  reflexivity.
Qed.

Lemma window_current {A} (prices : list A) period :
  take period (drop (length prices - period - 0) prices) = lastn period prices.
Proof.
  unfold lastn. rewrite Nat.sub_0_r. apply take_ge. rewrite length_drop. lia.
Qed.

Lemma window_previous {A} (prices : list A) period :
  (period + 1 <= length prices)%nat ->
  take period (drop (length prices - period - 1) prices)
  = lastn period (removelast prices).
Proof.
  intros Hlen. unfold lastn.
  rewrite removelast_firstn_len, length_take.
  replace (length prices - 1 `min` length prices)%nat with (length prices - 1)%nat by lia.
  rewrite take_drop_commute. f_equal; [lia |].
  f_equal. lia.
Qed.


Lemma Qlt_bool_asym a b : Qlt_bool a b = true -> Qlt_bool b a = false.
Proof.
  unfold Qlt_bool. rewrite negb_true_iff, negb_false_iff.
  rewrite <- not_true_iff_false, !Qle_bool_iff. intros H.
  destruct (Qlt_le_dec a b) as [Hlt | Hle]; [| contradiction].
  now apply Qlt_le_weak.
Qed.

(** The order in which the source tests the four conditions gives the
    same signal as the order of the specification. *)
Lemma source_order_signal (prevFast prevSlow currFast currSlow : Q) :
  (if Qle_bool prevFast prevSlow && Qlt_bool currSlow currFast then BUY
   else if Qle_bool prevSlow prevFast && Qlt_bool currFast currSlow then SELL
   else if Qlt_bool currSlow currFast then BUY
   else if Qlt_bool currFast currSlow then SELL
   else WAIT)
  = crossoverSignal prevFast prevSlow currFast currSlow.
Proof.
  unfold crossoverSignal.
  destruct (Qlt_bool currSlow currFast) eqn:Hb.
  - rewrite (Qlt_bool_asym _ _ Hb), !andb_false_r.
    now destruct (Qle_bool prevFast prevSlow).
  - rewrite !andb_false_r.
    now destruct (Qle_bool prevSlow prevFast), (Qlt_bool currFast currSlow).
Qed.

(** C3.  Without a price list, or with fewer than [SLOW_MA_PERIOD + 2 = 23]
    prices, [analyzeMarket] answers [WAIT] with a reason and no moving
    averages.  With at least 23 prices the signal is the one of
    [crossoverSignal] (BUY on a bullish crossover, else BUY when the fast
    average is above the slow one, else SELL on a bearish crossover, else
    SELL when it is below, else WAIT) applied to the exact means of the last
    9 and 21 prices and of the 9 and 21 prices before the last one; the
    reported averages are these means rounded to two decimals. *)
Theorem analyzeMarket_signal (closePrices : option (list Q)) :
  let a := analyzeMarket closePrices in
  ((closePrices = None
    \/ exists prices, closePrices = Some prices
                      /\ (length prices < SLOW_MA_PERIOD + 2)%nat) ->
   a_signal a = WAIT /\ a_reason a <> None
   /\ a_fastMA a = None /\ a_slowMA a = None)
  /\ (forall prices, closePrices = Some prices ->
        (SLOW_MA_PERIOD + 2 <= length prices)%nat ->
        let currFast := mean (lastn FAST_MA_PERIOD prices) in
        let currSlow := mean (lastn SLOW_MA_PERIOD prices) in
        let prevFast := mean (lastn FAST_MA_PERIOD (removelast prices)) in
        let prevSlow := mean (lastn SLOW_MA_PERIOD (removelast prices)) in
        a_signal a = crossoverSignal prevFast prevSlow currFast currSlow
        /\ a_reason a <> None
        /\ a_fastMA a = Some (round2 currFast)
        /\ a_slowMA a = Some (round2 currSlow)).
Proof.
  cbv zeta. split.
  - intros [-> | (prices & -> & Hlen)].
    + cbn. repeat split; discriminate.
    + unfold analyzeMarket.
      destruct (Nat.ltb_spec (length prices) (SLOW_MA_PERIOD + 2)) as [_ | Hge];
        [| exfalso; lia].
      cbn. repeat split; discriminate.
  - intros prices -> Hlen. unfold analyzeMarket.
    destruct (Nat.ltb_spec (length prices) (SLOW_MA_PERIOD + 2)) as [Hlt | _];
      [exfalso; lia |].
    unfold SLOW_MA_PERIOD, FAST_MA_PERIOD in *.
    rewrite !(calculateSMA_fromEnd prices _ 0), !(calculateSMA_fromEnd prices _ 1)
      by lia.
    rewrite !window_current, !window_previous by lia.
    cbn [num_le num_lt fmap option_fmap option_map].
    rewrite <- source_order_signal.
    repeat match goal with
           | |- context [if ?b then _ else _] => destruct b
           end; cbn; repeat split; discriminate.
Qed.


(** ** Stepping through the monad *)

Lemma bind_return {A B} (m : M A) (f : A -> M B) w a w1 :
  m w = (Return a, w1) -> (m ≫= f) w = f a w1.
Proof. intros H. unfold mbind, M_bind. now rewrite H. Qed.

Lemma bind_throw {A B} (m : M A) (f : A -> M B) w e w1 :
  m w = (Throw e, w1) -> (m ≫= f) w = (Throw e, w1).
Proof. intros H. unfold mbind, M_bind. now rewrite H. Qed.

Lemma sameButTicks_refl w : sameButTicks w w.
Proof. unfold sameButTicks. auto 10. Qed.

Lemma sameButTicks_ticked w : sameButTicks w (ticked w).
Proof. unfold sameButTicks, ticked, run, Date_now. cbn. auto 10. Qed.

(** ** Pair state *)

Lemma isPairInCooldown_eq instId w :
  isPairInCooldown instId w
  = match truthy_lastTradeTime (bot w) instId with
    | None => (Return false, w)
    | Some t =>
        (Return (Qlt_bool (inject_Z (clock w (ticks w) - t) / 1000)
                          (pairCooldownSeconds (bot w))),
         ticked w)
    end.
Proof.
  unfold isPairInCooldown, mbind, M_bind, get_bot.
  now destruct (truthy_lastTradeTime (bot w) instId).
Qed.

Lemma isPairInCooldown_frame instId w :
  exists b w1, isPairInCooldown instId w = (Return b, w1) /\ sameButTicks w w1.
Proof.
  rewrite isPairInCooldown_eq.
  destruct (truthy_lastTradeTime (bot w) instId); eexists _, _;
    (split; [reflexivity |]); [apply sameButTicks_ticked | apply sameButTicks_refl].
Qed.

Lemma getPairCooldownRemaining_frame instId w :
  exists n w1, getPairCooldownRemaining instId w = (Return n, w1)
               /\ sameButTicks w w1 /\ (0 <= n)%Z.
Proof.
  unfold getPairCooldownRemaining, mbind, M_bind, get_bot.
  destruct (truthy_lastTradeTime (bot w) instId); eexists _, _;
    (split; [reflexivity |]); (split; [| lia]);
    [apply sameButTicks_ticked | apply sameButTicks_refl].
Qed.

Lemma alter_as_insert {A} (f : A -> A) (k : string) (m : gmap string A) x :
  m !! k = Some x -> alter f k m = <[k := f x]> m.
Proof.
  intros H. apply map_eq. intros i.
  rewrite lookup_alter, lookup_insert. case_decide; subst; [| reflexivity].
  now rewrite H.
Qed.

Lemma setPairSignal_eq instId s w :
  setPairSignal instId s w
  = (Return tt,
     with_bot (set_pairState
       (<[instId := Pair.mk (pairLastPosition (bot w) instId)
                            (pairLastTradeTime (bot w) instId) (Some s)]>
          (pairState (bot w)))) w).
Proof.
  unfold setPairSignal, mbind, M_bind, get_bot, modify_bot, mret, M_ret,
    with_bot, run, pairLastPosition, pairLastTradeTime.
  destruct (pairState (bot w) !! instId) as [ps |] eqn:Hps; cbn.
  - now rewrite (alter_as_insert _ _ _ ps).
  - erewrite alter_as_insert by apply lookup_insert_eq.
    now rewrite insert_insert_eq.
Qed.

Lemma updatePairState_eq instId s w :
  updatePairState instId s w
  = (Return tt,
     ticked (with_bot (set_pairState
       (<[instId := Pair.mk (Some (direction_of s)) (Some (clock w (ticks w)))
                            (pairSignal (bot w) instId)]>
          (pairState (bot w)))) w)).
Proof.
  unfold updatePairState, mbind, M_bind, get_bot, modify_bot, mret, M_ret,
    with_bot, ticked, run, Date_now, pairSignal.
  destruct (pairState (bot w) !! instId) as [ps |] eqn:Hps; cbn.
  - rewrite (alter_as_insert _ instId (pairState (bot w)) ps) by assumption.
    erewrite (alter_as_insert _ _ (<[_ := _]> _)) by apply lookup_insert_eq.
    now rewrite insert_insert_eq.
  - erewrite (alter_as_insert _ _ (<[_ := _]> _)) by apply lookup_insert_eq.
    rewrite insert_insert_eq.
    erewrite (alter_as_insert _ _ (<[_ := _]> _)) by apply lookup_insert_eq.
    now rewrite insert_insert_eq.
Qed.

Lemma getPairState_present instId ps w :
  pairState (bot w) !! instId = Some ps ->
  getPairState instId w = (Return ps, w).
Proof.
  intros H. unfold getPairState, mbind, M_bind, get_bot, mret, M_ret.
  now rewrite H, H.
Qed.


(** ** The pipeline of one instrument *)

Lemma recordTrade_eq s price size w :
  exists w', recordTrade s price size w = (Return tt, w')
             /\ pairState (bot w') = pairState (bot w)
             /\ positions (bot w') = positions (bot w)
             /\ clock w' = clock w /\ trace w' = trace w
             /\ (ticks w <= ticks w')%nat.
Proof.
  unfold recordTrade, mbind, M_bind, Date_now, modify_bot.
  rewrite addLog_eq. eexists. split; [reflexivity |]. cbn. repeat split; lia.
Qed.

Lemma logTrade_eq t w :
  exists entry w', logTrade t w = (Return entry, w')
             /\ bot w' = bot w /\ clock w' = clock w /\ trace w' = trace w
             /\ (ticks w <= ticks w')%nat.
Proof.
  unfold logTrade, mbind, M_bind, Date_now, modify_history, mret, M_ret.
  eexists _, _. split; [reflexivity |]. cbn. repeat split; lia.
Qed.

Lemma shouldTrade_side sig lastPos :
  d_shouldTrade (shouldTrade sig lastPos) = true ->
  exists s, d_side (shouldTrade sig lastPos) = Some s.
Proof.
  destruct sig, lastPos as [[|] |]; cbn; intros H; try discriminate; eauto.
Qed.

Lemma pairLastTradeTime_insert b instId lp ltt sg m :
  pairState b = <[instId := Pair.mk lp ltt sg]> m ->
  pairLastTradeTime b instId = ltt /\ pairLastPosition b instId = lp.
Proof.
  intros H. unfold pairLastTradeTime, pairLastPosition.
  now rewrite H, lookup_insert_eq.
Qed.

(** The catch clause: one error entry, a failed result. *)
Lemma executePairTrade_caught instId w (body : M Result.t) e w1 :
  body w = (Throw e, w1) ->
  try_catch body
    (fun err =>
       addLog [Txt "["; Txt instId; Txt "] Error: "; Txt (message err)] error;;
       mret (Result.failed instId [Txt (message err)])) w
  = (Return (Result.failed instId [Txt (message e)]),
     logged (errorEntry (clock w1 (ticks w1)) instId e) w1).
Proof.
  intros H. unfold try_catch. rewrite H.
  unfold mbind, M_bind. now rewrite addLog_eq.
Qed.

Lemma try_catch_return {A} (body : M A) handler w a w1 :
  body w = (Return a, w1) -> try_catch body handler w = (Return a, w1).
Proof. intros H. unfold try_catch. now rewrite H. Qed.

Lemma getTicker_eq ex instId w :
  getTicker ex instId w = (ticker_of ex instId, emitted (GetTicker instId) w).
Proof. reflexivity. Qed.

Lemma getCandles_eq ex instId bar limit w :
  getCandles ex instId bar limit w
  = (candles_of ex instId bar limit, emitted (GetCandles instId bar limit) w).
Proof. reflexivity. Qed.

Lemma placeMarketOrder_eq ex instId side size lev w :
  placeMarketOrder ex instId side size lev w
  = (order_of ex instId side size lev,
     emitted (PlaceMarketOrder instId side size lev) w).
Proof. reflexivity. Qed.

Lemma updateMarketPrice_eq instId price w :
  updateMarketPrice instId price w
  = (Return tt, run (updateMarketPrice instId price) w).
Proof. reflexivity. Qed.

Lemma updateMarketPrice_run instId price w :
  run (updateMarketPrice instId price) w
  = {| bot := set_positions (refreshed instId price <$> positions (bot w))
                (set_marketPrices
                   (<[instId := {| mp_price := price;
                                   mp_timestamp := clock w (ticks w) |}]>
                      (marketPrices (bot w))) (bot w));
       demoMode := demoMode w; tradeHistory := tradeHistory w;
       clock := clock w; ticks := S (ticks w); trace := trace w |}.
Proof. reflexivity. Qed.


(** The paths of [executePairTrade].  It always returns a result for the
    instrument; either no order was submitted and nothing was executed, or
    the order was the last external call and it failed, or it succeeded. *)
Lemma executePairTrade_paths ex instId w :
  exists r w',
    executePairTrade ex instId w = (Return r, w')
    /\ Result.instId r = instId
    /\ clock w' = clock w
    /\ ((* no order submitted *)
        (Result.executed r = false
         /\ exists new, trace w' = new ++ trace w /\ Forall notOrder new)
        \/ (* the order failed *)
        (exists side size lev snapshot new e,
           order_of ex instId side size lev = Throw e
           /\ r = Result.failed instId [Txt (message e)]
           /\ trace w' = {| ev_call := PlaceMarketOrder instId side size lev;
                            ev_store := snapshot |} :: new ++ trace w
           /\ Forall notOrder new
           /\ (exists now, bot w' = bot (logged (errorEntry now instId e)
                                          (with_bot (fun _ => snapshot) w)))
           /\ pairLastTradeTime snapshot instId = pairLastTradeTime (bot w) instId
           /\ pairLastPosition snapshot instId = pairLastPosition (bot w) instId
           /\ (exists tk, ticker_of ex instId = Return tk
                 /\ positions snapshot
                    = refreshed instId (last tk) <$> positions (bot w))
           /\ tradeHistory w' = tradeHistory w
           /\ demoMode w' = demoMode w)
        \/ (* the order succeeded *)
        (exists side size lev snapshot new order tk candles n,
           order_of ex instId side size lev = Return order
           /\ ticker_of ex instId = Return tk
           /\ candles_of ex instId CANDLE_TIMEFRAME CANDLE_LIMIT = Return candles
           /\ Result.executed r = true
           /\ trace w' = {| ev_call := PlaceMarketOrder instId side size lev;
                            ev_store := snapshot |} :: new ++ trace w
           /\ Forall notOrder new
           /\ pairLastTradeTime (bot w') instId = Some (clock w n)
           /\ pairLastPosition (bot w') instId = Some (direction_of side)
           /\ (ticks w <= n < ticks w')%nat)).
Proof.
  unfold executePairTrade.
  destruct (isPairInCooldown_frame instId w) as (inCd & w1 & Hcd & Hw1).
  destruct Hw1 as (Hb1 & Hd1 & Hh1 & Hc1 & Ht1 & Hk1).
  destruct inCd.
  { (* cooldown *)
    destruct (getPairCooldownRemaining_frame instId w1)
      as (n & w2 & Hrem & (Hb2 & Hd2 & Hh2 & Hc2 & Ht2 & Hk2) & _).
    eexists _, _. split.
    { apply try_catch_return. rewrite (bind_return _ _ _ _ _ Hcd).
      rewrite (bind_return _ _ _ _ _ Hrem). reflexivity. }
    cbn. repeat split; [congruence |]. left. split; [reflexivity |].
    exists []. split; [cbn; congruence | constructor]. }
  set (w2 := emitted (GetTicker instId) w1).
  destruct (ticker_of ex instId) as [tk | e] eqn:Htk.
  2: { (* the ticker request fails *)
    eexists _, _. split.
    { apply executePairTrade_caught with (w1 := w2).
      rewrite (bind_return _ _ _ _ _ Hcd).
      apply bind_throw. now rewrite getTicker_eq, Htk. }
    cbn. repeat split; [congruence |]. left. split; [reflexivity |].
    eexists [_]. split; [cbn; rewrite Ht1; reflexivity |].
    repeat constructor. }
  set (w3 := emitted (GetCandles instId CANDLE_TIMEFRAME CANDLE_LIMIT) w2).
  destruct (candles_of ex instId CANDLE_TIMEFRAME CANDLE_LIMIT) as [cs | e] eqn:Hcs.
  2: { (* the candles request fails *)
    eexists _, _. split.
    { apply executePairTrade_caught with (w1 := w3).
      rewrite (bind_return _ _ _ _ _ Hcd).
      rewrite (bind_return _ _ w1 tk w2) by now rewrite getTicker_eq, Htk.
      apply bind_throw. now rewrite getCandles_eq, Hcs. }
    cbn. repeat split; [congruence |]. left. split; [reflexivity |].
    eexists [_; _]. split; [cbn; rewrite Ht1; reflexivity |].
    repeat constructor. }
  set (analysis := analyzeMarket (Some (map close cs))).
  set (w4 := run (updateMarketPrice instId (last tk)) w3).
  set (lp := pairLastPosition (bot w4) instId).
  set (ltt := pairLastTradeTime (bot w4) instId).
  set (ps := Pair.mk lp ltt (Some (a_signal analysis))).
  set (w5 := with_bot (set_pairState (<[instId := ps]> (pairState (bot w4)))) w4).
  assert (Hprefix : forall (k : Ticker -> list Candle -> Pair.t -> M Result.t),
    (inCooldown ← isPairInCooldown instId;
     if inCooldown : bool then
       remaining ← getPairCooldownRemaining instId;
       mret (Result.failed instId [Txt "Cooldown "; Num (inject_Z remaining); Txt "s"])
     else
       ticker ← getTicker ex instId;
       candles ← getCandles ex instId CANDLE_TIMEFRAME CANDLE_LIMIT;
       updateMarketPrice instId (last ticker);;
       setPairSignal instId (a_signal (analyzeMarket (Some (map close candles))));;
       pairState ← getPairState instId;
       k ticker candles pairState) w = k tk cs ps w5).
  { intros k. rewrite (bind_return _ _ _ _ _ Hcd).
    rewrite (bind_return _ _ w1 tk w2) by now rewrite getTicker_eq, Htk.
    rewrite (bind_return _ _ w2 cs w3) by now rewrite getCandles_eq, Hcs.
    rewrite (bind_return _ _ _ _ _ (updateMarketPrice_eq _ _ _)).
    rewrite (bind_return _ _ _ _ _ (setPairSignal_eq _ _ _)).
    rewrite (bind_return _ _ _ ps w5); [reflexivity |].
    apply getPairState_present. apply lookup_insert_eq. }
  (* what the world looks like when the decision is taken *)
  assert (Hps4 : pairState (bot w4) = pairState (bot w)).
  { unfold w4, w3, w2. rewrite updateMarketPrice_run. cbn. now rewrite Hb1. }
  assert (Hlp : lp = pairLastPosition (bot w) instId).
  { unfold lp, pairLastPosition. now rewrite Hps4. }
  assert (Hltt : ltt = pairLastTradeTime (bot w) instId).
  { unfold ltt, pairLastTradeTime. now rewrite Hps4. }
  assert (Hpos5 : positions (bot w5)
                  = refreshed instId (last tk) <$> positions (bot w)).
  { unfold w5, w4, w3, w2. rewrite updateMarketPrice_run. cbn. now rewrite Hb1. }
  assert (Htr5 : trace w5
                 = [ {| ev_call := GetCandles instId CANDLE_TIMEFRAME CANDLE_LIMIT;
                        ev_store := bot w |};
                     {| ev_call := GetTicker instId; ev_store := bot w |} ]
                   ++ trace w).
  { unfold w5, w4, w3, w2. rewrite updateMarketPrice_run. cbn. now rewrite Hb1, Ht1. }
  assert (Hframe5 : clock w5 = clock w /\ demoMode w5 = demoMode w
                    /\ tradeHistory w5 = tradeHistory w
                    /\ (ticks w <= ticks w5)%nat).
  { unfold w5, w4, w3, w2. rewrite updateMarketPrice_run. cbn.
    repeat split; try congruence. lia. }
  destruct Hframe5 as (Hc5 & Hd5 & Hh5 & Hk5).
  assert (Hpair5 : pairState (bot w5) = <[instId := ps]> (pairState (bot w4)))
    by reflexivity.
  clearbody w5. clear Hcd.
  set (decision := shouldTrade (a_signal analysis) (Pair.lastPosition ps)).
  destruct (d_shouldTrade decision) eqn:Hdecide.
  2: { (* no trade *)
    eexists _, _. split.
    { apply try_catch_return. rewrite Hprefix. fold analysis decision.
      rewrite Hdecide. reflexivity. }
    cbn. repeat split; [assumption |]. left. split; [reflexivity |].
    eexists. split; [exact Htr5 | repeat constructor]. }
  destruct (shouldTrade_side _ _ Hdecide) as [side Hside]. fold decision in Hside.
  set (size := tradeSize (tradeConfig (bot w5))).
  set (lev := leverage (tradeConfig (bot w5))).
  set (entry6 := Log.mk (clock w5 (ticks w5))
        [Txt "["; Txt instId; Txt "] "; Txt (Side_upper side); Txt " @ $";
         Num (last tk); Txt " - "; Num size; Txt " USDT @ "; Num lev; Txt "x"] trade).
  set (w6 := logged entry6 w5).
  set (w7 := emitted (PlaceMarketOrder instId side size lev) w6).
  assert (Hpair6 : pairState (bot w6) = <[instId := ps]> (pairState (bot w4))).
  { unfold w6. cbn. exact Hpair5. }
  destruct (pairLastTradeTime_insert _ _ _ _ _ _ Hpair6) as [Hltt6 Hlp6].
  destruct (order_of ex instId side size lev) as [order | e] eqn:Horder.
  2: { (* the order fails *)
    eexists _, _. split.
    { apply executePairTrade_caught with (w1 := w7).
      rewrite Hprefix. fold analysis decision. rewrite Hdecide. cbn [negb].
      rewrite (bind_return _ _ w5 (demoMode w5) w5) by reflexivity.
      rewrite (bind_return _ _ w5 (tradeConfig (bot w5)) w5) by reflexivity.
      rewrite Hside. fold size lev.
      rewrite (bind_return _ _ _ _ _ (addLog_eq _ _ _)). fold entry6 w6.
      apply bind_throw. now rewrite placeMarketOrder_eq, Horder. }
    cbn [fst snd Result.instId Result.failed].
    split; [reflexivity |]. split; [cbn; assumption |].
    right. left.
    exists side, size, lev, (bot w6),
      [ {| ev_call := GetCandles instId CANDLE_TIMEFRAME CANDLE_LIMIT;
           ev_store := bot w |};
        {| ev_call := GetTicker instId; ev_store := bot w |} ], e.
    split; [exact Horder |]. split; [reflexivity |].
    split; [cbn; rewrite Htr5; reflexivity |].
    split; [repeat constructor |].
    split; [eexists; reflexivity |].
    split; [congruence |]. split; [congruence |].
    split; [exists tk; split; [reflexivity | exact Hpos5] |].
    cbn. auto. }
  (* the order succeeds *)
  set (w8 := ticked (with_bot (set_pairState
        (<[instId := Pair.mk (Some (direction_of side)) (Some (clock w7 (ticks w7)))
                             (pairSignal (bot w7) instId)]>
           (pairState (bot w7)))) w7)).
  destruct (recordTrade_eq side (last tk) size w8)
    as (w9 & Hrec & Hps9 & _ & Hc9 & Ht9 & Hk9).
  set (isDemo := demoMode w5).
  set (fill := Fill.mk instId side size (last tk) (Some (o_orderId order))
                 (Some (if isDemo then demo else live)) (Some lev)).
  destruct (addPosition_eq fill w9)
    as (np & w10 & Hadd & _ & _ & _ & _ & _ & _ & _ & Hfr10 & Hk10).
  destruct Hfr10 as (Hps10 & _ & _ & _ & _ & _ & _ & _ & _ & _ & _ & Hc10 & Ht10).
  set (tradeInfo := Trade.mk (if isDemo then demo else live) instId side (last tk)
                      size lev (a_signal analysis) (a_fastMA analysis)
                      (a_slowMA analysis) (o_orderId order) (d_reason decision)).
  destruct (logTrade_eq tradeInfo w10) as (te & w11 & Hlog & Hb11 & Hc11 & Ht11 & Hk11).
  eexists _, _. split.
  { apply try_catch_return.
    rewrite Hprefix. fold analysis decision. rewrite Hdecide. cbn [negb].
    rewrite (bind_return _ _ w5 (demoMode w5) w5) by reflexivity.
    rewrite (bind_return _ _ w5 (tradeConfig (bot w5)) w5) by reflexivity.
    rewrite Hside. fold size lev isDemo.
    rewrite (bind_return _ _ _ _ _ (addLog_eq _ _ _)). fold entry6 w6.
    rewrite (bind_return _ _ w6 order w7) by now rewrite placeMarketOrder_eq, Horder.
    rewrite (bind_return _ _ _ _ _ (updatePairState_eq _ _ _)). fold w8.
    rewrite (bind_return _ _ _ _ _ Hrec).
    fold fill. rewrite (bind_return _ _ _ _ _ Hadd).
    fold tradeInfo. rewrite (bind_return _ _ _ _ _ Hlog).
    rewrite (bind_return _ _ _ _ _ (addLog_eq _ _ _)).
    reflexivity. }
  cbn [fst snd Result.instId].
  split; [reflexivity |].
  split; [cbn; rewrite Hc11, Hc10, Hc9; exact Hc5 |].
  right. right.
  exists side, size, lev, (bot w6),
    [ {| ev_call := GetCandles instId CANDLE_TIMEFRAME CANDLE_LIMIT;
         ev_store := bot w |};
      {| ev_call := GetTicker instId; ev_store := bot w |} ],
    order, tk, cs, (ticks w7).
  split; [exact Horder |]. split; [reflexivity |]. split; [reflexivity |].
  split; [reflexivity |].
  split; [cbn; rewrite Ht11, Ht10, Ht9; cbn; rewrite Htr5; reflexivity |].
  split; [repeat constructor |].
  assert (Hfinal : pairState (bot (logged
             (Log.mk (clock w11 (ticks w11))
                [Txt "["; Txt instId; Txt "] Order filled! "; Txt (o_orderId order);
                 Txt (if simulated order then " (SIM)" else "")] trade) w11))
           = pairState (bot w8)).
  { cbn. rewrite Hb11, Hps10, Hps9. reflexivity. }
  unfold pairLastTradeTime, pairLastPosition. rewrite Hfinal.
  unfold w8. cbn. rewrite lookup_insert_eq. cbn.
  split; [now rewrite Hc5 |]. split; [reflexivity |].
  cbn in Hk9. lia.
Qed.


(** C2 (as amended).  Take an invocation of [executePairTrade] whose last
    external call is an order submission that the exchange rejects with
    error [e].  Then the invocation returns normally, with
    [executed = false] and the message of [e] as reason; the store is the
    one the order was submitted from plus one [error] log entry, so the
    pair's [lastTradeTime] and [lastPosition], the positions and the trade
    history are untouched by the failed order.  Compared with the start of
    the invocation, [lastTradeTime] and [lastPosition] of the instrument are
    unchanged, and the positions differ only by [updateMarketPrice]: the
    positions of the instrument carry the ticker price as [currentPrice]. *)
Theorem failed_order_keeps_state (ex : Exchange) (instId : string) (w : World)
    (side : Side) (size lev : Q) (snapshot : BotState) (earlier : list Event)
    (e : Exn) :
  let w' := run (executePairTrade ex instId) w in
  trace w' = {| ev_call := PlaceMarketOrder instId side size lev;
                ev_store := snapshot |} :: earlier ++ trace w ->
  order_of ex instId side size lev = Throw e ->
  outcome (executePairTrade ex instId) w
  = Return (Result.failed instId [Txt (message e)])
  /\ (exists now,
        bot w' = set_logs (take (maxLogs snapshot)
                             (errorEntry now instId e :: logs snapshot)) snapshot)
  /\ pairLastTradeTime (bot w') instId = pairLastTradeTime snapshot instId
  /\ pairLastPosition (bot w') instId = pairLastPosition snapshot instId
  /\ positions (bot w') = positions snapshot
  /\ pairLastTradeTime (bot w') instId = pairLastTradeTime (bot w) instId
  /\ pairLastPosition (bot w') instId = pairLastPosition (bot w) instId
  /\ (exists tk, ticker_of ex instId = Return tk
        /\ positions (bot w')
           = refreshed instId (last tk) <$> positions (bot w))
  /\ tradeHistory w' = tradeHistory w.
Proof.
  intros w' Htrace Horder.
  destruct (executePairTrade_paths ex instId w)
    as (r & w1 & Heq & Hinst & Hclock & Hpath).
  assert (Hw' : w' = w1) by (unfold w', run; now rewrite Heq).
  unfold outcome. rewrite Heq. cbn [fst]. rewrite Hw' in *. clear Hw' w'.
  destruct Hpath as [(_ & new & Hnew & Hno)
                    | [(side' & size' & lev' & snap' & new & e' & Hord' & Hr & Htr
                        & _ & (now & Hbot) & Hltt & Hlp & Hpos & Hhist & _)
                      | (side' & size' & lev' & snap' & new & order & tk & cs & n
                         & Hord' & _ & _ & _ & Htr & _)]].
  - (* no order was submitted: the trace cannot end with one *)
    exfalso. rewrite Hnew in Htrace.
    change (new ++ trace w
            = ({| ev_call := PlaceMarketOrder instId side size lev;
                  ev_store := snapshot |} :: earlier) ++ trace w) in Htrace.
    apply app_inv_tail in Htrace. subst new.
    apply Forall_cons in Hno as [Hno _]. exact Hno.
  - rewrite Htr in Htrace. injection Htrace as <- <- <- <- _.
    rewrite Hord' in Horder. injection Horder as <-.
    assert (Hbot' : bot w1
              = set_logs (take (maxLogs snap')
                            (errorEntry now instId e' :: logs snap')) snap')
      by (rewrite Hbot; reflexivity).
    split; [now rewrite Hr |].
    split; [now exists now |].
    rewrite Hbot'. cbn.
    destruct Hpos as (tk & Htk & Hpos).
    repeat split; try assumption; try reflexivity.
    exists tk. split; assumption.
  - exfalso. rewrite Htr in Htrace. injection Htrace as <- <- <- <- _.
    rewrite Hord' in Horder. discriminate.
Qed.


Lemma Qlt_bool_iff a b : Qlt_bool a b = true <-> a < b.
Proof.
  unfold Qlt_bool. rewrite negb_true_iff, <- not_true_iff_false, Qle_bool_iff.
  split; [apply Qnot_le_lt | apply Qlt_not_le].
Qed.

(** Less than [ms] milliseconds is less than [ms / 1000] seconds. *)
Lemma elapsed_seconds (ms : Z) (window : Q) (limit : Z) :
  window == inject_Z limit -> (ms < 1000 * limit)%Z ->
  inject_Z ms / 1000 < window.
Proof.
  intros Hw Hms. rewrite Hw.
  apply Qlt_shift_div_r; [reflexivity |].
  change 1000 with (inject_Z 1000).
  rewrite <- inject_Z_mult. rewrite <- Zlt_Qlt. lia.
Qed.

Lemma getPairCooldownRemaining_eq instId w :
  getPairCooldownRemaining instId w
  = match truthy_lastTradeTime (bot w) instId with
    | None => (Return 0%Z, w)
    | Some t =>
        (Return (Z.max 0 (Math_round (pairCooldownSeconds (bot w)
                   - inject_Z (clock w (ticks w) - t) / 1000))),
         ticked w)
    end.
Proof.
  unfold getPairCooldownRemaining, mbind, M_bind, get_bot.
  now destruct (truthy_lastTradeTime (bot w) instId).
Qed.

Lemma Math_round_comp (x y : Q) : x == y -> Math_round x = Math_round y.
Proof. intros H. unfold Math_round. now rewrite H. Qed.

(** The cooldown branch of [executePairTrade]: the check reads the clock
    once, the computation of the remaining time reads it again. *)
Lemma executePairTrade_cooldown ex instId w t :
  truthy_lastTradeTime (bot w) instId = Some t ->
  inject_Z (clock w (ticks w) - t) / 1000 < pairCooldownSeconds (bot w) ->
  exists remaining w',
    executePairTrade ex instId w
    = (Return (Result.failed instId
                 [Txt "Cooldown "; Num (inject_Z remaining); Txt "s"]), w')
    /\ remaining
       = Z.max 0 (Math_round (pairCooldownSeconds (bot w)
                              - inject_Z (clock w (S (ticks w)) - t) / 1000))
    /\ (0 <= remaining)%Z
    /\ bot w' = bot w /\ trace w' = trace w
    /\ tradeHistory w' = tradeHistory w.
Proof.
  intros Ht Hlt. unfold executePairTrade.
  assert (Hcd : isPairInCooldown instId w = (Return true, ticked w)).
  { rewrite isPairInCooldown_eq, Ht. f_equal. f_equal. now apply Qlt_bool_iff. }
  assert (Hrem : getPairCooldownRemaining instId (ticked w)
                 = (Return (Z.max 0 (Math_round (pairCooldownSeconds (bot w)
                              - inject_Z (clock w (S (ticks w)) - t) / 1000))),
                    ticked (ticked w))).
  { rewrite getPairCooldownRemaining_eq.
    change (bot (ticked w)) with (bot w). rewrite Ht. reflexivity. }
  eexists _, _. split.
  { apply try_catch_return. rewrite (bind_return _ _ _ _ _ Hcd).
    rewrite (bind_return _ _ _ _ _ Hrem). reflexivity. }
  split; [reflexivity |]. split; [lia |]. cbn. auto.
Qed.

(** C5.  Let an invocation of the pipeline for [instId] complete a trade.
    It stores a reading [t] of the clock, taken during the invocation, as
    the pair's [lastTradeTime].  Then, in any later world where the pair
    still has this [lastTradeTime] and the per-pair cooldown is 30 seconds,
    an invocation whose cooldown check reads the clock less than 30000 ms
    after [t] returns [executed = false] with the reason
    [`Cooldown ${remaining}s`], issues no external call (no ticker, candles
    or order request) and leaves the store as it was.  The number in the
    reason is the remaining cooldown in whole seconds,
    [Math.max(0, Math.round(30 - elapsed / 1000))], where [elapsed] is the
    time in ms from [t] to the second reading of the clock, the one that
    [getPairCooldownRemaining] takes after the check.  The clock is assumed
    never to read 0, the one time that JavaScript treats as "no trade
    yet". *)
Theorem cooldown_blocks_next_trade (ex1 ex2 : Exchange) (instId : string)
    (w0 w2 : World) (r : Result.t) :
  outcome (executePairTrade ex1 instId) w0 = Return r ->
  Result.executed r = true ->
  (forall n, clock w0 n <> 0%Z) ->
  let w1 := run (executePairTrade ex1 instId) w0 in
  exists t,
    pairLastTradeTime (bot w1) instId = Some t
    /\ (exists n, (ticks w0 <= n < ticks w1)%nat /\ t = clock w0 n)
    /\ (pairLastTradeTime (bot w2) instId = Some t ->
        pairCooldownSeconds (bot w2) == 30 ->
        (clock w2 (ticks w2) - t < 30000)%Z ->
        exists remaining,
          outcome (executePairTrade ex2 instId) w2
          = Return (Result.failed instId
                      [Txt "Cooldown "; Num (inject_Z remaining); Txt "s"])
          /\ remaining
             = Z.max 0 (Math_round
                          (30 - inject_Z (clock w2 (S (ticks w2)) - t) / 1000))
          /\ (0 <= remaining)%Z
          /\ trace (run (executePairTrade ex2 instId) w2) = trace w2
          /\ bot (run (executePairTrade ex2 instId) w2) = bot w2).
Proof.
  intros Hout Hexec Hclock w1.
  destruct (executePairTrade_paths ex1 instId w0)
    as (r' & w1' & Heq & _ & _ & Hpath).
  assert (Hw1 : w1 = w1') by (unfold w1, run; now rewrite Heq).
  unfold outcome in Hout. rewrite Heq in Hout. injection Hout as ->.
  rewrite Hw1. clear Hw1 w1.
  destruct Hpath as [(Hno & _)
                    | [(? & ? & ? & ? & ? & ? & _ & Hr & _)
                      | (side & size & lev & snap & new & order & tk & cs & n
                         & _ & _ & _ & _ & _ & _ & Hltt & _ & Hn)]].
  - congruence.
  - rewrite Hr in Hexec. discriminate.
  - exists (clock w0 n). split; [exact Hltt |].
    split; [now exists n |].
    intros Hsame Hwindow Hsoon.
    assert (Htruthy : truthy_lastTradeTime (bot w2) instId = Some (clock w0 n)).
    { unfold pairLastTradeTime in Hsame. unfold truthy_lastTradeTime.
      destruct (pairState (bot w2) !! instId) as [ps |]; [| discriminate].
      cbn in Hsame. rewrite Hsame.
      destruct (Z.eqb_spec (clock w0 n) 0) as [H0 | _]; [| reflexivity].
      now apply Hclock in H0. }
    destruct (executePairTrade_cooldown ex2 instId w2 _ Htruthy)
      as (remaining & w3 & Heq2 & Hval & Hrem & Hb & Ht & _).
    { now apply (elapsed_seconds _ _ 30). }
    exists remaining. unfold outcome, run. rewrite Heq2. cbn [fst snd].
    split; [reflexivity |].
    split; [| auto].
    rewrite Hval. f_equal. apply Math_round_comp. now rewrite Hwindow.
Qed.

(** ** The cycle *)

Lemma setSignal_returns s w : exists w', setSignal s w = (Return tt, w').
Proof.
  unfold setSignal, mbind, M_bind, get_bot, modify_bot, mret, M_ret.
  destruct (negb _); [rewrite addLog_eq |]; eexists; reflexivity.
Qed.

Lemma executePairTrade_sound ex instId w :
  exists r w', executePairTrade ex instId w = (Return r, w')
               /\ Result.instId r = instId /\ resultSound ex r.
Proof.
  destruct (executePairTrade_paths ex instId w)
    as (r & w' & Heq & Hinst & _ & Hpath).
  exists r, w'. repeat split; try assumption.
  unfold resultSound. rewrite Hinst.
  destruct Hpath as [(Hno & _)
                    | [(? & ? & ? & ? & ? & ? & _ & Hr & _)
                      | (side & size & lev & snap & new & order & tk & cs & n
                         & Hord & Htk & Hcs & _)]].
  - auto.
  - intros _. now rewrite Hr.
  - intros [[e He] | [[e He] | Hall]]; exfalso.
    + congruence.
    + congruence.
    + destruct (Hall side size lev) as [e He]. congruence.
Qed.

Lemma setSignal_frame s w :
  exists w', setSignal s w = (Return tt, w')
             /\ trace w' = trace w
             /\ positions (bot w') = positions (bot w)
             /\ pairState (bot w') = pairState (bot w)
             /\ tradeHistory w' = tradeHistory w.
Proof.
  unfold setSignal, mbind, M_bind, get_bot, modify_bot, mret, M_ret.
  destruct (negb _); [rewrite addLog_eq |]; eexists; repeat split; reflexivity.
Qed.

Lemma cycleLoop_results ex pairs : forall results count w,
  exists new count' w',
    cycleLoop ex pairs results count w = (Return (results ++ new, count'), w')
    /\ Result.instId <$> new = pairs
    /\ Forall (resultSound ex) new
    /\ count' = (count + length (List.filter Result.executed new))%nat
    /\ Return <$> new = fst (pipelines ex pairs w)
    /\ w' = snd (pipelines ex pairs w).
Proof.
  induction pairs as [| instId rest IH]; intros results count w.
  - exists [], count, w. cbn. rewrite app_nil_r. repeat split; auto.
  - destruct (executePairTrade_sound ex instId w) as (r & w1 & Heq & Hinst & Hsound).
    set (count1 := if Result.executed r then S count else count).
    destruct (IH (results ++ [r]) count1 w1)
      as (new & count' & w' & Hloop & Hids & Hall & Hcount & Hpipes & Hlast).
    exists (r :: new), count', w'. split.
    { cbn [cycleLoop].
      rewrite (bind_return _ _ w (results ++ [r], count1) w1).
      - rewrite Hloop. now rewrite <- app_assoc.
      - apply try_catch_return. rewrite (bind_return _ _ _ _ _ Heq).
        reflexivity. }
    split; [cbn; now rewrite Hinst, Hids |].
    split; [now constructor |].
    split.
    { rewrite Hcount. unfold count1. cbn. destruct (Result.executed r); cbn; lia. }
    cbn [pipelines]. unfold run, outcome. rewrite Heq. cbn [fst snd].
    destruct (pipelines ex rest w1) as [rs wl]. cbn [fst snd] in *.
    split; [cbn; now rewrite Hpipes | exact Hlast].
Qed.

(** C6.  With credentials configured, [executeTradingCycle] returns a
    report (it does not throw) whose [trades] hold exactly one result for
    each instrument of [TRADING_PAIRS], in that order, whatever the
    exchange answers; [tradesExecuted] counts the executed ones; and a
    result is [executed = false] whenever a call of its instrument's
    pipeline is bound to fail.  Every instrument is evaluated: the results
    are exactly what [executePairTrade] returns for BTC-USDT, ETH-USDT,
    SOL-USDT, XRP-USDT, DOGE-USDT and ADA-USDT, run in this order, the
    first in the world left by the scan notice and each next one in the
    world that the one before it left, whether that one failed or not; and
    the external calls, the positions, the pair states and the trade
    history after the cycle are those that these six runs leave. *)
Theorem cycle_reports_every_pair (ex : Exchange) (w : World) :
  configured ex = true ->
  exists report w',
    executeTradingCycle ex w = (Return report, w')
    /\ Result.instId <$> trades report = TRADING_PAIRS
    /\ length (trades report) = 6%nat
    /\ totalPairs report = Some 6%nat
    /\ tradesExecuted report
       = Some (length (List.filter Result.executed (trades report)))
    /\ (forall r, r ∈ trades report ->
         someCallFails ex (Result.instId r) -> Result.executed r = false)
    /\ (let scanned :=
          run (addLog [Txt "Scanning "; Num 6; Txt " pairs..."] info) w in
        let after := snd (pipelines ex TRADING_PAIRS scanned) in
        Return <$> trades report = fst (pipelines ex TRADING_PAIRS scanned)
        /\ trace w' = trace after
        /\ positions (bot w') = positions (bot after)
        /\ pairState (bot w') = pairState (bot after)
        /\ tradeHistory w' = tradeHistory after).
Proof.
  intros Hconf. unfold executeTradingCycle.
  set (w1 := logged (Log.mk (clock w (ticks w))
                [Txt "Scanning "; Num (inject_Z (Z.of_nat (length TRADING_PAIRS)));
                 Txt " pairs..."] info) w).
  destruct (cycleLoop_results ex TRADING_PAIRS [] 0%nat w1)
    as (results & count & w2 & Hloop & Hids & Hall & Hcount & Hpipes & Hlast).
  cbn [app] in Hloop.
  set (w3 := logged (Log.mk (clock w2 (ticks w2))
                [Txt "Cycle complete: "; Num (inject_Z (Z.of_nat count)); Txt "/";
                 Num (inject_Z (Z.of_nat (length TRADING_PAIRS)));
                 Txt " trades executed"] info) w2).
  assert (Hsignal : exists w4,
    (if (0 <? length results)%nat then
       match List.find (fun r => String.eqb (Result.instId r) "BTC-USDT") results with
       | Some btcResult =>
           match Result.signal btcResult with
           | Some s => setSignal s
           | None => mret tt
           end
       | None => mret tt
       end
     else mret tt) w3 = (Return tt, w4)
    /\ trace w4 = trace w3 /\ positions (bot w4) = positions (bot w3)
    /\ pairState (bot w4) = pairState (bot w3)
    /\ tradeHistory w4 = tradeHistory w3).
  { destruct (0 <? length results)%nat; [| eexists; repeat split; reflexivity].
    destruct (List.find _ results) as [btc |];
      [| eexists; repeat split; reflexivity].
    destruct (Result.signal btc);
      [apply setSignal_frame | eexists; repeat split; reflexivity]. }
  destruct Hsignal as (w4 & Hsignal & Ht4 & Hp4 & Hs4 & Hh4).
  eexists _, w4. split.
  { apply try_catch_return.
    rewrite (bind_return _ _ _ _ _ (addLog_eq _ _ _)). fold w1.
    rewrite (bind_return _ _ w1 (configured ex) w1) by reflexivity.
    rewrite Hconf. cbn [negb].
    rewrite (bind_return _ _ _ _ _ Hloop).
    rewrite (bind_return _ _ _ _ _ (addLog_eq _ _ _)). fold w3.
    rewrite (bind_return _ _ _ _ _ Hsignal).
    reflexivity. }
  cbn [trades totalPairs tradesExecuted].
  split; [exact Hids |].
  split; [rewrite <- (length_fmap Result.instId), Hids; reflexivity |].
  split; [reflexivity |].
  split; [now rewrite Hcount |].
  split; [intros r Hr; rewrite Forall_forall in Hall; now apply Hall |].
  cbn zeta.
  assert (Hscan : run (addLog [Txt "Scanning "; Num 6; Txt " pairs..."] info) w = w1).
  { unfold run. now rewrite addLog_eq. }
  rewrite Hscan, <- Hlast.
  split; [exact Hpipes |].
  rewrite Ht4, Hp4, Hs4, Hh4. repeat split.
Qed.


(** ** Settings *)

(** What the handler passes for a margin: [setTradeConfig] finds neither
    [tradeSize] nor [leverage] in it and does nothing. *)
Lemma setTradeConfig_margin_only (v : JsValue) (w : World) :
  setTradeConfig (Update.mk v JUndefined JUndefined) w
  = (Return (tradeConfig (bot w)), w).
Proof. reflexivity. Qed.

(** Called with a [tradeSize], [setTradeConfig] stores a positive one. *)
Lemma setTradeConfig_tradeSize (n : Q) (lev : JsValue) (w : World) :
  0 < n ->
  lev = JUndefined ->
  tradeSize (tradeConfig (bot (run (setTradeConfig (Update.mk JUndefined (JNumber n) lev)) w)))
  = n.
Proof.
  intros Hn ->. apply Qlt_bool_iff in Hn.
  unfold run, setTradeConfig, mbind, M_bind, modify_bot, mret, M_ret. cbn -[addLog].
  rewrite Hn. cbn -[addLog]. rewrite addLog_eq. reflexivity.
Qed.

(** A numeric leverage is stored clamped. *)
Lemma setTradeConfig_leverage (n : Q) (w : World) :
  leverage (tradeConfig (bot (run (setTradeConfig
             (Update.mk JUndefined JUndefined (JNumber n))) w)))
  = Math_min (Math_max 1 n) (maxLeverage (tradeConfig (bot w)))
  /\ tradeSize (tradeConfig (bot (run (setTradeConfig
             (Update.mk JUndefined JUndefined (JNumber n))) w)))
     = tradeSize (tradeConfig (bot w)).
Proof.
  unfold run, setTradeConfig, mbind, M_bind, modify_bot, get_bot, mret, M_ret.
  cbn -[addLog]. rewrite addLog_eq. split; reflexivity.
Qed.

Lemma clamp_bounds (n hi : Q) :
  1 <= hi -> 1 <= Math_min (Math_max 1 n) hi /\ Math_min (Math_max 1 n) hi <= hi.
Proof.
  intros Hhi. unfold Math_min, Math_max.
  destruct (Qle_bool 1 n) eqn:H1.
  - apply Qle_bool_iff in H1.
    destruct (Qle_bool n hi) eqn:H2.
    + apply Qle_bool_iff in H2. auto.
    + split; [assumption | apply Qle_refl].
  - destruct (Qle_bool 1 hi) eqn:H2.
    + split; [apply Qle_refl | assumption].
    + split; [assumption | apply Qle_refl].
Qed.

(** The handler never changes the stored trade size, whatever the body. *)
Lemma POST_keeps_tradeSize (request : Outcome Json) (w : World) :
  tradeSize (tradeConfig (bot (run (POST request) w)))
  = tradeSize (tradeConfig (bot w)).
Proof.
  unfold run, POST, try_catch.
  destruct request as [[| body] | e]; try reflexivity.
  rewrite (bind_return _ _ w (JsonValue body) w) by reflexivity.
  assert (Hdemo : exists w1,
    (match Body.demoMode body with
     | JBool enabled =>
         setDemoMode enabled;;
         addLog [Txt "Demo mode "; Txt (if enabled then "enabled" else "disabled")]
                info
     | _ => mret tt
     end) w = (Return tt, w1)
    /\ tradeConfig (bot w1) = tradeConfig (bot w)).
  { destruct (Body.demoMode body); try (eexists; split; reflexivity).
    eexists. split.
    - unfold mbind, M_bind, setDemoMode. apply addLog_eq.
    - reflexivity. }
  destruct Hdemo as (w1 & Hdemo & Hcfg1).
  rewrite (bind_return _ _ _ _ _ Hdemo).
  assert (Hmargin :
    (match nullish (Body.margin body) (Body.tradeSize body) with
     | JNumber _ =>
         setTradeConfig (Update.mk (nullish (Body.margin body) (Body.tradeSize body))
                                   JUndefined JUndefined);; mret tt
     | _ => mret tt
     end) w1 = (Return tt, w1)).
  { destruct (nullish _ _); reflexivity. }
  rewrite (bind_return _ _ _ _ _ Hmargin).
  assert (Hlev : exists w2,
    (match Body.leverage body with
     | JNumber _ =>
         setTradeConfig (Update.mk JUndefined JUndefined (Body.leverage body));;
         mret tt
     | _ => mret tt
     end) w1 = (Return tt, w2)
    /\ tradeSize (tradeConfig (bot w2)) = tradeSize (tradeConfig (bot w1))).
  { destruct (Body.leverage body) as [| | b | n | s |];
      try (eexists; split; reflexivity).
    pose proof (setTradeConfig_leverage n w1) as [_ Hts]. unfold run in Hts.
    destruct (setTradeConfig (Update.mk JUndefined JUndefined (JNumber n)) w1)
      as [[cfg | e] w2] eqn:Hset.
    - exists w2. split; [| exact Hts].
      now rewrite (bind_return _ _ _ _ _ Hset).
    - exfalso. revert Hset.
      unfold setTradeConfig, mbind, M_bind, modify_bot, get_bot, mret, M_ret,
        saveConfig, emit, getTradeConfig.
      cbn -[addLog]. rewrite addLog_eq. discriminate. }
  destruct Hlev as (w2 & Hlev & Hts2).
  rewrite (bind_return _ _ _ _ _ Hlev).
  rewrite (bind_return _ _ w2 (demoMode w2) w2) by reflexivity.
  rewrite (bind_return _ _ w2 (tradeConfig (bot w2)) w2) by reflexivity.
  cbn. now rewrite Hts2, Hcfg1.
Qed.

(** C9, the failing inputs.  The handler receives [{ "margin": 50 }] while
    the stored trade size is 10: it answers 200 with the configuration it
    had, and nothing in the world has changed; the stored size is still 10,
    although 50 is a positive number.  With the body of the README,
    [{ "demoMode": true, "tradeSize": 100, "leverage": 10 }], the leverage
    becomes 10 and the stored size is still 10. *)
Theorem POST_margin_not_stored :
  POST (Return marginBody) world0
  = (Return {| status := 200; r_success := true; r_demoMode := Some true;
               r_tradeConfig := Some defaultConfig; r_error := None |},
     world0)
  /\ tradeSize (tradeConfig (bot (run (POST (Return marginBody)) world0))) = 10
  /\ tradeSize (tradeConfig (bot (run (POST (Return readmeBody)) world0))) = 10
  /\ leverage (tradeConfig (bot (run (POST (Return readmeBody)) world0))) = 10.
Proof. repeat split; vm_compute; reflexivity. Qed.


(** ** Examples *)

(** The log of [world0] after 101 appends holds the last 100, newest
    first. *)
Example log_drops_oldest :
  let w := run (appendAll (map (fun n => ([Num (inject_Z (Z.of_nat n))], info))
                               (seq 0 101))) world0 in
  length (logs (bot w)) = 100%nat
  /\ Log.message <$> head (logs (bot w)) = Some [Num 100]
  /\ Log.message <$> logs (bot w) !! 99%nat = Some [Num 1].
Proof. vm_compute. repeat split. Qed.

(** Section 8 of the specification: ten prices of 1 followed by thirteen
    prices of 2 give BUY. *)
Example step_change_is_BUY :
  a_signal (analyzeMarket (Some (repeat 1 10 ++ repeat 2 13))) = BUY.
Proof. vm_compute. reflexivity. Qed.

(** Rounding is for display only: both averages are reported as 100 and
    the signal is still BUY. *)
Example rounding_does_not_decide :
  let a := analyzeMarket (Some (repeat 100 22 ++ [100 + (1 # 100)])) in
  a_signal a = BUY
  /\ (exists f s, a_fastMA a = Some f /\ a_slowMA a = Some s /\ f == 100 /\ s == 100).
Proof.
  vm_compute. split; [reflexivity |]. eexists _, _. repeat split; reflexivity.
Qed.

(** A buy fill followed by a sell fill on the same instrument leaves the
    short position only. *)
Example flip_long_to_short :
  let w := run (applyOps
      [OpAddPosition (Fill.mk "BTC-USDT" buy 10 100 (Some "a") (Some demo) (Some 1));
       OpAddPosition (Fill.mk "BTC-USDT" sell 10 110 (Some "b") (Some demo) (Some 1))])
    world0 in
  map (fun p => (Pos.id p, Pos.side p)) (positions (bot w)) = [("b", sell)].
Proof. vm_compute. reflexivity. Qed.


(** ** Instances of the theorems *)

Lemma one_position_per_instrument_witness :
  positions (bot world0) = []
  /\ noBothSides (positions (bot (run (applyOps opsExample) world0)))
  /\ atMostOnePerPair (positions (bot (run (applyOps opsExample) world0))).
Proof.
  split; [reflexivity |].
  pose proof (one_position_per_instrument world0 opsExample eq_refl) as H.
  cbv zeta in H. destruct H as (H1 & H2 & _). split; assumption.
Defined.

Lemma same_side_fills_merge_witness :
  exists p,
    List.filter (onPair "BTC-USDT" buy)
      (positions (bot (run
         (addPosition (Fill.mk "BTC-USDT" buy 10 100 (Some "a") (Some demo) (Some 1));;
          addPosition (Fill.mk "BTC-USDT" buy 10 200 (Some "b") (Some demo) (Some 1)))
         world0)))
    = [p]
    /\ Pos.size p == 20 /\ Pos.entryPrice p == 150.
Proof.
  destruct (same_side_fills_merge world0
              (Fill.mk "BTC-USDT" buy 10 100 (Some "a") (Some demo) (Some 1))
              (Fill.mk "BTC-USDT" buy 10 200 (Some "b") (Some demo) (Some 1)))
    as (p & Hp & Hsize & Hentry & _).
  - reflexivity.
  - reflexivity.
  - reflexivity.
  - reflexivity.
  - intros q Hq. cbn in Hq. inversion Hq.
  - exists p. split; [exact Hp |]. rewrite Hsize, Hentry. split; reflexivity.
Defined.

Lemma closePosition_unknown_id_witness :
  closePosition "ord-9" worldLong = (Return None, worldLong).
Proof.
  apply (closePosition_unknown_id worldLong "ord-9").
  intros p Hp. cbn in Hp. apply list_elem_of_singleton in Hp. subst p.
  cbn. discriminate.
Defined.

Lemma fmap_Return_inj {A} (l1 l2 : list A) :
  Return <$> l1 = Return <$> l2 -> l1 = l2.
Proof.
  revert l2. induction l1 as [| x l1 IH]; intros [| y l2] H; try discriminate.
  - reflexivity.
  - cbn in H. injection H as -> H. f_equal. now apply IH.
Qed.

Lemma cycle_reports_every_pair_witness :
  exists report,
    outcome (executeTradingCycle exOneDown) world0 = Return report
    /\ Result.instId <$> trades report = TRADING_PAIRS
    /\ Result.executed <$> trades report = [true; false; true; true; true; true]
    /\ Result.reason <$> trades report
       = [None; Some [Txt "Network error for ETH-USDT"]; None; None; None; None].
Proof.
  destruct (cycle_reports_every_pair exOneDown world0 eq_refl)
    as (report & w' & Heq & Hids & _ & _ & _ & _ & Hpipes & _).
  exists report. unfold outcome. rewrite Heq.
  split; [reflexivity |]. split; [exact Hids |].
  set (results := fst (pipelines exOneDown TRADING_PAIRS _)) in Hpipes.
  assert (Hresults : results
                     = Return <$> omap (fun o => match o with
                                                 | Return r => Some r
                                                 | Throw _ => None
                                                 end) results)
    by (vm_compute; reflexivity).
  rewrite Hresults in Hpipes. apply fmap_Return_inj in Hpipes.
  rewrite Hpipes. vm_compute. split; reflexivity.
Defined.

Lemma cooldown_blocks_next_trade_witness :
  let w1 := run (executePairTrade exAccept "BTC-USDT") world0 in
  outcome (executePairTrade exAccept "BTC-USDT") w1
  = Return (Result.failed "BTC-USDT" [Txt "Cooldown "; Num 30; Txt "s"])
  /\ trace (run (executePairTrade exAccept "BTC-USDT") w1) = trace w1.
Proof.
  intros w1.
  destruct (cooldown_blocks_next_trade exAccept exAccept "BTC-USDT" world0 w1
              (Result.mk "BTC-USDT" true None None (Some demo) (Some buy)
                 (Some 123) (Some "ord-1")))
    as (t & Ht & _ & Hnext).
  - vm_compute. reflexivity.
  - reflexivity.
  - intros n. cbn. lia.
  - assert (Hval : t = 1700000000002%Z).
    { fold w1 in Ht. vm_compute in Ht. congruence. }
    destruct Hnext as (remaining & Hout & Hrem & _ & Htrace & _).
    + exact Ht.
    + reflexivity.
    + rewrite Hval. vm_compute. reflexivity.
    + split; [| exact Htrace].
      rewrite Hout, Hrem, Hval. vm_compute. reflexivity.
Defined.

(** C2, the claim as worded fails: [worldLong] holds a BTC-USDT position
    with [currentPrice] 100; the ticker says 90, the signal is SELL, the
    order is rejected, and the position now carries [currentPrice] 90. *)
Lemma failed_order_refreshes_currentPrice :
  ~ (forall (ex : Exchange) (instId : string) (w : World) (side : Side)
            (size lev : Q) (snapshot : BotState) (earlier : list Event) (e : Exn),
       let w' := run (executePairTrade ex instId) w in
       trace w' = {| ev_call := PlaceMarketOrder instId side size lev;
                     ev_store := snapshot |} :: earlier ++ trace w ->
       order_of ex instId side size lev = Throw e ->
       positions (bot w') = positions (bot w)).
Proof.
  intros H.
  set (w' := run (executePairTrade exReject "BTC-USDT") worldLong).
  specialize (H exReject "BTC-USDT" worldLong sell 10 1
                (default (bot worldLong) (ev_store <$> head (trace w')))
                (take 2 (tail (trace w')))
                {| message := "Order failed: rejected" |}).
  cbv zeta in H. fold w' in H.
  assert (Hpos : positions (bot w') = positions (bot worldLong)).
  { apply H; vm_compute; reflexivity. }
  vm_compute in Hpos. discriminate Hpos.
Qed.

Lemma failed_order_keeps_state_witness :
  outcome (executePairTrade exReject "BTC-USDT") worldLong
  = Return (Result.failed "BTC-USDT" [Txt "Order failed: rejected"])
  /\ pairLastTradeTime (bot (run (executePairTrade exReject "BTC-USDT") worldLong))
       "BTC-USDT"
     = pairLastTradeTime (bot worldLong) "BTC-USDT"
  /\ pairLastPosition (bot (run (executePairTrade exReject "BTC-USDT") worldLong))
       "BTC-USDT"
     = pairLastPosition (bot worldLong) "BTC-USDT".
Proof.
  set (w' := run (executePairTrade exReject "BTC-USDT") worldLong).
  pose proof (failed_order_keeps_state exReject "BTC-USDT" worldLong sell 10 1
                (default (bot worldLong) (ev_store <$> head (trace w')))
                (take 2 (tail (trace w')))
                {| message := "Order failed: rejected" |}) as H.
  cbv zeta in H. fold w' in H.
  destruct H as (Hout & _ & _ & _ & _ & Hltt & Hlp & _).
  - vm_compute. reflexivity.
  - reflexivity.
  - repeat split; assumption.
Defined.


(** * Further properties *)

(** ** The positions collection *)




Lemma closePosition_found w positionId i pos :
  findIndex (fun p => String.eqb (Pos.id p) positionId) (positions (bot w)) = Some i ->
  positions (bot w) !! i = Some pos ->
  closePosition positionId w
  = (Return (Some pos),
     logged (Log.mk (clock w (ticks w))
               [Txt "Position manually closed: "; Txt (Side_upper (Pos.side pos));
                Txt " "; Txt (Pos.instId pos)] trade)
       (with_bot (set_positions (delete i (positions (bot w)))) w)).
Proof.
  intros Hfind Hpos.
  unfold closePosition, mbind, M_bind, get_bot, modify_bot, mret, M_ret.
  rewrite Hfind, Hpos, addLog_eq. reflexivity.
Qed.

Lemma findIndex_exists {A} (f : A -> bool) (l : list A) x :
  x ∈ l -> f x = true -> exists i, findIndex f l = Some i.
Proof.
  intros Hx Hfx. destruct (findIndex f l) as [i |] eqn:H; [eauto |].
  rewrite (proj1 (findIndex_None f l) H x Hx) in Hfx. discriminate.
Qed.

(** X3.  When some open position has the given id, [closePosition]
    returns the first such position, removes exactly that element (the
    others keep their order), and puts one [trade] entry at the head of the
    log.  The pair states are not touched. *)
Theorem closePosition_removes_first (w : World) (positionId : string) :
  (exists p, p ∈ positions (bot w) /\ Pos.id p = positionId) ->
  let w' := run (closePosition positionId) w in
  exists i pos,
    positions (bot w) !! i = Some pos
    /\ Pos.id pos = positionId
    /\ (forall j q, (j < i)%nat -> positions (bot w) !! j = Some q ->
                    Pos.id q <> positionId)
    /\ outcome (closePosition positionId) w = Return (Some pos)
    /\ positions (bot w') = delete i (positions (bot w))
    /\ S (length (positions (bot w'))) = length (positions (bot w))
    /\ logs (bot w')
       = take (maxLogs (bot w))
           (Log.mk (clock w (ticks w))
              [Txt "Position manually closed: "; Txt (Side_upper (Pos.side pos));
               Txt " "; Txt (Pos.instId pos)] trade :: logs (bot w))
    /\ pairState (bot w') = pairState (bot w).
Proof.
  intros (p & Hp & Hid) w'.
  destruct (findIndex_exists (fun q => String.eqb (Pos.id q) positionId) _ p Hp)
    as [i Hfind]; [now apply String.eqb_eq |].
  destruct (findIndex_Some _ _ _ Hfind) as (pos & Hpos & Hmatch & Hfirst).
  exists i, pos. unfold w', outcome, run.
  rewrite (closePosition_found w positionId i pos Hfind Hpos). cbn -[take].
  apply String.eqb_eq in Hmatch.
  repeat split; try assumption; try reflexivity.
  - intros j q Hj Hq. apply String.eqb_neq. now apply (Hfirst j).
  - rewrite length_delete by eauto.
    apply lookup_lt_Some in Hpos. lia.
Qed.

Lemma clearPositions_eq w :
  clearPositions w
  = (Return tt,
     logged (Log.mk (clock w (ticks w)) [Txt "All positions cleared"] info)
       (with_bot (set_positions []) w)).
Proof.
  unfold clearPositions, mbind, M_bind, modify_bot. now rewrite addLog_eq.
Qed.

(** X4.  Closing positions by hand does not re-arm the strategy: neither
    [closePosition] nor [clearPositions] changes a pair's [lastPosition]
    or [lastTradeTime], so [shouldTrade] decides as before and the
    cooldown keeps running. *)
Theorem manual_close_keeps_pair_state (w : World) (positionId instId : string)
    (sig : Signal) :
  let w1 := run (closePosition positionId) w in
  let w2 := run clearPositions w in
  pairState (bot w1) = pairState (bot w)
  /\ pairState (bot w2) = pairState (bot w)
  /\ positions (bot w2) = []
  /\ shouldTrade sig (pairLastPosition (bot w1) instId)
     = shouldTrade sig (pairLastPosition (bot w) instId)
  /\ shouldTrade sig (pairLastPosition (bot w2) instId)
     = shouldTrade sig (pairLastPosition (bot w) instId)
  /\ truthy_lastTradeTime (bot w1) instId = truthy_lastTradeTime (bot w) instId
  /\ truthy_lastTradeTime (bot w2) instId = truthy_lastTradeTime (bot w) instId.
Proof.
  intros w1 w2.
  assert (H1 : pairState (bot w1) = pairState (bot w)).
  { unfold w1, run.
    destruct (findIndex (fun p => String.eqb (Pos.id p) positionId)
                (positions (bot w))) as [i |] eqn:Hfind.
    - destruct (findIndex_Some _ _ _ Hfind) as (pos & Hpos & _).
      now rewrite (closePosition_found w positionId i pos Hfind Hpos).
    - unfold closePosition, mbind, M_bind, get_bot. now rewrite Hfind. }
  assert (H2 : pairState (bot w2) = pairState (bot w)
               /\ positions (bot w2) = []).
  { unfold w2, run. rewrite clearPositions_eq. split; reflexivity. }
  destruct H2 as [H2 H3].
  unfold pairLastPosition, truthy_lastTradeTime. rewrite H1, H2.
  repeat split; assumption.
Qed.


Lemma positionId_truthy o w :
  o <> "" -> positionId (Some o) w = (Return o, w).
Proof.
  intros Ho. unfold positionId, truthy_str.
  apply String.eqb_neq in Ho. now rewrite Ho.
Qed.

(** [addPosition] on an instrument without position: the new position is
    pushed under the order id. *)
Lemma addPosition_fresh fill o w :
  Fill.orderId fill = Some o -> o <> "" ->
  (forall q, q ∈ positions (bot w) -> Pos.instId q <> Fill.instId fill) ->
  let np := Pos.mk o (Fill.instId fill) (Fill.side fill) (Fill.size fill)
              (leverageOrOne (Fill.leverage fill)) (Fill.price fill)
              (Fill.price fill) (clock w (ticks w)) (Some o)
              (default live (Fill.mode fill)) in
  addPosition fill w
  = (Return np,
     logged (Log.mk (clock w (S (ticks w)))
               [Txt "Position opened: "; Txt (Side_upper (Fill.side fill));
                Txt " "; Num (Fill.size fill); Txt " ";
                Txt (Fill.instId fill); Txt " @ $"; Num (Fill.price fill)] trade)
       (with_bot (set_positions (positions (bot w) ++ [np])) (ticked w))).
Proof.
  intros Ho Hne Hfresh np.
  assert (Hopp : findIndex (isOpposite fill) (positions (bot w)) = None).
  { apply findIndex_None. intros q Hq. apply not_true_iff_false.
    rewrite isOpposite_spec. intros [Hi _]. now apply (Hfresh q). }
  assert (Hsame : findIndex (isSameSide fill) (positions (bot w)) = None).
  { apply findIndex_None. intros q Hq. apply not_true_iff_false.
    rewrite isSameSide_spec. intros [Hi _]. now apply (Hfresh q). }
  unfold addPosition. rewrite Ho.
  rewrite (bind_return _ _ _ _ _ (positionId_truthy o w Hne)).
  rewrite (bind_return _ _ w (clock w (ticks w)) (ticked w)) by reflexivity.
  rewrite (bind_return _ _ (ticked w) (bot w) (ticked w)) by reflexivity.
  rewrite Hopp.
  rewrite (bind_return _ _ (ticked w) tt (ticked w)) by reflexivity.
  rewrite (bind_return _ _ (ticked w) (bot w) (ticked w)) by reflexivity.
  rewrite Hsame.
  unfold mbind at 1, M_bind at 1.
  unfold mbind at 1, M_bind at 1. unfold modify_bot at 1.
  rewrite addLog_eq. reflexivity.
Qed.

(** X5.  Opening and closing cancel out.  On an instrument without open
    position, [addPosition] with a non-empty order id that no open position
    uses pushes the position it returns, under that id; [closePosition] with
    the id then returns this very position and the collection is again what
    it was before the two calls. *)
Theorem addPosition_then_closePosition (w : World) (fill : Fill.t) (o : string) :
  Fill.orderId fill = Some o -> o <> "" ->
  (forall q, q ∈ positions (bot w) -> Pos.instId q <> Fill.instId fill) ->
  (forall q, q ∈ positions (bot w) -> Pos.id q <> o) ->
  let w1 := run (addPosition fill) w in
  exists newPosition,
    outcome (addPosition fill) w = Return newPosition
    /\ Pos.id newPosition = o
    /\ positions (bot w1) = positions (bot w) ++ [newPosition]
    /\ outcome (closePosition o) w1 = Return (Some newPosition)
    /\ positions (bot (run (closePosition o) w1)) = positions (bot w).
Proof.
  intros Ho Hne Hfresh Hid w1.
  pose proof (addPosition_fresh fill o w Ho Hne Hfresh) as Hadd. cbv zeta in Hadd.
  set (np := Pos.mk o _ _ _ _ _ _ _ _ _) in Hadd.
  exists np. unfold w1, outcome, run. rewrite Hadd. cbn [fst snd].
  split; [reflexivity |]. split; [reflexivity |]. split; [reflexivity |].
  set (w' := logged _ _).
  assert (Hps : positions (bot w') = positions (bot w) ++ [np]) by reflexivity.
  assert (Hfind : findIndex (fun p => String.eqb (Pos.id p) o) (positions (bot w'))
                  = Some (length (positions (bot w)))).
  { rewrite Hps, findIndex_app_last.
    assert (Hnone : findIndex (fun p => String.eqb (Pos.id p) o) (positions (bot w))
                    = None).
    { apply findIndex_None. intros q Hq. apply String.eqb_neq. now apply Hid. }
    rewrite Hnone. cbn. now rewrite String.eqb_refl. }
  assert (Hpos : positions (bot w') !! length (positions (bot w)) = Some np).
  { rewrite Hps, lookup_app_r by lia. now rewrite Nat.sub_diag. }
  rewrite (closePosition_found w' o _ np Hfind Hpos). cbn [fst snd].
  split; [reflexivity |].
  cbn. rewrite ?Hps.
  rewrite (delete_middle (positions (bot w)) [] np). apply app_nil_r.
Qed.

(** ** Merging and sizes *)

(** X6.  A fill on the side of an existing position changes that position
    only.  In a state where no two positions share an instrument, the
    position stays at its index with its id, instrument, side,
    [currentPrice], timestamp, order id and mode; its size becomes the sum
    of the two sizes, its entry price
    [(entryPrice * size + price * fillSize) / (size + fillSize)], and its
    leverage that of the fill (1 when the fill has none, or 0).  No position is
    added or removed and every other position is left as it is.  What
    [addPosition] returns is the object built for the fill alone, with the
    size and the price of the fill, not the merged position. *)
Theorem same_side_fill_changes_one_position (w : World) (fill : Fill.t)
    (i : nat) (p : Pos.t) :
  distinctInstruments (positions (bot w)) ->
  positions (bot w) !! i = Some p ->
  isSameSide fill p = true ->
  let w' := run (addPosition fill) w in
  exists p' returned,
    outcome (addPosition fill) w = Return returned
    /\ positions (bot w') !! i = Some p'
    /\ length (positions (bot w')) = length (positions (bot w))
    /\ (forall j, j <> i -> positions (bot w') !! j = positions (bot w) !! j)
    /\ Pos.id p' = Pos.id p /\ Pos.instId p' = Pos.instId p
    /\ Pos.side p' = Pos.side p /\ Pos.currentPrice p' = Pos.currentPrice p
    /\ Pos.timestamp p' = Pos.timestamp p /\ Pos.orderId p' = Pos.orderId p
    /\ Pos.mode p' = Pos.mode p
    /\ Pos.size p' = Pos.size p + Fill.size fill
    /\ Pos.entryPrice p'
       = (Pos.entryPrice p * Pos.size p + Fill.price fill * Fill.size fill)
         / (Pos.size p + Fill.size fill)
    /\ Pos.leverage p' = leverageOrOne (Fill.leverage fill)
    /\ Pos.size returned = Fill.size fill
    /\ Pos.entryPrice returned = Fill.price fill.
Proof.
  intros Hnd Hi Hsame w'.
  destruct (addPosition_eq fill w)
    as (np & w1 & Heq & Hps & _ & _ & Hsz & Hen & _).
  unfold w', outcome, run. rewrite Heq. cbn [fst snd]. rewrite Hps.
  rewrite (positionsAfterAdd_merge fill np _ i p Hnd Hi Hsame).
  eexists _, np. split; [reflexivity |].
  split; [apply list_lookup_insert_eq; now apply lookup_lt_Some in Hi |].
  split; [apply length_insert |].
  split; [intros j Hj; apply list_lookup_insert_ne; congruence |].
  cbn. repeat split; assumption.
Qed.

Lemma positionsAfterAdd_positive fill np l :
  0 < Fill.size fill ->
  positiveSize np ->
  Forall positiveSize l ->
  Forall positiveSize (positionsAfterAdd fill np l).
Proof.
  intros Hs Hnp Hall. unfold positionsAfterAdd.
  set (l1 := match findIndex (isOpposite fill) l with
             | Some i => delete i l | None => l end).
  assert (Hall1 : Forall positiveSize l1).
  { unfold l1. destruct (findIndex _ l); [| exact Hall].
    eapply Forall_forall. intros q Hq. rewrite Forall_forall in Hall.
    apply Hall. eapply elem_of_sublist; [exact Hq | apply sublist_delete]. }
  destruct (findIndex (isSameSide fill) l1) as [j |] eqn:Hsame.
  - destruct (l1 !! j) as [existing |] eqn:Hex; [| exact Hall1].
    apply Forall_insert; [exact Hall1 |].
    assert (Hpos : positiveSize existing).
    { rewrite Forall_forall in Hall1. apply Hall1.
      apply list_elem_of_lookup. eauto. }
    unfold positiveSize in *. cbn. lra.
  - apply Forall_app. split; [exact Hall1 |]. now constructor.
Qed.

Lemma applyOp_positive op w :
  positiveSizeOp op ->
  Forall positiveSize (positions (bot w)) ->
  Forall positiveSize (positions (bot (run (applyOp op) w))).
Proof.
  intros Hop Hall. destruct op as [fill | pid | | inst price]; unfold run;
    cbn [applyOp].
  - destruct (addPosition_eq fill w)
      as (np & w' & Heq & Hps & _ & _ & Hsz & _).
    unfold mbind, M_bind. rewrite Heq. cbn. rewrite Hps.
    apply positionsAfterAdd_positive; try assumption.
    unfold positiveSize. now rewrite Hsz.
  - destruct (closePosition_positions pid w) as (r & w' & Heq & Hps).
    unfold mbind, M_bind. rewrite Heq. cbn.
    destruct Hps as [-> | [i ->]]; [exact Hall |].
    eapply Forall_forall. intros q Hq. rewrite Forall_forall in Hall.
    apply Hall. eapply elem_of_sublist; [exact Hq | apply sublist_delete].
  - rewrite clearPositions_eq. cbn. constructor.
  - change (Forall positiveSize
              (positions (bot (run (updateMarketPrice inst price) w)))).
    rewrite updateMarketPrice_run. cbn.
    apply Forall_fmap. eapply Forall_impl; [exact Hall |].
    intros q Hq. unfold compose, refreshed, positiveSize.
    destruct (String.eqb (Pos.instId q) inst); cbn; assumption.
Qed.

(** X7.  Sizes stay positive.  Starting from an empty collection, after
    any sequence of [addPosition], [closePosition], [clearPositions] and
    [updateMarketPrice] in which every fill has a positive size, every open
    position has a positive size: a position is opened with the size of
    its fill and a merge only adds the size of a fill to it. *)
Theorem position_sizes_stay_positive (w : World) (ops : list StoreOp) :
  positions (bot w) = [] ->
  Forall positiveSizeOp ops ->
  Forall positiveSize (positions (bot (run (applyOps ops) w))).
Proof.
  intros Hempty Hops.
  assert (Hstart : Forall positiveSize (positions (bot w)))
    by (rewrite Hempty; constructor).
  clear Hempty. revert w Hstart.
  induction Hops as [| op rest Hop Hrest IH]; intros w Hstart; [exact Hstart |].
  assert (Hd : exists w1, applyOp op w = (Return tt, w1)).
  { destruct op as [fill | pid | | inst price]; cbn [applyOp].
    - destruct (addPosition_eq fill w) as (np & w' & Heq & _).
      eexists. unfold mbind, M_bind. now rewrite Heq.
    - destruct (closePosition_positions pid w) as (r & w' & Heq & _).
      eexists. unfold mbind, M_bind. now rewrite Heq.
    - eexists. apply clearPositions_eq.
    - eexists. reflexivity. }
  destruct Hd as [w1 Hw1].
  pose proof (applyOp_positive op w Hop Hstart) as Hpos1.
  unfold run in *. cbn [applyOps]. unfold mbind, M_bind. rewrite Hw1 in *.
  now apply IH.
Qed.


(** ** Pair state and cooldown *)

(** X8.  For an instrument whose name is not an inherited property name
    of the plain object [pairState], [setPairSignal] stores the signal of
    the pair and nothing else: the pair's [lastPosition] and
    [lastTradeTime] (hence its cooldown) are kept, a missing entry is
    created with both [null], the entry of every other such instrument is
    untouched, and neither the positions, the log nor the clock are
    used. *)
Theorem setPairSignal_keeps_cooldown (instId : string) (s : Signal) (w : World) :
  plainKey instId ->
  let w' := run (setPairSignal instId s) w in
  outcome (setPairSignal instId s) w = Return tt
  /\ pairSignal (bot w') instId = Some s
  /\ pairLastPosition (bot w') instId = pairLastPosition (bot w) instId
  /\ pairLastTradeTime (bot w') instId = pairLastTradeTime (bot w) instId
  /\ truthy_lastTradeTime (bot w') instId = truthy_lastTradeTime (bot w) instId
  /\ (forall other, plainKey other -> other <> instId ->
        pairState (bot w') !! other = pairState (bot w) !! other)
  /\ positions (bot w') = positions (bot w)
  /\ logs (bot w') = logs (bot w)
  /\ ticks w' = ticks w.
Proof.
  intros _ w'. unfold w', outcome, run. rewrite setPairSignal_eq. cbn.
  unfold pairSignal, pairLastPosition, pairLastTradeTime, truthy_lastTradeTime.
  cbn. rewrite lookup_insert_eq. cbn.
  repeat split; try reflexivity.
  - destruct (pairState (bot w) !! instId) as [ps |]; reflexivity.
  - intros other _ Hne. now rewrite lookup_insert_ne.
Qed.

(** X9.  For an instrument whose name is not an inherited property name
    of the plain object [pairState], [updatePairState(instId, side)] starts
    the pair's cooldown at the clock reading it takes and records the
    direction ([long] for a buy, [short] for a sell); the pair's signal is
    kept and the entry of every other such instrument, in particular its
    cooldown, is untouched. *)
Theorem updatePairState_is_local (instId : string) (side : Side) (w : World) :
  plainKey instId ->
  let w' := run (updatePairState instId side) w in
  outcome (updatePairState instId side) w = Return tt
  /\ pairLastPosition (bot w') instId = Some (direction_of side)
  /\ pairLastTradeTime (bot w') instId = Some (clock w (ticks w))
  /\ pairSignal (bot w') instId = pairSignal (bot w) instId
  /\ (forall other, plainKey other -> other <> instId ->
        pairState (bot w') !! other = pairState (bot w) !! other
        /\ truthy_lastTradeTime (bot w') other = truthy_lastTradeTime (bot w) other)
  /\ positions (bot w') = positions (bot w)
  /\ ticks w' = S (ticks w).
Proof.
  intros _ w'. unfold w', outcome, run. rewrite updatePairState_eq. cbn.
  unfold pairSignal, pairLastPosition, pairLastTradeTime, truthy_lastTradeTime.
  cbn. rewrite lookup_insert_eq. cbn.
  repeat split; try reflexivity.
  - now rewrite lookup_insert_ne.
  - now rewrite lookup_insert_ne.
Qed.

(** X10.  No two trades in the same direction in a row: when [shouldTrade]
    allows a trade for a signal and [updatePairState] has recorded its
    side, [shouldTrade] refuses the same signal for that pair, whatever the
    time elapsed, and allows the opposite signal. *)
Theorem same_signal_refused_after_trade (instId : string) (sig : Signal)
    (lastPos : option Direction) (side : Side) (w : World) :
  d_shouldTrade (shouldTrade sig lastPos) = true ->
  d_side (shouldTrade sig lastPos) = Some side ->
  let w' := run (updatePairState instId side) w in
  d_shouldTrade (shouldTrade sig (pairLastPosition (bot w') instId)) = false
  /\ (forall other, other <> sig -> other <> WAIT ->
        d_shouldTrade (shouldTrade other (pairLastPosition (bot w') instId)) = true).
Proof.
  intros Hgo Hside w'.
  assert (Hlp : pairLastPosition (bot w') instId = Some (direction_of side)).
  { unfold w', run. rewrite updatePairState_eq. cbn.
    unfold pairLastPosition. cbn. now rewrite lookup_insert_eq. }
  rewrite Hlp. clear Hlp w'.
  destruct sig, lastPos as [[|] |]; cbn in Hgo, Hside; try discriminate;
    injection Hside as <-; cbn; (split; [reflexivity |]);
    intros [] H1 H2; try reflexivity; congruence.
Qed.

Lemma getPairState_missing instId w :
  pairState (bot w) !! instId = None ->
  getPairState instId w
  = (Return (Pair.mk None None (Some WAIT)),
     with_bot (fun b => set_pairState
                 (<[instId := Pair.mk None None (Some WAIT)]> (pairState b)) b) w).
Proof.
  intros H. unfold getPairState, mbind, M_bind, get_bot, modify_bot, mret, M_ret,
    with_bot, run.
  rewrite H. cbn. now rewrite lookup_insert_eq.
Qed.

(** X11.  For an instrument whose name is not an inherited property name
    of the plain object [pairState], [getPairState] creates the entry of
    the pair on first use, with [lastPosition] and [lastTradeTime] [null]
    and signal [WAIT], and returns an existing entry without changing
    anything.  Either way a second call returns the same entry and changes
    nothing, and the entries of the other such instruments are
    untouched. *)
Theorem getPairState_lazy (instId : string) (w : World) :
  plainKey instId ->
  let w' := run (getPairState instId) w in
  (forall ps, pairState (bot w) !! instId = Some ps ->
     getPairState instId w = (Return ps, w))
  /\ (pairState (bot w) !! instId = None ->
      outcome (getPairState instId) w = Return (Pair.mk None None (Some WAIT)))
  /\ (exists ps, getPairState instId w = (Return ps, w')
                 /\ pairState (bot w') !! instId = Some ps
                 /\ getPairState instId w' = (Return ps, w'))
  /\ (forall other, plainKey other -> other <> instId ->
        pairState (bot w') !! other = pairState (bot w) !! other).
Proof.
  intros _ w'. unfold w', outcome, run.
  split; [intros ps Hps; now apply getPairState_present |].
  destruct (pairState (bot w) !! instId) as [ps |] eqn:Hps.
  - rewrite (getPairState_present instId ps w Hps). cbn.
    split; [discriminate |].
    split; [| reflexivity].
    exists ps. repeat split; try assumption. now apply getPairState_present.
  - rewrite (getPairState_missing instId w Hps). cbn.
    split; [reflexivity |].
    split.
    + eexists. split; [reflexivity |]. split; [apply lookup_insert_eq |].
      apply getPairState_present. cbn. apply lookup_insert_eq.
    + intros other _ Hne. now rewrite lookup_insert_ne.
Qed.

Lemma Math_round_le (x : Q) (n : Z) : x <= inject_Z n -> (Math_round x <= n)%Z.
Proof.
  intros H. unfold Math_round.
  pose proof (Qfloor_le (x + (1 # 2))) as Hfl.
  assert (Hlt : inject_Z (Qfloor (x + (1 # 2))) < inject_Z (n + 1)).
  { rewrite inject_Z_plus. change (inject_Z 1) with 1. lra. }
  rewrite <- Zlt_Qlt in Hlt. lia.
Qed.

Lemma elapsed_ge (ms : Z) (limit : Z) :
  (1000 * limit <= ms)%Z -> inject_Z limit <= inject_Z ms / 1000.
Proof.
  intros H. apply Qle_shift_div_l; [reflexivity |].
  change 1000 with (inject_Z 1000). rewrite <- inject_Z_mult, <- Zle_Qle. lia.
Qed.

Lemma elapsed_nonneg (ms : Z) : (0 <= ms)%Z -> 0 <= inject_Z ms / 1000.
Proof. intros H. apply (elapsed_ge ms 0). lia. Qed.

(** X12.  The per-pair cooldown lasts exactly its window.  For a pair
    whose last trade was at a non-zero time [t], with a window of 30
    seconds, [isPairInCooldown] answers [true] exactly when the clock it
    reads is less than 30000 ms after [t].  [getPairCooldownRemaining] is
    never negative, is 0 without a last trade and once 30000 ms have
    passed, and is at most 30 when the clock is not before [t]. *)
Theorem pair_cooldown_window (instId : string) (w : World) :
  (truthy_lastTradeTime (bot w) instId = None ->
   isPairInCooldown instId w = (Return false, w)
   /\ getPairCooldownRemaining instId w = (Return 0%Z, w))
  /\ (forall t, truthy_lastTradeTime (bot w) instId = Some t ->
        pairCooldownSeconds (bot w) == 30 ->
        outcome (isPairInCooldown instId) w
        = Return (clock w (ticks w) - t <? 30000)%Z
        /\ exists n,
             outcome (getPairCooldownRemaining instId) w = Return n
             /\ (0 <= n)%Z
             /\ ((t <= clock w (ticks w))%Z -> (n <= 30)%Z)
             /\ ((30000 <= clock w (ticks w) - t)%Z -> n = 0%Z)).
Proof.
  split.
  - intros Hnone. now rewrite isPairInCooldown_eq, getPairCooldownRemaining_eq, Hnone.
  - intros t Ht Hwin. split.
    + unfold outcome. rewrite isPairInCooldown_eq, Ht. cbn [fst]. f_equal.
      destruct (Z.ltb_spec (clock w (ticks w) - t) 30000) as [Hlt | Hge].
      * apply Qlt_bool_iff. now apply (elapsed_seconds _ _ 30).
      * apply not_true_iff_false. rewrite Qlt_bool_iff. apply Qle_not_lt.
        rewrite Hwin. apply (elapsed_ge _ 30). lia.
    + unfold outcome. rewrite getPairCooldownRemaining_eq, Ht. cbn [fst].
      eexists. split; [reflexivity |].
      split; [lia |]. split.
      * intros Hafter. apply Z.max_lub; [lia |].
        apply Math_round_le. rewrite Hwin.
        assert (H0 : 0 <= inject_Z (clock w (ticks w) - t) / 1000)
          by (apply elapsed_nonneg; lia).
        set (el := inject_Z (clock w (ticks w) - t) / 1000) in *.
        change (inject_Z 30) with 30. lra.
      * intros Hover.
        assert (Hle : (Math_round (pairCooldownSeconds (bot w)
                          - inject_Z (clock w (ticks w) - t) / 1000) <= 0)%Z).
        { apply Math_round_le. rewrite Hwin.
          assert (H30 : inject_Z 30 <= inject_Z (clock w (ticks w) - t) / 1000)
            by (apply elapsed_ge; lia).
          set (el := inject_Z (clock w (ticks w) - t) / 1000) in *.
          change (inject_Z 30) with 30 in H30. change (inject_Z 0) with 0.
          lra. }
        lia.
Qed.


(** ** Configuration *)

(** What [setTradeConfig] decides to store. *)
Lemma setTradeConfig_eq (config : Update.t) (w : World) :
  let old := tradeConfig (bot w) in
  let size' := match Update.tradeSize config with
               | JNumber n => if Qlt_bool 0 n then n else tradeSize old
               | _ => tradeSize old
               end in
  let lev' := match Update.leverage config with
              | JNumber m => Math_min (Math_max 1 m) (maxLeverage old)
              | _ => leverage old
              end in
  let changed := match Update.tradeSize config, Update.leverage config with
                 | _, JNumber _ => true
                 | JNumber n, _ => Qlt_bool 0 n
                 | _, _ => false
                 end in
  let cfg := {| tradeSize := size'; leverage := lev';
                maxLeverage := maxLeverage old |} in
  exists w',
    setTradeConfig config w = (Return (tradeConfig (bot w')), w')
    /\ (changed = false -> w' = w)
    /\ (changed = true ->
        tradeConfig (bot w') = cfg
        /\ trace w' = {| ev_call := SaveConfig cfg; ev_store := bot w' |} :: trace w)
    /\ positions (bot w') = positions (bot w)
    /\ pairState (bot w') = pairState (bot w)
    /\ demoMode w' = demoMode w.
Proof.
  cbv zeta.
  unfold setTradeConfig, mbind, M_bind, modify_bot, get_bot, mret, M_ret,
    saveConfig, emit, getTradeConfig.
  destruct (Update.tradeSize config) as [| | b | n | s |];
    destruct (Update.leverage config) as [| | b' | m | s' |];
    try destruct (Qlt_bool 0 n) eqn:Hn;
    cbn -[addLog]; rewrite ?addLog_eq; cbn -[addLog]; rewrite ?addLog_eq;
    cbn; eexists; (split; [reflexivity |]); cbn;
    repeat split; try reflexivity; try discriminate.
Qed.

(** X13.  Whatever number is passed as leverage, [setTradeConfig] stores a
    leverage between 1 and [maxLeverage] (when [maxLeverage] is at least 1,
    as the 125 of [loadConfig]): the number itself when it is in range, 1
    below the range, [maxLeverage] above it.  [maxLeverage] never changes,
    and the configuration handed to [saveConfig] is the one stored and
    returned. *)
Theorem setTradeConfig_clamps_leverage (config : Update.t) (m : Q) (w : World) :
  Update.leverage config = JNumber m ->
  1 <= maxLeverage (tradeConfig (bot w)) ->
  let w' := run (setTradeConfig config) w in
  let stored := tradeConfig (bot w') in
  outcome (setTradeConfig config) w = Return stored
  /\ 1 <= leverage stored
  /\ leverage stored <= maxLeverage stored
  /\ (1 <= m -> m <= maxLeverage (tradeConfig (bot w)) -> leverage stored = m)
  /\ (m < 1 -> leverage stored = 1)
  /\ (maxLeverage (tradeConfig (bot w)) < m ->
      leverage stored = maxLeverage (tradeConfig (bot w)))
  /\ maxLeverage stored = maxLeverage (tradeConfig (bot w))
  /\ (exists st, head (trace w') = Some {| ev_call := SaveConfig stored; ev_store := st |}).
Proof.
  intros Hlev Hmax w' stored.
  pose proof (setTradeConfig_eq config w) as H. cbv zeta in H.
  rewrite Hlev in H. destruct H as (w1 & Heq & _ & Hch & _).
  assert (Hchanged : match Update.tradeSize config with
                     | JNumber _ | _ => true end = true)
    by (destruct (Update.tradeSize config); reflexivity).
  destruct (Hch Hchanged) as [Hcfg Htrace]. clear Hch Hchanged.
  assert (Hw : w' = w1) by (unfold w', run; now rewrite Heq).
  unfold stored, outcome. rewrite Heq. rewrite Hw. cbn [fst].
  split; [reflexivity |].
  rewrite Hcfg. cbn [leverage maxLeverage].
  destruct (clamp_bounds m _ Hmax) as [Hlo Hhi].
  split; [exact Hlo |]. split; [exact Hhi |].
  split.
  { intros H1 H2. unfold Math_min, Math_max.
    apply Qle_bool_iff in H1, H2. now rewrite H1, H2. }
  split.
  { intros H1. unfold Math_min, Math_max.
    assert (Hf : Qle_bool 1 m = false).
    { apply not_true_iff_false. rewrite Qle_bool_iff. now apply Qlt_not_le. }
    rewrite Hf. apply Qle_bool_iff in Hmax. now rewrite Hmax. }
  split.
  { intros H1. unfold Math_min, Math_max.
    assert (H1m : Qle_bool 1 m = true) by (apply Qle_bool_iff; lra).
    assert (Hf : Qle_bool m (maxLeverage (tradeConfig (bot w))) = false).
    { apply not_true_iff_false. rewrite Qle_bool_iff. now apply Qlt_not_le. }
    now rewrite H1m, Hf. }
  split; [reflexivity |].
  rewrite Htrace. cbn. rewrite ?Hcfg. eexists. reflexivity.
Qed.

(** X14.  [setTradeConfig] stores a trade size exactly when it is a
    positive number.  A positive number under the key [tradeSize] is
    stored (and saved); a call whose [tradeSize] is absent, not a number or
    not positive, and whose [leverage] is not a number, changes nothing at
    all: nothing is stored, logged or saved. *)
Theorem setTradeConfig_size_iff_positive (config : Update.t) (w : World) :
  (forall n, Update.tradeSize config = JNumber n -> 0 < n ->
     tradeSize (tradeConfig (bot (run (setTradeConfig config) w))) = n
     /\ exists cfg st,
          head (trace (run (setTradeConfig config) w))
          = Some {| ev_call := SaveConfig cfg; ev_store := st |}
          /\ tradeSize cfg = n)
  /\ ((forall n, Update.tradeSize config = JNumber n -> n <= 0) ->
      (forall m, Update.leverage config <> JNumber m) ->
      setTradeConfig config w = (Return (tradeConfig (bot w)), w))
  /\ ((forall n, Update.tradeSize config = JNumber n -> n <= 0) ->
      tradeSize (tradeConfig (bot (run (setTradeConfig config) w)))
      = tradeSize (tradeConfig (bot w))).
Proof.
  pose proof (setTradeConfig_eq config w) as H. cbv zeta in H.
  destruct H as (w1 & Heq & Hsame & Hch & _).
  unfold run. rewrite Heq. cbn [snd].
  split; [| split].
  - intros n Hsize Hpos. rewrite Hsize in Hch.
    apply Qlt_bool_iff in Hpos. rewrite Hpos in Hch.
    destruct Hch as [Hcfg Htrace].
    { now destruct (Update.leverage config). }
    rewrite Hcfg. cbn. split; [reflexivity |].
    rewrite Htrace. eexists _, _. split; reflexivity.
  - intros Hbad Hlev.
    assert (Hw : w1 = w).
    { apply Hsame.
      destruct (Update.leverage config) as [| | b | m | s |] eqn:Hl;
        try (now destruct (Hlev m));
        destruct (Update.tradeSize config) as [| | b' | n | s' |] eqn:Hs;
        try reflexivity;
        apply not_true_iff_false; rewrite Qlt_bool_iff;
        apply Qle_not_lt; now apply Hbad. }
    now rewrite Hw.
  - intros Hbad.
    destruct (Update.leverage config) as [| | b | m | s |] eqn:Hl;
      destruct (Update.tradeSize config) as [| | b' | n | s' |] eqn:Hs;
      try (rewrite Hsame by reflexivity; reflexivity);
      try (destruct Hch as [-> _]; reflexivity).
    all: assert (Hn : Qlt_bool 0 n = false)
      by (apply not_true_iff_false; rewrite Qlt_bool_iff;
          apply Qle_not_lt; now apply Hbad).
    all: rewrite Hn in *.
    all: try (rewrite Hsame by reflexivity; reflexivity).
    destruct Hch as [-> _]; reflexivity.
Qed.


(** ** Signal and global cooldown *)

Lemma set_currentSignal_same b :
  set_currentSignal (currentSignal b) b = b.
Proof. now destruct b. Qed.

Lemma Signal_eqb_eq a b : Signal_eqb a b = true <-> a = b.
Proof. destruct a, b; cbn; split; congruence. Qed.

(** X15.  [setSignal] logs changes only.  With the signal already
    current it changes nothing at all; with another signal it stores it and
    puts one [signal] entry naming the old and the new signal at the head of
    the log. *)
Theorem setSignal_logs_changes_only (s : Signal) (w : World) :
  (currentSignal (bot w) = s -> setSignal s w = (Return tt, w))
  /\ (currentSignal (bot w) <> s ->
      let w' := run (setSignal s) w in
      outcome (setSignal s) w = Return tt
      /\ currentSignal (bot w') = s
      /\ logs (bot w')
         = take (maxLogs (bot w))
             (Log.mk (clock w (ticks w))
                [Txt "Signal changed: "; Txt (Signal_text (currentSignal (bot w)));
                 Txt " → "; Txt (Signal_text s)] signal :: logs (bot w))
      /\ positions (bot w') = positions (bot w)
      /\ pairState (bot w') = pairState (bot w)).
Proof.
  split.
  - intros <-. unfold setSignal, mbind, M_bind, get_bot, modify_bot, mret, M_ret.
    assert (Heq : Signal_eqb (currentSignal (bot w)) (currentSignal (bot w)) = true)
      by now apply Signal_eqb_eq.
    rewrite Heq. cbn. rewrite set_currentSignal_same. now destruct w.
  - intros Hne w'.
    assert (Heq : Signal_eqb (currentSignal (bot w)) s = false).
    { apply not_true_iff_false. now rewrite Signal_eqb_eq. }
    unfold w', outcome, run, setSignal, mbind, M_bind, get_bot, modify_bot,
      mret, M_ret.
    rewrite Heq. cbn -[addLog]. rewrite addLog_eq. cbn -[take].
    repeat split.
Qed.

Lemma recordTrade_run side price size w :
  recordTrade side price size w
  = (Return tt,
     logged (Log.mk (clock w (S (S (ticks w))))
               [Txt "Trade executed: "; Txt (Side_upper side); Txt " "; Num size;
                Txt " USDT at $"; Num price] trade)
       (with_bot (set_lastTrade
                    {| lt_side := side; lt_price := price; lt_size := size;
                       lt_timestamp := clock w (ticks w) |}
                    (clock w (S (ticks w))) (direction_of side))
          (ticked (ticked w)))).
Proof.
  unfold recordTrade, mbind, M_bind, Date_now, modify_bot.
  now rewrite addLog_eq.
Qed.

Lemma isInCooldown_eq w :
  isInCooldown w
  = match truthy_globalTradeTime (bot w) with
    | None => (Return false, w)
    | Some t =>
        (Return (Qlt_bool (inject_Z (clock w (ticks w) - t) / 1000)
                          (cooldownSeconds (bot w))),
         ticked w)
    end.
Proof.
  unfold isInCooldown, mbind, M_bind, get_bot.
  now destruct (truthy_globalTradeTime (bot w)).
Qed.

Lemma getCooldownRemaining_eq w :
  getCooldownRemaining w
  = match truthy_globalTradeTime (bot w) with
    | None => (Return 0%Z, w)
    | Some t =>
        (Return (Z.max 0 (Math_round (cooldownSeconds (bot w)
                   - inject_Z (clock w (ticks w) - t) / 1000))),
         ticked w)
    end.
Proof.
  unfold getCooldownRemaining, mbind, M_bind, get_bot.
  now destruct (truthy_globalTradeTime (bot w)).
Qed.

(** X16.  [recordTrade] of the store starts the global cooldown.  It
    stores the trade, the direction and the time of its second clock
    reading [t], and leaves the per-pair states and the positions alone.
    With a global cooldown of 60 seconds and [t] not 0, [isInCooldown]
    afterwards answers [true] exactly while the clock reads less than
    60000 ms after [t], and [getCooldownRemaining] is between 0 and 60 as
    long as the clock is not before [t]. *)
Theorem recordTrade_starts_global_cooldown (side : Side) (price size : Q)
    (w w2 : World) :
  let w1 := run (recordTrade side price size) w in
  let t := clock w (S (ticks w)) in
  lastTradeTime (bot w1) = Some t
  /\ lastPosition (bot w1) = Some (direction_of side)
  /\ lastTrade (bot w1)
     = Some {| lt_side := side; lt_price := price; lt_size := size;
               lt_timestamp := clock w (ticks w) |}
  /\ pairState (bot w1) = pairState (bot w)
  /\ positions (bot w1) = positions (bot w)
  /\ (t <> 0%Z ->
      lastTradeTime (bot w2) = Some t ->
      cooldownSeconds (bot w2) == 60 ->
      outcome isInCooldown w2 = Return (clock w2 (ticks w2) - t <? 60000)%Z
      /\ exists n,
           outcome getCooldownRemaining w2 = Return n
           /\ (0 <= n)%Z
           /\ ((t <= clock w2 (ticks w2))%Z -> (n <= 60)%Z)
           /\ ((60000 <= clock w2 (ticks w2) - t)%Z -> n = 0%Z)).
Proof.
  intros w1 t. unfold w1, run. rewrite recordTrade_run. cbn.
  repeat split.
  - assert (Ht : truthy_globalTradeTime (bot w2) = Some t).
    { unfold truthy_globalTradeTime. rewrite H0.
      destruct (Z.eqb_spec t 0); [contradiction | reflexivity]. }
    unfold outcome. rewrite isInCooldown_eq, Ht. cbn [fst]. f_equal.
    destruct (Z.ltb_spec (clock w2 (ticks w2) - t) 60000) as [Hlt | Hge].
    + apply Qlt_bool_iff. now apply (elapsed_seconds _ _ 60).
    + apply not_true_iff_false. rewrite Qlt_bool_iff. apply Qle_not_lt.
      rewrite H1. apply (elapsed_ge _ 60). lia.
  - assert (Ht : truthy_globalTradeTime (bot w2) = Some t).
    { unfold truthy_globalTradeTime. rewrite H0.
      destruct (Z.eqb_spec t 0); [contradiction | reflexivity]. }
    unfold outcome. rewrite getCooldownRemaining_eq, Ht. cbn [fst].
    eexists. split; [reflexivity |]. split; [lia |]. split.
    + intros Hafter. apply Z.max_lub; [lia |].
      apply Math_round_le. rewrite H1.
      assert (Hel : 0 <= inject_Z (clock w2 (ticks w2) - t) / 1000)
        by (apply elapsed_nonneg; lia).
      set (el := inject_Z (clock w2 (ticks w2) - t) / 1000) in *.
      change (inject_Z 60) with 60. lra.
    + intros Hover.
      assert (Hle : (Math_round (cooldownSeconds (bot w2)
                        - inject_Z (clock w2 (ticks w2) - t) / 1000) <= 0)%Z).
      { apply Math_round_le. rewrite H1.
        assert (H60 : inject_Z 60 <= inject_Z (clock w2 (ticks w2) - t) / 1000)
          by (apply elapsed_ge; lia).
        set (el := inject_Z (clock w2 (ticks w2) - t) / 1000) in *.
        change (inject_Z 60) with 60 in H60. change (inject_Z 0) with 0.
        lra. }
      lia.
Qed.


(** ** The strategy, continued *)

(** [analyzeMarket] on enough prices, in terms of the four exact means. *)
Lemma analyzeMarket_enough (prices : list Q) :
  (SLOW_MA_PERIOD + 2 <= length prices)%nat ->
  let currFast := mean (lastn FAST_MA_PERIOD prices) in
  let currSlow := mean (lastn SLOW_MA_PERIOD prices) in
  let prevFast := mean (lastn FAST_MA_PERIOD (removelast prices)) in
  let prevSlow := mean (lastn SLOW_MA_PERIOD (removelast prices)) in
  a_signal (analyzeMarket (Some prices))
  = crossoverSignal prevFast prevSlow currFast currSlow
  /\ a_fastMA (analyzeMarket (Some prices)) = Some (round2 currFast)
  /\ a_slowMA (analyzeMarket (Some prices)) = Some (round2 currSlow).
Proof.
  intros Hlen. cbv zeta. unfold analyzeMarket.
  destruct (Nat.ltb_spec (length prices) (SLOW_MA_PERIOD + 2)) as [Hlt | _];
    [exfalso; lia |].
  unfold SLOW_MA_PERIOD, FAST_MA_PERIOD in *.
  rewrite !(calculateSMA_fromEnd prices _ 0), !(calculateSMA_fromEnd prices _ 1)
    by lia.
  rewrite !window_current, !window_previous by lia.
  cbn [num_le num_lt fmap option_fmap option_map].
  rewrite <- source_order_signal.
  repeat match goal with
         | |- context [if ?b then _ else _] => destruct b
         end; cbn; repeat split.
Qed.

Lemma crossoverSignal_current (prevFast prevSlow currFast currSlow : Q) :
  crossoverSignal prevFast prevSlow currFast currSlow
  = if Qlt_bool currSlow currFast then BUY
    else if Qlt_bool currFast currSlow then SELL
    else WAIT.
Proof.
  unfold crossoverSignal.
  destruct (Qlt_bool currSlow currFast) eqn:Hb.
  - now rewrite andb_true_r, Tauto.if_same.
  - rewrite andb_false_r.
    destruct (Qlt_bool currFast currSlow);
      [now rewrite andb_true_r, Tauto.if_same | now rewrite andb_false_r].
Qed.

(** X17.  The previous averages never change the signal (they only choose
    between the "crossover" and the "trend" wording of the reason).  With at
    least 23 prices, [analyzeMarket] signals BUY exactly when the mean of the
    last 9 prices is above the mean of the last 21, SELL exactly when it is
    below, and WAIT exactly when the two means are equal. *)
Theorem signal_follows_current_averages (prices : list Q) :
  (SLOW_MA_PERIOD + 2 <= length prices)%nat ->
  let fast := mean (lastn FAST_MA_PERIOD prices) in
  let slow := mean (lastn SLOW_MA_PERIOD prices) in
  let sig := a_signal (analyzeMarket (Some prices)) in
  (sig = BUY <-> slow < fast)
  /\ (sig = SELL <-> fast < slow)
  /\ (sig = WAIT <-> fast == slow).
Proof.
  intros Hlen fast slow sig.
  destruct (analyzeMarket_enough prices Hlen) as (Hsig & _).
  cbv zeta in Hsig. fold fast slow sig in Hsig.
  rewrite crossoverSignal_current in Hsig.
  destruct (Qlt_bool slow fast) eqn:H1.
  - pose proof (proj1 (Qlt_bool_iff _ _) H1) as Hlt.
    rewrite Hsig. repeat split; try discriminate; try (intros; assumption);
      intros H; exfalso; lra.
  - assert (Hnlt : ~ slow < fast).
    { intros H. apply Qlt_bool_iff in H. congruence. }
    destruct (Qlt_bool fast slow) eqn:H2.
    + pose proof (proj1 (Qlt_bool_iff _ _) H2) as Hlt.
      rewrite Hsig. repeat split; try discriminate; try (intros; assumption);
        intros H; exfalso; lra.
    + assert (Hnlt2 : ~ fast < slow).
      { intros H. apply Qlt_bool_iff in H. congruence. }
      rewrite Hsig. repeat split; try discriminate; try (intros; reflexivity);
        try (intros H; exfalso; lra).
      intros _. lra.
Qed.




(** ** The pipeline, continued *)

(** The pipeline from the cooldown check to the decision, once the pair is
    not cooling down and ticker and candles have arrived: [k] stands for
    the rest of the [try] block. *)
Lemma executePairTrade_prefix ex instId w w1 tk cs :
  isPairInCooldown instId w = (Return false, w1) ->
  sameButTicks w w1 ->
  ticker_of ex instId = Return tk ->
  candles_of ex instId CANDLE_TIMEFRAME CANDLE_LIMIT = Return cs ->
  let sig := a_signal (analyzeMarket (Some (map close cs))) in
  let ps := Pair.mk (pairLastPosition (bot w) instId)
                    (pairLastTradeTime (bot w) instId) (Some sig) in
  exists w5,
    (forall (k : Ticker -> list Candle -> Pair.t -> M Result.t),
       (inCooldown ← isPairInCooldown instId;
        if inCooldown : bool then
          remaining ← getPairCooldownRemaining instId;
          mret (Result.failed instId
                  [Txt "Cooldown "; Num (inject_Z remaining); Txt "s"])
        else
          ticker ← getTicker ex instId;
          candles ← getCandles ex instId CANDLE_TIMEFRAME CANDLE_LIMIT;
          updateMarketPrice instId (last ticker);;
          setPairSignal instId (a_signal (analyzeMarket (Some (map close candles))));;
          pairState ← getPairState instId;
          k ticker candles pairState) w = k tk cs ps w5)
    /\ pairState (bot w5) = <[instId := ps]> (pairState (bot w))
    /\ positions (bot w5) = refreshed instId (last tk) <$> positions (bot w)
    /\ trace w5
       = [ {| ev_call := GetCandles instId CANDLE_TIMEFRAME CANDLE_LIMIT;
              ev_store := bot w |};
           {| ev_call := GetTicker instId; ev_store := bot w |} ] ++ trace w
    /\ logs (bot w5) = logs (bot w)
    /\ maxLogs (bot w5) = maxLogs (bot w)
    /\ tradeConfig (bot w5) = tradeConfig (bot w)
    /\ tradeHistory w5 = tradeHistory w
    /\ demoMode w5 = demoMode w
    /\ clock w5 = clock w
    /\ (ticks w < ticks w5)%nat.
Proof.
  intros Hcd (Hb1 & Hd1 & Hh1 & Hc1 & Ht1 & Hk1) Htk Hcs sig ps.
  set (w2 := emitted (GetTicker instId) w1).
  set (w3 := emitted (GetCandles instId CANDLE_TIMEFRAME CANDLE_LIMIT) w2).
  set (w4 := run (updateMarketPrice instId (last tk)) w3).
  assert (Hps4 : pairState (bot w4) = pairState (bot w)).
  { unfold w4, w3, w2. rewrite updateMarketPrice_run. cbn. now rewrite Hb1. }
  set (ps4 := Pair.mk (pairLastPosition (bot w4) instId)
                      (pairLastTradeTime (bot w4) instId) (Some sig)).
  assert (Hpseq : ps4 = ps).
  { unfold ps4, ps, pairLastPosition, pairLastTradeTime. now rewrite Hps4. }
  set (w5 := with_bot (set_pairState (<[instId := ps4]> (pairState (bot w4)))) w4).
  exists w5. split.
  { intros k. rewrite (bind_return _ _ _ _ _ Hcd).
    rewrite (bind_return _ _ w1 tk w2) by now rewrite getTicker_eq, Htk.
    rewrite (bind_return _ _ w2 cs w3) by now rewrite getCandles_eq, Hcs.
    rewrite (bind_return _ _ _ _ _ (updateMarketPrice_eq _ _ _)).
    rewrite (bind_return _ _ _ _ _ (setPairSignal_eq _ _ _)).
    fold w4 sig ps4 w5.
    rewrite (bind_return _ _ w5 ps4 w5); [now rewrite Hpseq |].
    apply getPairState_present. apply lookup_insert_eq. }
  unfold w5, w4, w3, w2. rewrite updateMarketPrice_run. cbn.
  fold w2 w3 w4. rewrite Hpseq.
  rewrite Hb1, Ht1, Hh1, Hd1, Hc1.
  repeat split; try reflexivity. lia.
Qed.

(** The result when [shouldTrade] refuses. *)
Lemma executePairTrade_no_trade ex instId w w1 tk cs :
  isPairInCooldown instId w = (Return false, w1) ->
  sameButTicks w w1 ->
  ticker_of ex instId = Return tk ->
  candles_of ex instId CANDLE_TIMEFRAME CANDLE_LIMIT = Return cs ->
  let sig := a_signal (analyzeMarket (Some (map close cs))) in
  let decision := shouldTrade sig (pairLastPosition (bot w) instId) in
  d_shouldTrade decision = false ->
  exists w',
    executePairTrade ex instId w
    = (Return (Result.mk instId false (Some (d_reason decision)) (Some sig)
                 None None None None), w')
    /\ trace w'
       = [ {| ev_call := GetCandles instId CANDLE_TIMEFRAME CANDLE_LIMIT;
              ev_store := bot w |};
           {| ev_call := GetTicker instId; ev_store := bot w |} ] ++ trace w
    /\ positions (bot w') = refreshed instId (last tk) <$> positions (bot w)
    /\ pairSignal (bot w') instId = Some sig
    /\ pairLastPosition (bot w') instId = pairLastPosition (bot w) instId
    /\ pairLastTradeTime (bot w') instId = pairLastTradeTime (bot w) instId
    /\ logs (bot w') = logs (bot w)
    /\ tradeHistory w' = tradeHistory w.
Proof.
  intros Hcd Hsame Htk Hcs sig decision Hno.
  destruct (executePairTrade_prefix ex instId w w1 tk cs Hcd Hsame Htk Hcs)
    as (w5 & Hprefix & Hpair & Hpos & Htrace & Hlogs & _ & _ & Hhist & _).
  cbv zeta in Hprefix, Hpair. fold sig in Hprefix, Hpair.
  exists w5. split.
  { unfold executePairTrade. apply try_catch_return.
    rewrite Hprefix. cbn [Pair.lastPosition]. fold sig decision.
    rewrite Hno. reflexivity. }
  unfold pairSignal, pairLastPosition, pairLastTradeTime.
  rewrite Hpair, lookup_insert_eq. cbn.
  repeat split; assumption.
Qed.


(** The paths of [executePairTrade] that end before the analysis. *)
Lemma executePairTrade_early ex instId w :
  (exists n w1 w',
     isPairInCooldown instId w = (Return true, w1)
     /\ executePairTrade ex instId w
     = (Return (Result.failed instId
                  [Txt "Cooldown "; Num (inject_Z n); Txt "s"]), w')
     /\ bot w' = bot w /\ trace w' = trace w /\ tradeHistory w' = tradeHistory w)
  \/ (exists w1,
        isPairInCooldown instId w = (Return false, w1) /\ sameButTicks w w1
        /\ ((exists e w',
               ticker_of ex instId = Throw e
               /\ executePairTrade ex instId w
                  = (Return (Result.failed instId [Txt (message e)]), w')
               /\ trace w' = [ {| ev_call := GetTicker instId; ev_store := bot w |} ]
                             ++ trace w
               /\ positions (bot w') = positions (bot w)
               /\ pairState (bot w') = pairState (bot w)
               /\ tradeHistory w' = tradeHistory w)
            \/ (exists tk,
                  ticker_of ex instId = Return tk
                  /\ ((exists e w',
                         candles_of ex instId CANDLE_TIMEFRAME CANDLE_LIMIT = Throw e
                         /\ executePairTrade ex instId w
                            = (Return (Result.failed instId [Txt (message e)]), w')
                         /\ trace w'
                            = [ {| ev_call := GetCandles instId CANDLE_TIMEFRAME
                                                CANDLE_LIMIT;
                                   ev_store := bot w |};
                                {| ev_call := GetTicker instId; ev_store := bot w |} ]
                              ++ trace w
                         /\ positions (bot w') = positions (bot w)
                         /\ pairState (bot w') = pairState (bot w)
               /\ tradeHistory w' = tradeHistory w)
                      \/ (exists cs,
                            candles_of ex instId CANDLE_TIMEFRAME CANDLE_LIMIT
                            = Return cs))))).
Proof.
  destruct (isPairInCooldown_frame instId w) as (inCd & w1 & Hcd & Hw1).
  pose proof Hw1 as (Hb1 & Hd1 & Hh1 & Hc1 & Ht1 & Hk1).
  destruct inCd.
  { left.
    destruct (getPairCooldownRemaining_frame instId w1)
      as (n & w2 & Hrem & (Hb2 & Hd2 & Hh2 & Hc2 & Ht2 & Hk2) & _).
    exists n, w1, w2. split; [exact Hcd |]. split.
    { unfold executePairTrade. apply try_catch_return.
      rewrite (bind_return _ _ _ _ _ Hcd).
      rewrite (bind_return _ _ _ _ _ Hrem). reflexivity. }
    repeat split; congruence. }
  right. exists w1. split; [exact Hcd |]. split; [exact Hw1 |].
  set (w2 := emitted (GetTicker instId) w1).
  destruct (ticker_of ex instId) as [tk | e] eqn:Htk.
  2: { left. eexists e, _. split; [reflexivity |]. split.
       { unfold executePairTrade.
         apply executePairTrade_caught with (w1 := w2).
         rewrite (bind_return _ _ _ _ _ Hcd).
         apply bind_throw. now rewrite getTicker_eq, Htk. }
       cbn. rewrite Hb1, Ht1, Hh1. repeat split. }
  right. exists tk. split; [reflexivity |].
  set (w3 := emitted (GetCandles instId CANDLE_TIMEFRAME CANDLE_LIMIT) w2).
  destruct (candles_of ex instId CANDLE_TIMEFRAME CANDLE_LIMIT) as [cs | e] eqn:Hcs.
  2: { left. eexists e, _. split; [reflexivity |]. split.
       { unfold executePairTrade.
         apply executePairTrade_caught with (w1 := w3).
         rewrite (bind_return _ _ _ _ _ Hcd).
         rewrite (bind_return _ _ w1 tk w2) by now rewrite getTicker_eq, Htk.
         apply bind_throw. now rewrite getCandles_eq, Hcs. }
       cbn. rewrite Hb1, Ht1, Hh1. repeat split. }
  right. now exists cs.
Qed.

Lemma analyzeMarket_short (prices : list Q) :
  (length prices < SLOW_MA_PERIOD + 2)%nat ->
  a_signal (analyzeMarket (Some prices)) = WAIT.
Proof.
  intros H. unfold analyzeMarket.
  destruct (Nat.ltb_spec (length prices) (SLOW_MA_PERIOD + 2)); [reflexivity | lia].
Qed.

(** X20.  With fewer than 23 candles the pipeline never trades: the
    invocation returns [executed = false] and submits no order, whatever
    the exchange answers.  When the pair is not cooling down and the ticker
    arrives, the result carries the signal [WAIT] and the reason "No clear
    signal", the pair's stored signal becomes [WAIT], and its
    [lastPosition] and [lastTradeTime] are kept. *)
Theorem too_few_candles_never_trade (ex : Exchange) (instId : string)
    (w : World) (cs : list Candle) :
  candles_of ex instId CANDLE_TIMEFRAME CANDLE_LIMIT = Return cs ->
  (length cs < SLOW_MA_PERIOD + 2)%nat ->
  let w' := run (executePairTrade ex instId) w in
  exists r new,
    outcome (executePairTrade ex instId) w = Return r
    /\ Result.executed r = false
    /\ trace w' = new ++ trace w
    /\ Forall notOrder new
    /\ tradeHistory w' = tradeHistory w
    /\ (forall tk,
          outcome (isPairInCooldown instId) w = Return false ->
          ticker_of ex instId = Return tk ->
          r = Result.mk instId false (Some [Txt "No clear signal"]) (Some WAIT)
                None None None None
          /\ pairSignal (bot w') instId = Some WAIT
          /\ pairLastPosition (bot w') instId = pairLastPosition (bot w) instId
          /\ pairLastTradeTime (bot w') instId = pairLastTradeTime (bot w) instId).
Proof.
  intros Hcs Hshort w'. unfold w', outcome, run.
  destruct (executePairTrade_early ex instId w)
    as [(n & w1 & w2 & Hcd & Heq & Hb & Ht & Hh)
       | (w1 & Hcd & Hsame & [(e & w2 & Htk & Heq & Ht & _ & _ & Hh)
                             | (tk & Htk & [(e & w2 & Hcs' & _) | _])])].
  - rewrite Heq, Hcd. cbn [fst snd]. eexists _, [].
    split; [reflexivity |]. split; [reflexivity |]. split; [exact Ht |].
    split; [constructor |]. split; [exact Hh |].
    intros tk Hf _. discriminate Hf.
  - rewrite Heq. cbn [fst snd]. eexists _, [_].
    split; [reflexivity |]. split; [reflexivity |]. split; [exact Ht |].
    split; [repeat constructor |]. split; [exact Hh |].
    intros tk _ Hf. congruence.
  - congruence.
  - assert (Hsig : a_signal (analyzeMarket (Some (map close cs))) = WAIT).
    { apply analyzeMarket_short. now rewrite length_map. }
    destruct (executePairTrade_no_trade ex instId w w1 tk cs Hcd Hsame Htk Hcs)
      as (w2 & Heq & Ht & _ & Hsg & Hlp & Hlt & _ & Hh).
    { now rewrite Hsig. }
    rewrite Hsig in Heq, Hsg. rewrite Heq. cbn [fst snd].
    eexists _, [_; _].
    split; [reflexivity |]. split; [reflexivity |]. split; [exact Ht |].
    split; [repeat constructor |]. split; [exact Hh |].
    intros tk' _ _. repeat split; assumption.
Qed.


Lemma logTrade_run (t : Trade.t) (w : World) :
  exists te w',
    logTrade t w = (Return te, w')
    /\ te_trade te = t
    /\ te_timestamp te = clock w (S (ticks w))
    /\ tradeHistory w'
       = (if (MAX_TRADES <? length (te :: tradeHistory w))%nat
          then removelast (te :: tradeHistory w) else te :: tradeHistory w)
    /\ bot w' = bot w /\ demoMode w' = demoMode w
    /\ clock w' = clock w /\ trace w' = trace w.
Proof.
  unfold logTrade, mbind, M_bind, Date_now, modify_history, mret, M_ret.
  eexists _, _. split; [reflexivity |].
  cbn -[Nat.ltb removelast MAX_TRADES]. repeat split.
Qed.

(** The path of [executePairTrade] on which the decision is to trade: one
    order is submitted, with the side of the decision and the size and
    leverage of the stored configuration; what follows depends on the
    answer of the exchange. *)
Lemma executePairTrade_trade ex instId w w1 tk cs side :
  isPairInCooldown instId w = (Return false, w1) ->
  sameButTicks w w1 ->
  ticker_of ex instId = Return tk ->
  candles_of ex instId CANDLE_TIMEFRAME CANDLE_LIMIT = Return cs ->
  let analysis := analyzeMarket (Some (map close cs)) in
  let decision := shouldTrade (a_signal analysis) (pairLastPosition (bot w) instId) in
  d_shouldTrade decision = true ->
  d_side decision = Some side ->
  let size := tradeSize (tradeConfig (bot w)) in
  let lev := leverage (tradeConfig (bot w)) in
  let mode := if demoMode w then demo else live in
  exists snapshot,
    let sent :=
      [ {| ev_call := PlaceMarketOrder instId side size lev; ev_store := snapshot |};
        {| ev_call := GetCandles instId CANDLE_TIMEFRAME CANDLE_LIMIT;
           ev_store := bot w |};
        {| ev_call := GetTicker instId; ev_store := bot w |} ] in
    positions snapshot = refreshed instId (last tk) <$> positions (bot w)
    /\ (forall e,
          order_of ex instId side size lev = Throw e ->
          exists w',
            executePairTrade ex instId w
            = (Return (Result.failed instId [Txt (message e)]), w')
            /\ trace w' = sent ++ trace w
            /\ positions (bot w') = refreshed instId (last tk) <$> positions (bot w)
            /\ tradeHistory w' = tradeHistory w)
    /\ (forall order,
          order_of ex instId side size lev = Return order ->
          exists w' np te,
            executePairTrade ex instId w
            = (Return (Result.mk instId true None None (Some mode) (Some side)
                         (Some (last tk)) (Some (o_orderId order))), w')
            /\ trace w' = sent ++ trace w
            /\ positions (bot w')
               = positionsAfterAdd
                   (Fill.mk instId side size (last tk) (Some (o_orderId order))
                      (Some mode) (Some lev))
                   np (refreshed instId (last tk) <$> positions (bot w))
            /\ Pos.instId np = instId /\ Pos.side np = side
            /\ Pos.size np = size /\ Pos.entryPrice np = last tk
            /\ tradeHistory w'
               = (if (MAX_TRADES <? length (te :: tradeHistory w))%nat
                  then removelast (te :: tradeHistory w) else te :: tradeHistory w)
            /\ te_trade te
               = Trade.mk mode instId side (last tk) size lev
                   (a_signal analysis) (a_fastMA analysis) (a_slowMA analysis)
                   (o_orderId order) (d_reason decision)
            /\ (exists stamp,
                  lastTrade (bot w')
                  = Some {| lt_side := side; lt_price := last tk; lt_size := size;
                            lt_timestamp := stamp |})
            /\ lastPosition (bot w') = Some (direction_of side)
            /\ pairLastPosition (bot w') instId = Some (direction_of side)
            /\ pairSignal (bot w') instId = Some (a_signal analysis)).
Proof.
  intros Hcd Hsame Htk Hcs analysis decision Hdecide Hside size lev mode.
  destruct (executePairTrade_prefix ex instId w w1 tk cs Hcd Hsame Htk Hcs)
    as (w5 & Hprefix & Hpair5 & Hpos5 & Htr5 & Hlogs5 & Hmax5 & Hcfg5 & Hh5
        & Hd5 & Hc5 & Hk5).
  fold analysis in Hprefix, Hpair5.
  set (ps := Pair.mk (pairLastPosition (bot w) instId)
               (pairLastTradeTime (bot w) instId) (Some (a_signal analysis))) in *.
  set (entry6 := Log.mk (clock w5 (ticks w5))
        [Txt "["; Txt instId; Txt "] "; Txt (Side_upper side); Txt " @ $";
         Num (last tk); Txt " - "; Num size; Txt " USDT @ "; Num lev; Txt "x"] trade).
  set (w6 := logged entry6 w5).
  set (w7 := emitted (PlaceMarketOrder instId side size lev) w6).
  assert (Hpair6 : pairState (bot w6) = <[instId := ps]> (pairState (bot w))).
  { unfold w6. cbn. exact Hpair5. }
  exists (bot w6). cbn zeta.
  split; [cbn; exact Hpos5 |].
  split.
  - intros e Horder. eexists. split.
    { unfold executePairTrade.
      apply executePairTrade_caught with (w1 := w7).
      rewrite Hprefix. cbn [Pair.lastPosition ps]. fold analysis decision.
      rewrite Hdecide. cbn [negb].
      rewrite (bind_return _ _ w5 (demoMode w5) w5) by reflexivity.
      rewrite (bind_return _ _ w5 (tradeConfig (bot w5)) w5) by reflexivity.
      rewrite Hside, Hcfg5. fold size lev.
      rewrite (bind_return _ _ _ _ _ (addLog_eq _ _ _)). fold entry6 w6.
      apply bind_throw. now rewrite placeMarketOrder_eq, Horder. }
    cbn. rewrite Htr5, Hpos5, Hh5. repeat split.
  - intros order Horder.
    set (w8 := ticked (with_bot (set_pairState
          (<[instId := Pair.mk (Some (direction_of side)) (Some (clock w7 (ticks w7)))
                               (pairSignal (bot w7) instId)]>
             (pairState (bot w7)))) w7)).
    pose proof (recordTrade_run side (last tk) size w8) as Hrec.
    set (w9 := logged _ _) in Hrec.
    set (fill := Fill.mk instId side size (last tk) (Some (o_orderId order))
                   (Some mode) (Some lev)).
    destruct (addPosition_eq fill w9)
      as (np & w10 & Hadd & Hpos10 & Hi10 & Hs10 & Hz10 & He10 & _ & _ & Hfr10 & Hk10).
    destruct Hfr10 as (Hps10 & _ & _ & _ & _ & Hlt10 & _ & Hlp10 & _ & Hd10 & Hh10
                       & Hc10 & Ht10).
    set (tradeInfo := Trade.mk mode instId side (last tk)
                        size lev (a_signal analysis) (a_fastMA analysis)
                        (a_slowMA analysis) (o_orderId order) (d_reason decision)).
    destruct (logTrade_run tradeInfo w10)
      as (te & w11 & Hlog & Hte & _ & Hh11 & Hb11 & Hd11 & Hc11 & Ht11).
    exists (logged
             (Log.mk (clock w11 (ticks w11))
                [Txt "["; Txt instId; Txt "] Order filled! "; Txt (o_orderId order);
                 Txt (if simulated order then " (SIM)" else "")] trade) w11), np, te.
    split.
    { unfold executePairTrade. apply try_catch_return.
      rewrite Hprefix. cbn [Pair.lastPosition ps]. fold analysis decision.
      rewrite Hdecide. cbn [negb].
      rewrite (bind_return _ _ w5 (demoMode w5) w5) by reflexivity.
      rewrite (bind_return _ _ w5 (tradeConfig (bot w5)) w5) by reflexivity.
      rewrite Hside, Hcfg5, Hd5. fold size lev mode.
      rewrite (bind_return _ _ _ _ _ (addLog_eq _ _ _)). fold entry6 w6.
      rewrite (bind_return _ _ w6 order w7) by now rewrite placeMarketOrder_eq, Horder.
      rewrite (bind_return _ _ _ _ _ (updatePairState_eq _ _ _)). fold w8.
      rewrite (bind_return _ _ _ _ _ Hrec).
      fold fill. rewrite (bind_return _ _ _ _ _ Hadd).
      fold tradeInfo. rewrite (bind_return _ _ _ _ _ Hlog).
      rewrite (bind_return _ _ _ _ _ (addLog_eq _ _ _)).
      reflexivity. }
    assert (Hpos9 : positions (bot w9) = positions (bot w5)) by reflexivity.
    assert (Hh9 : tradeHistory w9 = tradeHistory w5) by reflexivity.
    assert (Htr9 : trace w9 = trace w7) by reflexivity.
    assert (Hlt9 : lastTrade (bot w9)
                   = Some {| lt_side := side; lt_price := last tk; lt_size := size;
                             lt_timestamp := clock w8 (ticks w8) |}) by reflexivity.
    assert (Hlp9 : lastPosition (bot w9) = Some (direction_of side)) by reflexivity.
    assert (Hps9 : pairState (bot w9) = pairState (bot w8)) by reflexivity.
    assert (Hfinal : pairState (bot (logged
               (Log.mk (clock w11 (ticks w11))
                  [Txt "["; Txt instId; Txt "] Order filled! "; Txt (o_orderId order);
                   Txt (if simulated order then " (SIM)" else "")] trade) w11))
             = pairState (bot w8)).
    { cbn. rewrite Hb11, Hps10, Hps9. reflexivity. }
    split; [cbn; rewrite Ht11, Ht10, Htr9; cbn; rewrite Htr5; reflexivity |].
    split; [cbn; rewrite Hb11, Hpos10, Hpos9, Hpos5; reflexivity |].
    split; [exact Hi10 |]. split; [exact Hs10 |]. split; [exact Hz10 |].
    split; [exact He10 |].
    split; [cbn; rewrite Hh11, Hh10, Hh9, Hh5; reflexivity |].
    split; [exact Hte |].
    split; [eexists; cbn; rewrite Hb11, Hlt10, Hlt9; reflexivity |].
    split; [cbn; rewrite Hb11, Hlp10, Hlp9; reflexivity |].
    assert (Hps8 : pairState (bot w8)
                   = <[instId := Pair.mk (Some (direction_of side))
                                   (Some (clock w7 (ticks w7)))
                                   (pairSignal (bot w6) instId)]>
                       (pairState (bot w6))) by reflexivity.
    unfold pairLastPosition. unfold pairSignal at 1.
    rewrite Hfinal, Hps8, lookup_insert_eq.
    split; [reflexivity |].
    change (pairSignal (bot w6) instId = Some (a_signal analysis)).
    unfold pairSignal. rewrite Hpair6, lookup_insert_eq. reflexivity.
Qed.


Lemma shouldTrade_no_side sig lastPos :
  d_shouldTrade (shouldTrade sig lastPos) = false ->
  d_side (shouldTrade sig lastPos) = None.
Proof.
  unfold shouldTrade.
  destruct (Signal_eqb sig WAIT); [reflexivity |].
  destruct (Signal_eqb sig BUY && isDirection lastPos long); [reflexivity |].
  destruct (Signal_eqb sig SELL && isDirection lastPos short); [reflexivity |].
  discriminate.
Qed.

Lemma not_cooling instId w :
  outcome (isPairInCooldown instId) w = Return false ->
  exists w1, isPairInCooldown instId w = (Return false, w1) /\ sameButTicks w w1.
Proof.
  unfold outcome.
  destruct (isPairInCooldown_frame instId w) as (b & w1 & Hcd & Hsame).
  rewrite Hcd. cbn. intros [= ->]. now exists w1.
Qed.

(** X21.  The calls of one invocation follow the decision.  When the pair
    is not cooling down and both market requests are answered, the
    invocation requests the ticker, then the candles, and then submits an
    order exactly when [shouldTrade] returns a side: that one order is for
    the invoked instrument, on the side of the decision, with the
    [tradeSize] and [leverage] of the stored configuration.  A refused
    decision sends nothing more. *)
Theorem orders_follow_decision (ex : Exchange) (instId : string) (w : World)
    (tk : Ticker) (cs : list Candle) :
  outcome (isPairInCooldown instId) w = Return false ->
  ticker_of ex instId = Return tk ->
  candles_of ex instId CANDLE_TIMEFRAME CANDLE_LIMIT = Return cs ->
  let decision :=
    shouldTrade (a_signal (analyzeMarket (Some (map close cs))))
                (pairLastPosition (bot w) instId) in
  let w' := run (executePairTrade ex instId) w in
  exists new,
    trace w' = new ++ trace w
    /\ ev_call <$> new
       = match d_side decision with
         | Some side =>
             [PlaceMarketOrder instId side (tradeSize (tradeConfig (bot w)))
                (leverage (tradeConfig (bot w)))]
         | None => []
         end
         ++ [GetCandles instId CANDLE_TIMEFRAME CANDLE_LIMIT; GetTicker instId].
Proof.
  intros Hnc Htk Hcs decision w'.
  destruct (not_cooling instId w Hnc) as (w1 & Hcd & Hsame).
  unfold w', run.
  destruct (d_shouldTrade decision) eqn:Hdecide.
  - destruct (shouldTrade_side _ _ Hdecide) as [side Hside]. fold decision in Hside.
    destruct (executePairTrade_trade ex instId w w1 tk cs side Hcd Hsame Htk Hcs
                Hdecide Hside) as (snapshot & _ & Hfail & Hok).
    rewrite Hside.
    destruct (order_of ex instId side (tradeSize (tradeConfig (bot w)))
                (leverage (tradeConfig (bot w)))) as [order | e] eqn:Horder.
    + destruct (Hok order eq_refl) as (w2 & np & te & Heq & Ht & _).
      rewrite Heq. cbn [snd]. eexists. split; [exact Ht | reflexivity].
    + destruct (Hfail e eq_refl) as (w2 & Heq & Ht & _).
      rewrite Heq. cbn [snd]. eexists. split; [exact Ht | reflexivity].
  - destruct (executePairTrade_no_trade ex instId w w1 tk cs Hcd Hsame Htk Hcs
                Hdecide) as (w2 & Heq & Ht & _).
    unfold decision. rewrite (shouldTrade_no_side _ _ Hdecide).
    rewrite Heq. cbn [snd]. eexists. split; [exact Ht | reflexivity].
Qed.

Lemma positionsAfterAdd_holds fill np l :
  Pos.instId np = Fill.instId fill -> Pos.side np = Fill.side fill ->
  exists p, p ∈ positionsAfterAdd fill np l
            /\ Pos.instId p = Fill.instId fill /\ Pos.side p = Fill.side fill.
Proof.
  intros Hi Hs. unfold positionsAfterAdd.
  set (ps1 := match findIndex (isOpposite fill) l with
              | Some i => delete i l | None => l end).
  destruct (findIndex (isSameSide fill) ps1) as [j |] eqn:Hj.
  - destruct (findIndex_Some _ _ _ Hj) as (x & Hx & Hsame & _).
    rewrite Hx. apply isSameSide_spec in Hsame as [Hxi Hxs].
    eexists. split.
    { apply list_elem_of_lookup. exists j.
      apply list_lookup_insert_eq. now apply lookup_lt_Some in Hx. }
    cbn. now split.
  - exists np. split; [| now split].
    apply elem_of_app. right. apply list_elem_of_singleton. reflexivity.
Qed.

Lemma history_head (te : TradeEntry) (h : list TradeEntry) :
  let h' := if (MAX_TRADES <? length (te :: h))%nat
            then removelast (te :: h) else te :: h in
  head h' = Some te
  /\ ((length h <= MAX_TRADES)%nat -> (length h' <= MAX_TRADES)%nat).
Proof.
  cbn zeta. destruct (Nat.ltb_spec MAX_TRADES (length (te :: h))) as [Hlt | Hle].
  - destruct h as [| x h]; [cbn in Hlt; unfold MAX_TRADES in Hlt; lia |].
    split; [reflexivity |].
    intros Hlen. change (removelast (te :: x :: h)) with (te :: removelast (x :: h)).
    cbn [length]. rewrite removelast_firstn_len, length_take. cbn [length] in *. lia.
  - split; [reflexivity | intros _; exact Hle].
Qed.

(** X22.  What a filled order leaves behind.  When the pair is not cooling
    down, both market requests are answered, the decision is to trade on
    [side] and the exchange accepts the order, the invocation returns
    [executed = true] with the mode, the side, the ticker's last price and
    the order id; the newest entry of the trade history records that trade
    with the analysed signal and the decision's reason; the positions hold
    a position on the instrument on that side; the pair's and the global
    [lastPosition] are the direction of the side; and a history within
    [MAX_TRADES] stays within it. *)
Theorem filled_order_effects (ex : Exchange) (instId : string) (w : World)
    (tk : Ticker) (cs : list Candle) (side : Side) (order : Order) :
  outcome (isPairInCooldown instId) w = Return false ->
  ticker_of ex instId = Return tk ->
  candles_of ex instId CANDLE_TIMEFRAME CANDLE_LIMIT = Return cs ->
  let analysis := analyzeMarket (Some (map close cs)) in
  let decision := shouldTrade (a_signal analysis) (pairLastPosition (bot w) instId) in
  d_side decision = Some side ->
  let size := tradeSize (tradeConfig (bot w)) in
  let lev := leverage (tradeConfig (bot w)) in
  let mode := if demoMode w then demo else live in
  order_of ex instId side size lev = Return order ->
  let w' := run (executePairTrade ex instId) w in
  outcome (executePairTrade ex instId) w
  = Return (Result.mk instId true None None (Some mode) (Some side)
              (Some (last tk)) (Some (o_orderId order)))
  /\ (exists te,
        head (tradeHistory w') = Some te
        /\ te_trade te
           = Trade.mk mode instId side (last tk) size lev
               (a_signal analysis) (a_fastMA analysis) (a_slowMA analysis)
               (o_orderId order) (d_reason decision))
  /\ ((length (tradeHistory w) <= MAX_TRADES)%nat ->
      (length (tradeHistory w') <= MAX_TRADES)%nat)
  /\ (exists p, p ∈ positions (bot w')
                /\ Pos.instId p = instId /\ Pos.side p = side)
  /\ lastPosition (bot w') = Some (direction_of side)
  /\ pairLastPosition (bot w') instId = Some (direction_of side)
  /\ pairSignal (bot w') instId = Some (a_signal analysis).
Proof.
  intros Hnc Htk Hcs analysis decision Hside size lev mode Horder w'.
  destruct (not_cooling instId w Hnc) as (w1 & Hcd & Hsame).
  assert (Hdecide : d_shouldTrade decision = true).
  { destruct (d_shouldTrade decision) eqn:Hd; [reflexivity |].
    unfold decision in Hside. rewrite (shouldTrade_no_side _ _ Hd) in Hside.
    discriminate. }
  destruct (executePairTrade_trade ex instId w w1 tk cs side Hcd Hsame Htk Hcs
              Hdecide Hside) as (snapshot & _ & _ & Hok).
  destruct (Hok order Horder)
    as (w2 & np & te & Heq & _ & Hpos & Hi & Hs & _ & _ & Hh & Hte & _ & Hlp
        & Hplp & Hsig).
  unfold w', outcome, run. rewrite Heq. cbn [fst snd].
  destruct (history_head te (tradeHistory w)) as [Hhead Hlen].
  split; [reflexivity |].
  split; [exists te; split; [rewrite Hh; exact Hhead | exact Hte] |].
  split; [rewrite Hh; exact Hlen |].
  split; [| now repeat split].
  rewrite Hpos.
  apply (positionsAfterAdd_holds
           (Fill.mk instId side size (last tk) (Some (o_orderId order))
              (Some mode) (Some lev)) np); assumption.
Qed.


(** The external calls of one invocation, newest first: nothing, the
    ticker request, then the candles request, then one order. *)
Lemma executePairTrade_calls ex instId w :
  exists r w' new,
    executePairTrade ex instId w = (Return r, w')
    /\ Result.instId r = instId
    /\ trace w' = new ++ trace w
    /\ ((ev_call <$> new = [] /\ Result.executed r = false)
        \/ (ev_call <$> new = [GetTicker instId] /\ Result.executed r = false)
        \/ (ev_call <$> new = [GetCandles instId CANDLE_TIMEFRAME CANDLE_LIMIT;
                               GetTicker instId]
            /\ Result.executed r = false)
        \/ (exists side,
              ev_call <$> new = pipelineCalls instId side (tradeConfig (bot w)))).
Proof.
  destruct (executePairTrade_early ex instId w)
    as [(n & w1 & w2 & Hcd & Heq & Hb & Ht & Hh)
       | (w1 & Hcd & Hsame & [(e & w2 & Htk & Heq & Ht & _)
                             | (tk & Htk & [(e & w2 & Hcs & Heq & Ht & _)
                                           | (cs & Hcs)])])].
  - eexists _, _, []. split; [exact Heq |]. split; [reflexivity |].
    split; [exact Ht |]. left. now split.
  - eexists _, _, [_]. split; [exact Heq |]. split; [reflexivity |].
    split; [exact Ht |]. right. left. now split.
  - eexists _, _, [_; _]. split; [exact Heq |]. split; [reflexivity |].
    split; [exact Ht |]. right. right. left. now split.
  - set (decision := shouldTrade (a_signal (analyzeMarket (Some (map close cs))))
                       (pairLastPosition (bot w) instId)).
    destruct (d_shouldTrade decision) eqn:Hdecide.
    + destruct (shouldTrade_side _ _ Hdecide) as [side Hside]. fold decision in Hside.
      destruct (executePairTrade_trade ex instId w w1 tk cs side Hcd Hsame Htk Hcs
                  Hdecide Hside) as (snapshot & _ & Hfail & Hok).
      destruct (order_of ex instId side (tradeSize (tradeConfig (bot w)))
                  (leverage (tradeConfig (bot w)))) as [order | e] eqn:Horder.
      * destruct (Hok order eq_refl) as (w2 & np & te & Heq & Ht & _).
        eexists _, _, [_; _; _]. split; [exact Heq |]. split; [reflexivity |].
        split; [exact Ht |]. right. right. right. now exists side.
      * destruct (Hfail e eq_refl) as (w2 & Heq & Ht & _).
        eexists _, _, [_; _; _]. split; [exact Heq |]. split; [reflexivity |].
        split; [exact Ht |]. right. right. right. now exists side.
    + destruct (executePairTrade_no_trade ex instId w w1 tk cs Hcd Hsame Htk Hcs
                  Hdecide) as (w2 & Heq & Ht & _).
      eexists _, _, [_; _]. split; [exact Heq |]. split; [reflexivity |].
      split; [exact Ht |]. right. right. left. now split.
Qed.

(** X23.  One invocation of the pipeline talks to the exchange in a fixed
    order and only about its own instrument: the calls it adds, oldest
    first, are an initial part of "ticker, candles, one order", the order
    carrying the [tradeSize] and [leverage] of the stored configuration.
    So an invocation makes at most three calls and submits at most one
    order, and a result with [executed = true] comes with exactly one. *)
Theorem invocation_calls_in_order (ex : Exchange) (instId : string) (w : World) :
  let w' := run (executePairTrade ex instId) w in
  exists r new side,
    outcome (executePairTrade ex instId) w = Return r
    /\ trace w' = new ++ trace w
    /\ (ev_call <$> new) `suffix_of` pipelineCalls instId side (tradeConfig (bot w))
    /\ (length new <= 3)%nat
    /\ (ordersFor instId new <= 1)%nat
    /\ (Result.executed r = true -> ordersFor instId new = 1%nat).
Proof.
  cbn zeta. unfold outcome, run.
  destruct (executePairTrade_calls ex instId w)
    as (r & w' & new & Heq & _ & Ht & Hcalls).
  rewrite Heq. cbn [fst snd].
  assert (Hfmap : forall l, ev_call <$> new = l ->
            ordersFor instId new
            = length (List.filter
                (fun c => match c with
                          | PlaceMarketOrder i _ _ _ => String.eqb i instId
                          | _ => false
                          end) l)).
  { intros l <-. unfold ordersFor. clear. induction new as [| ev new IH]; [reflexivity |].
    cbn. destruct (ev_call ev); cbn; try exact IH.
    destruct (String.eqb instId0 instId); cbn; now rewrite ?IH. }
  destruct Hcalls as [[Hc Hex] | [[Hc Hex] | [[Hc Hex] | [side Hc]]]].
  - exists r, new, buy. split; [reflexivity |]. split; [exact Ht |].
    rewrite (Hfmap _ Hc). rewrite <- (length_fmap ev_call), Hc.
    split; [eexists; rewrite app_nil_r; reflexivity |].
    cbn. repeat split; try lia. congruence.
  - exists r, new, buy. split; [reflexivity |]. split; [exact Ht |].
    rewrite (Hfmap _ Hc). rewrite <- (length_fmap ev_call), Hc.
    split; [exists [PlaceMarketOrder instId buy (tradeSize (tradeConfig (bot w)))
                      (leverage (tradeConfig (bot w)));
                    GetCandles instId CANDLE_TIMEFRAME CANDLE_LIMIT]; reflexivity |].
    cbn. repeat split; try lia. congruence.
  - exists r, new, buy. split; [reflexivity |]. split; [exact Ht |].
    rewrite (Hfmap _ Hc). rewrite <- (length_fmap ev_call), Hc.
    split; [exists [PlaceMarketOrder instId buy (tradeSize (tradeConfig (bot w)))
                      (leverage (tradeConfig (bot w)))]; reflexivity |].
    cbn. repeat split; try lia. congruence.
  - exists r, new, side. split; [reflexivity |]. split; [exact Ht |].
    rewrite (Hfmap _ Hc). rewrite <- (length_fmap ev_call), Hc.
    split; [exists []; reflexivity |].
    cbn. rewrite String.eqb_refl. cbn. repeat split; lia.
Qed.


Lemma ordersFor_app i evs1 evs2 :
  ordersFor i (evs1 ++ evs2) = (ordersFor i evs1 + ordersFor i evs2)%nat.
Proof. unfold ordersFor. now rewrite List.filter_app, length_app. Qed.

Lemma ordersFor_none i evs :
  (forall ev, ev ∈ evs -> callInstrument (ev_call ev) <> Some i) ->
  ordersFor i evs = 0%nat.
Proof.
  intros Hall. unfold ordersFor.
  induction evs as [| ev evs IH]; [reflexivity |].
  assert (Hev := Hall ev (list_elem_of_here _ _)).
  cbn. destruct (ev_call ev) as [| | k s z l |]; cbn in Hev |- *;
    try (apply IH; intros; apply Hall; now constructor).
  destruct (String.eqb_spec k i) as [-> | _]; [congruence |].
  apply IH. intros. apply Hall. now constructor.
Qed.

Lemma ordersFor_le_orders i evs :
  (ordersFor i evs <= length (List.filter isOrder evs))%nat.
Proof.
  unfold ordersFor, isOrder. induction evs as [| ev evs IH]; [reflexivity |].
  cbn. destruct (ev_call ev); cbn; try exact IH.
  destruct (String.eqb _ _); cbn; lia.
Qed.

(** What one invocation adds to the trace, as the loop of the cycle needs
    it. *)
Lemma executePairTrade_step ex instId w :
  exists r w' new,
    executePairTrade ex instId w = (Return r, w')
    /\ Result.instId r = instId
    /\ trace w' = new ++ trace w
    /\ (forall ev, ev ∈ new -> callInstrument (ev_call ev) = Some instId)
    /\ (length new <= 3)%nat
    /\ (length (List.filter isOrder new) <= 1)%nat
    /\ (Result.executed r = true -> length (List.filter isOrder new) = 1%nat).
Proof.
  destruct (executePairTrade_calls ex instId w)
    as (r & w' & new & Heq & Hinst & Ht & Hcalls).
  exists r, w', new. split; [exact Heq |]. split; [exact Hinst |].
  split; [exact Ht |].
  destruct Hcalls as [[Hc Hex] | [[Hc Hex] | [[Hc Hex] | [side Hc]]]];
    unfold pipelineCalls in *;
    repeat (let ev := fresh "ev" in destruct new as [| ev new]; try discriminate Hc);
    cbn in Hc; simplify_eq; unfold isOrder; cbn;
    repeat match goal with H : ev_call _ = _ |- _ => rewrite H end; cbn;
    (split; [intros x Hx; repeat (apply elem_of_cons in Hx as [-> | Hx]);
                try (now apply elem_of_nil in Hx);
                match goal with H : ev_call _ = _ |- _ => now rewrite H end |]);
    repeat split; try lia; congruence.
Qed.

Lemma cycleLoop_calls ex pairs :
  NoDup pairs ->
  forall results count w,
  exists new count' w' evs,
    cycleLoop ex pairs results count w = (Return (results ++ new, count'), w')
    /\ trace w' = evs ++ trace w
    /\ (forall ev, ev ∈ evs ->
          exists i, i ∈ pairs /\ callInstrument (ev_call ev) = Some i)
    /\ (forall i, (ordersFor i evs <= 1)%nat)
    /\ (count' <= count + length (List.filter isOrder evs))%nat
    /\ (length (List.filter isOrder evs) <= length pairs)%nat
    /\ (length evs <= 3 * length pairs)%nat.
Proof.
  induction pairs as [| instId rest IH]; intros Hnd results count w.
  - exists [], count, w, []. cbn. rewrite app_nil_r.
    repeat split; auto; try lia. intros ev Hev. now apply elem_of_nil in Hev.
  - apply NoDup_cons in Hnd as [Hfresh Hnd].
    destruct (executePairTrade_step ex instId w)
      as (r & w1 & evs1 & Heq & Hinst & Ht1 & Hall1 & Hlen1 & Hord1 & Hex1).
    set (count1 := if Result.executed r then S count else count).
    destruct (IH Hnd (results ++ [r]) count1 w1)
      as (new & count' & w' & evs & Hloop & Ht & Hall & Hord & Hcount & Hmax & Hlen).
    exists (r :: new), count', w', (evs ++ evs1). split.
    { cbn [cycleLoop].
      rewrite (bind_return _ _ w (results ++ [r], count1) w1).
      - rewrite Hloop. now rewrite <- app_assoc.
      - apply try_catch_return. rewrite (bind_return _ _ _ _ _ Heq).
        reflexivity. }
    split; [rewrite Ht, Ht1; now rewrite app_assoc |].
    split.
    { intros ev Hev. apply elem_of_app in Hev as [Hev | Hev].
      - destruct (Hall ev Hev) as (i & Hi & Hc). exists i. split; [| exact Hc].
        now apply elem_of_cons; right.
      - exists instId. split; [apply list_elem_of_here | now apply Hall1]. }
    split.
    { intros i. rewrite ordersFor_app.
      destruct (decide (i = instId)) as [-> | Hne].
      - rewrite (ordersFor_none instId evs).
        + pose proof (ordersFor_le_orders instId evs1). lia.
        + intros ev Hev Hc. destruct (Hall ev Hev) as (i & Hi & Hc').
          congruence.
      - rewrite (ordersFor_none i evs1).
        + specialize (Hord i). lia.
        + intros ev Hev Hc. rewrite (Hall1 ev Hev) in Hc. congruence. }
    rewrite List.filter_app, !length_app. cbn [length].
    split; [| split; lia].
    unfold count1 in Hcount. destruct (Result.executed r).
    + rewrite (Hex1 eq_refl). lia.
    + lia.
Qed.


Lemma setSignal_trace s w :
  exists w', setSignal s w = (Return tt, w') /\ trace w' = trace w.
Proof.
  unfold setSignal, mbind, M_bind, get_bot, modify_bot, mret, M_ret.
  destruct (negb _); [rewrite addLog_eq |]; eexists; split; reflexivity.
Qed.

Lemma TRADING_PAIRS_NoDup : NoDup TRADING_PAIRS.
Proof. apply (bool_decide_unpack _). vm_compute. reflexivity. Qed.

(** X24.  What a whole cycle sends.  With the API configured, every
    external call of a cycle is about one of the six trading pairs; the
    cycle submits at most one order for any instrument, hence at most six
    orders among at most eighteen calls; and [tradesExecuted] never exceeds
    the number of orders submitted. *)
Theorem cycle_orders_bounded (ex : Exchange) (w : World) :
  configured ex = true ->
  let w' := run (executeTradingCycle ex) w in
  exists report new,
    outcome (executeTradingCycle ex) w = Return report
    /\ trace w' = new ++ trace w
    /\ (forall ev, ev ∈ new ->
          exists i, i ∈ TRADING_PAIRS /\ callInstrument (ev_call ev) = Some i)
    /\ (forall i, (ordersFor i new <= 1)%nat)
    /\ (length (List.filter isOrder new) <= 6)%nat
    /\ (length new <= 18)%nat
    /\ (forall n, tradesExecuted report = Some n ->
                  (n <= length (List.filter isOrder new))%nat).
Proof.
  intros Hconf. cbn zeta. unfold outcome, run, executeTradingCycle.
  set (w1 := logged (Log.mk (clock w (ticks w))
                [Txt "Scanning "; Num (inject_Z (Z.of_nat (length TRADING_PAIRS)));
                 Txt " pairs..."] info) w).
  destruct (cycleLoop_calls ex TRADING_PAIRS TRADING_PAIRS_NoDup [] 0%nat w1)
    as (results & count & w2 & evs & Hloop & Ht & Hall & Hord & Hcount & Hmax & Hlen).
  cbn [app] in Hloop.
  set (w3 := logged (Log.mk (clock w2 (ticks w2))
                [Txt "Cycle complete: "; Num (inject_Z (Z.of_nat count)); Txt "/";
                 Num (inject_Z (Z.of_nat (length TRADING_PAIRS)));
                 Txt " trades executed"] info) w2).
  assert (Hsignal : exists w4,
    (if (0 <? length results)%nat then
       match List.find (fun r => String.eqb (Result.instId r) "BTC-USDT") results with
       | Some btcResult =>
           match Result.signal btcResult with
           | Some s => setSignal s
           | None => mret tt
           end
       | None => mret tt
       end
     else mret tt) w3 = (Return tt, w4) /\ trace w4 = trace w3).
  { destruct (0 <? length results)%nat; [| eexists; split; reflexivity].
    destruct (List.find _ results) as [btc |]; [| eexists; split; reflexivity].
    destruct (Result.signal btc);
      [apply setSignal_trace | eexists; split; reflexivity]. }
  destruct Hsignal as (w4 & Hsignal & Ht4).
  erewrite try_catch_return.
  2: { rewrite (bind_return _ _ _ _ _ (addLog_eq _ _ _)). fold w1.
       rewrite (bind_return _ _ w1 (configured ex) w1) by reflexivity.
       rewrite Hconf. cbn [negb].
       rewrite (bind_return _ _ _ _ _ Hloop).
       rewrite (bind_return _ _ _ _ _ (addLog_eq _ _ _)). fold w3.
       rewrite (bind_return _ _ _ _ _ Hsignal).
       reflexivity. }
  cbn [fst snd]. eexists _, evs.
  split; [reflexivity |].
  split; [rewrite Ht4; exact Ht |].
  split; [exact Hall |]. split; [exact Hord |].
  split; [exact Hmax |]. split; [exact Hlen |].
  cbn [tradesExecuted]. intros n [= <-]. exact Hcount.
Qed.

(** X25.  Without API credentials a cycle does nothing but log.  When
    [isConfigured()] is false the cycle returns [executed = false] with the
    reason "API not configured" and no trades, makes no external call, and
    leaves the positions, the per-pair state, the global signal and the
    trade history as they were; it appends two log entries: the scan
    notice, then the error. *)
Theorem unconfigured_cycle_only_logs (ex : Exchange) (w : World) :
  configured ex = false ->
  let w' := run (executeTradingCycle ex) w in
  outcome (executeTradingCycle ex) w
  = Return {| cr_executed := false; cr_reason := Some [Txt "API not configured"];
              tradesExecuted := None; totalPairs := None; trades := [] |}
  /\ trace w' = trace w
  /\ positions (bot w') = positions (bot w)
  /\ pairState (bot w') = pairState (bot w)
  /\ currentSignal (bot w') = currentSignal (bot w)
  /\ tradeHistory w' = tradeHistory w
  /\ exists t1 t2,
       logs (bot w')
       = take (maxLogs (bot w))
           (Log.mk t2 [Txt "API not configured - skipping trade execution"] error
            :: take (maxLogs (bot w))
                 (Log.mk t1 [Txt "Scanning "; Num 6; Txt " pairs..."] info
                  :: logs (bot w))).
Proof.
  intros Hconf. cbn zeta. unfold outcome, run, executeTradingCycle.
  erewrite try_catch_return.
  2: { rewrite (bind_return _ _ _ _ _ (addLog_eq _ _ _)).
       rewrite (bind_return _ _ _ (configured ex) _) by reflexivity.
       rewrite Hconf. cbn [negb].
       rewrite (bind_return _ _ _ _ _ (addLog_eq _ _ _)).
       reflexivity. }
  cbn [fst snd].
  repeat split. eexists _, _. reflexivity.
Qed.


(** ** The trade history *)

Lemma filter_filter_andb {A} (f g : A -> bool) (l : list A) :
  List.filter g (List.filter f l) = List.filter (fun x => f x && g x) l.
Proof.
  induction l as [| x l IH]; [reflexivity |].
  cbn. destruct (f x); cbn; [destruct (g x) |]; now rewrite IH.
Qed.

Lemma filterWhen_filter {A B} (o : option A) truthy (keep : A -> B -> bool)
    (f : B -> bool) (l : list B) :
  filterWhen o truthy keep (List.filter f l)
  = List.filter
      (fun x => f x && match o with
                       | Some a => if truthy a then keep a x else true
                       | None => true
                       end) l.
Proof.
  unfold filterWhen. destruct o as [a |].
  - destruct (truthy a); [apply filter_filter_andb |].
    apply List.filter_ext. intros x. now rewrite andb_true_r.
  - apply List.filter_ext. intros x. now rewrite andb_true_r.
Qed.

Lemma getTradeHistory_eq (options : Query.t) (w : World) :
  getTradeHistory options w
  = (Return
       (let matching := List.filter (queryMatches options) (tradeHistory w) in
        match Query.limit options with
        | Some n => if (n =? 0)%Z then matching else slice0 n matching
        | None => matching
        end), w).
Proof.
  unfold getTradeHistory. cbn zeta.
  assert (Hfirst :
    filterWhen (Query.mode options) (fun _ => true)
      (fun m t => Mode_eqb (Trade.mode (te_trade t)) m) (tradeHistory w)
    = List.filter
        (fun t => match Query.mode options with
                  | Some m => Mode_eqb (Trade.mode (te_trade t)) m
                  | None => true
                  end) (tradeHistory w)).
  { unfold filterWhen. destruct (Query.mode options); [reflexivity |].
    induction (tradeHistory w) as [| x l IH]; [reflexivity |].
    cbn. now rewrite <- IH. }
  rewrite Hfirst, !filterWhen_filter.
  reflexivity.
Qed.

(** X26.  Reading the trade history.  [getTradeHistory] changes nothing;
    it returns the entries that pass every requested filter (mode,
    instrument, side, start and end date), in the order of the history,
    which is newest first.  Without a limit, or with limit 0, it returns
    all of them; a positive limit [n] keeps the first [n]; a negative
    limit [-k] drops the last [k] instead. *)
Theorem getTradeHistory_filters_then_limits (options : Query.t) (w : World) :
  let matching := List.filter (queryMatches options) (tradeHistory w) in
  let result := outcome (getTradeHistory options) w in
  run (getTradeHistory options) w = w
  /\ (exists trades,
        result = Return trades
        /\ trades `prefix_of` matching
        /\ (forall t, t ∈ trades -> t ∈ tradeHistory w /\ queryMatches options t = true))
  /\ (Query.limit options = None \/ Query.limit options = Some 0%Z ->
      result = Return matching)
  /\ (forall n, Query.limit options = Some (Z.of_nat (S n)) ->
                result = Return (take (S n) matching))
  /\ (forall k, Query.limit options = Some (- Z.of_nat (S k))%Z ->
                result = Return (take (length matching - S k) matching)).
Proof.
  cbn zeta. unfold outcome, run. rewrite getTradeHistory_eq. cbn [fst snd].
  set (matching := List.filter (queryMatches options) (tradeHistory w)).
  split; [reflexivity |].
  split.
  { eexists. split; [reflexivity |].
    assert (Hpre : (match Query.limit options with
                    | Some n => if (n =? 0)%Z then matching else slice0 n matching
                    | None => matching
                    end) `prefix_of` matching).
    { destruct (Query.limit options) as [n |]; [| reflexivity].
      destruct (n =? 0)%Z; [reflexivity |].
      unfold slice0. destruct (0 <=? n)%Z; apply prefix_take. }
    split; [exact Hpre |].
    intros t Ht. destruct Hpre as [k Hk].
    assert (Hin : t ∈ matching) by (rewrite Hk; apply elem_of_app; now left).
    unfold matching in Hin. apply list_elem_of_In, List.filter_In in Hin as [Hin Hm].
    split; [now apply list_elem_of_In | exact Hm]. }
  split.
  { intros [-> | ->]; reflexivity. }
  split.
  { intros n ->. unfold slice0.
    rewrite (proj2 (Z.eqb_neq _ _)) by lia.
    rewrite (proj2 (Z.leb_le _ _)) by lia.
    now rewrite Nat2Z.id. }
  intros k ->. unfold slice0.
  rewrite (proj2 (Z.eqb_neq _ _)) by lia.
  rewrite (proj2 (Z.leb_gt _ _)) by lia.
  do 2 f_equal. lia.
Qed.

Lemma clearTradeHistory_eq (mode : option Mode) (w : World) :
  clearTradeHistory mode w
  = (Return tt,
     {| bot := bot w; demoMode := demoMode w;
        tradeHistory :=
          match mode with
          | Some m => List.filter
                        (fun t => negb (Mode_eqb (Trade.mode (te_trade t)) m))
                        (tradeHistory w)
          | None => []
          end;
        clock := clock w; ticks := ticks w; trace := trace w |}).
Proof. destruct mode; reflexivity. Qed.

Lemma Mode_eqb_eq a b : Mode_eqb a b = true <-> a = b.
Proof. destruct a, b; cbn; split; congruence. Qed.

(** X27.  Clearing the trade history by mode.  [clearTradeHistory(mode)]
    touches nothing but the history.  With a mode it removes exactly the
    entries of that mode: a later query for that mode returns nothing,
    while a query for the other mode returns what it returned before.
    Without a mode it empties the history, so every query returns
    nothing. *)
Theorem clearTradeHistory_removes_one_mode (m : Mode) (options : Query.t)
    (w : World) :
  let cleared := run (clearTradeHistory (Some m)) w in
  let emptied := run (clearTradeHistory None) w in
  bot cleared = bot w /\ trace cleared = trace w
  /\ (forall t, t ∈ tradeHistory cleared
                <-> t ∈ tradeHistory w /\ Trade.mode (te_trade t) <> m)
  /\ (Query.mode options = Some m ->
      outcome (getTradeHistory options) cleared = Return [])
  /\ (forall m', Query.mode options = Some m' -> m' <> m ->
      outcome (getTradeHistory options) cleared
      = outcome (getTradeHistory options) w)
  /\ outcome (getTradeHistory options) emptied = Return [].
Proof.
  cbn zeta. unfold run, outcome.
  rewrite !clearTradeHistory_eq, !getTradeHistory_eq. cbn [fst snd bot trace tradeHistory].
  split; [reflexivity |]. split; [reflexivity |].
  split.
  { intros t. rewrite list_elem_of_In, List.filter_In, <- list_elem_of_In.
    rewrite negb_true_iff, <- not_true_iff_false, Mode_eqb_eq. reflexivity. }
  assert (Hnil : forall l : list TradeEntry,
            l = [] ->
            match Query.limit options with
            | Some n => if (n =? 0)%Z then l else slice0 n l
            | None => l
            end = []).
  { intros l ->. destruct (Query.limit options) as [n |]; [| reflexivity].
    destruct (n =? 0)%Z; [reflexivity |].
    unfold slice0. destruct (0 <=? n)%Z; apply take_nil. }
  assert (Hempty : forall (f : TradeEntry -> bool) (l : list TradeEntry),
            (forall t, t ∈ l -> f t = false) -> List.filter f l = []).
  { intros f l Hf. induction l as [| x l IH]; [reflexivity |].
    cbn. rewrite (Hf x) by constructor.
    apply IH. intros t Ht. apply Hf. now constructor. }
  split.
  { intros Hm. f_equal. apply Hnil.
    rewrite filter_filter_andb. apply Hempty. intros t _.
    unfold queryMatches. rewrite Hm.
    destruct (Mode_eqb (Trade.mode (te_trade t)) m); reflexivity. }
  split.
  { intros m' Hm' Hne. do 2 f_equal. 
    assert (Hsame :
      List.filter (queryMatches options)
        (List.filter (fun t => negb (Mode_eqb (Trade.mode (te_trade t)) m))
           (tradeHistory w))
      = List.filter (queryMatches options) (tradeHistory w)).
    { rewrite filter_filter_andb. apply List.filter_ext. intros t.
      unfold queryMatches. rewrite Hm'.
      destruct (Mode_eqb (Trade.mode (te_trade t)) m') eqn:E1; [| now rewrite andb_false_r].
      apply Mode_eqb_eq in E1.
      destruct (Mode_eqb (Trade.mode (te_trade t)) m) eqn:E2; [| reflexivity].
      apply Mode_eqb_eq in E2. congruence. }
    now rewrite Hsame. }
  f_equal. now apply Hnil.
Qed.


Lemma take_app_take {A} (n : nat) (a b : list A) :
  take n (a ++ take n b) = take n (a ++ b).
Proof.
  rewrite !take_app, take_take. do 2 f_equal. lia.
Qed.

Lemma removelast_take {A} (l : list A) :
  removelast l = take (length l - 1) l.
Proof.
  rewrite removelast_firstn_len. f_equal. lia.
Qed.

Lemma logTrade_history (t : Trade.t) (w : World) :
  (length (tradeHistory w) <= MAX_TRADES)%nat ->
  te_trade <$> tradeHistory (run (logTrade t) w)
  = take MAX_TRADES (t :: (te_trade <$> tradeHistory w)).
Proof.
  intros Hlen. unfold run.
  destruct (logTrade_run t w) as (te & w' & Heq & Hte & _ & Hh & _).
  rewrite Heq. cbn [snd]. rewrite Hh.
  destruct (Nat.ltb_spec MAX_TRADES (length (te :: tradeHistory w))) as [Hlt | Hle].
  - rewrite removelast_take. cbn [length] in *.
    replace (S (length (tradeHistory w)) - 1)%nat with MAX_TRADES by lia.
    rewrite fmap_take. cbn [fmap list_fmap]. now rewrite Hte.
  - cbn [fmap list_fmap]. rewrite Hte.
    rewrite take_ge; [reflexivity |].
    cbn [length] in *. now rewrite length_fmap.
Qed.

Lemma logTrades_cons (t : Trade.t) (ts : list Trade.t) (w : World) :
  run (logTrades (t :: ts)) w = run (logTrades ts) (run (logTrade t) w)
  /\ outcome (logTrades (t :: ts)) w = outcome (logTrades ts) (run (logTrade t) w).
Proof.
  unfold run, outcome. cbn [logTrades].
  destruct (logTrade_run t w) as (te & w' & Heq & _).
  rewrite (bind_return _ _ _ _ _ Heq), Heq. now split.
Qed.

(** X28.  The trade history is bounded and newest first.  Starting from a
    history of at most [MAX_TRADES] entries, recording the trades [ts] one
    after the other always succeeds and leaves the trades in reverse order
    of recording in front of the earlier ones, cut to the first
    [MAX_TRADES]: the oldest entries are the ones dropped. *)
Theorem trade_history_bounded_newest_first (ts : list Trade.t) (w : World) :
  (length (tradeHistory w) <= MAX_TRADES)%nat ->
  let w' := run (logTrades ts) w in
  outcome (logTrades ts) w = Return tt
  /\ te_trade <$> tradeHistory w'
     = take MAX_TRADES (rev ts ++ (te_trade <$> tradeHistory w))
  /\ (length (tradeHistory w') <= MAX_TRADES)%nat
  /\ bot w' = bot w.
Proof.
  cbn zeta. revert w. induction ts as [| t ts IH]; intros w Hlen.
  - cbn. split; [reflexivity |]. split; [| now split].
    rewrite take_ge; [reflexivity | now rewrite length_fmap].
  - destruct (logTrades_cons t ts w) as [-> ->].
    pose proof (logTrade_history t w Hlen) as Hstep.
    assert (Hlen1 : (length (tradeHistory (run (logTrade t) w)) <= MAX_TRADES)%nat).
    { rewrite <- (length_fmap te_trade), Hstep, length_take. lia. }
    destruct (IH _ Hlen1) as (Hout & Hh & Hbound & Hbot).
    split; [exact Hout |].
    split.
    { rewrite Hh, Hstep, take_app_take. cbn [rev]. now rewrite <- app_assoc. }
    split; [exact Hbound |].
    rewrite Hbot. unfold run.
    destruct (logTrade_run t w) as (te & w' & Heq & _ & _ & _ & Hb & _).
    now rewrite Heq.
Qed.

(** ** The retry wrapper *)

Lemma retryLoop_calls {A} (fn : nat -> Outcome A) (baseDelay : nat) :
  forall remaining attempt lastError,
  exists k,
    (k <= remaining)%nat
    /\ ((0 < remaining)%nat -> (0 < k)%nat)
    /\ callsOf (fst (retryLoop fn baseDelay remaining attempt lastError))
       = seq attempt k
    /\ sleepsOf (fst (retryLoop fn baseDelay remaining attempt lastError))
       = map (fun a => (baseDelay * 2 ^ a)%nat) (seq attempt (k - 1)).
Proof.
  induction remaining as [| remaining IH]; intros attempt lastError.
  - exists 0%nat. cbn. repeat split; lia.
  - cbn [retryLoop].
    destruct (fn attempt) as [a | err].
    { exists 1%nat. cbn. repeat split; lia. }
    destruct (isRateLimit err).
    2: { exists 1%nat. cbn. repeat split; lia. }
    destruct (IH (S attempt) (Some err)) as (k & Hk & Hk1 & Hcalls & Hsleeps).
    destruct (retryLoop fn baseDelay remaining (S attempt) (Some err))
      as [events settled] eqn:Hrec.
    cbn [fst] in Hcalls, Hsleeps.
    exists (S k). split; [lia |]. split; [lia |].
    destruct (Nat.ltb_spec 0 remaining) as [Hpos | Hzero]; cbn [fst].
    + change (callsOf (WaitForRateLimit :: CallFn attempt
                       :: Sleep (baseDelay * 2 ^ attempt) :: events))
        with (attempt :: callsOf events).
      change (sleepsOf (WaitForRateLimit :: CallFn attempt
                        :: Sleep (baseDelay * 2 ^ attempt) :: events))
        with ((baseDelay * 2 ^ attempt)%nat :: sleepsOf events).
      rewrite Hcalls, Hsleeps. split; [reflexivity |].
      specialize (Hk1 Hpos).
      replace (S k - 1)%nat with (S (k - 1)) by lia. reflexivity.
    + change (callsOf (WaitForRateLimit :: CallFn attempt :: events))
        with (attempt :: callsOf events).
      change (sleepsOf (WaitForRateLimit :: CallFn attempt :: events))
        with (sleepsOf events).
      rewrite Hcalls, Hsleeps. split; [reflexivity |].
      assert (k = 0)%nat as -> by lia. reflexivity.
Qed.

Lemma retryLoop_waits {A} (fn : nat -> Outcome A) (baseDelay : nat) :
  forall remaining attempt lastError i k,
    fst (retryLoop fn baseDelay remaining attempt lastError) !! i = Some (CallFn k) ->
    exists j, i = S j
              /\ fst (retryLoop fn baseDelay remaining attempt lastError) !! j
                 = Some WaitForRateLimit.
Proof.
  induction remaining as [| remaining IH]; intros attempt lastError i k.
  - cbn. now rewrite lookup_nil.
  - cbn [retryLoop].
    destruct (fn attempt) as [a | err].
    { destruct i as [| [| [| i]]]; cbn; try discriminate. intros _. now exists 0%nat. }
    destruct (isRateLimit err).
    2: { destruct i as [| [| [| i]]]; cbn; try discriminate. intros _. now exists 0%nat. }
    specialize (IH (S attempt) (Some err)).
    destruct (retryLoop fn baseDelay remaining (S attempt) (Some err))
      as [events settled] eqn:Hrec.
    cbn [fst] in IH.
    destruct (0 <? remaining)%nat; cbn [fst].
    + destruct i as [| [| [| i]]]; cbn; try discriminate.
      * intros _. now exists 0%nat.
      * intros Hi. destruct (IH i k Hi) as (j & -> & Hj).
        exists (S (S (S j))). now split.
    + destruct i as [| [| i]]; cbn; try discriminate.
      * intros _. now exists 0%nat.
      * intros Hi. destruct (IH i k Hi) as (j & -> & Hj).
        exists (S (S j)). now split.
Qed.

(** X29.  The budget of the retry wrapper.  [withRetry] calls [fn] for the
    attempts 0, 1, ..., k-1 in order, for some [k] that is at most
    [maxRetries]; every call comes right after a [waitForRateLimit]; and
    between two calls it sleeps the exponential backoff [baseDelay * 2^a]
    after attempt [a], so with the defaults 1000 ms and then 2000 ms.
    It never sleeps after its last call. *)
Theorem withRetry_budget {A} (fn : nat -> Outcome A) (maxRetries baseDelay : nat) :
  let events := fst (withRetry fn maxRetries baseDelay) in
  exists k,
    (k <= maxRetries)%nat
    /\ callsOf events = seq 0 k
    /\ sleepsOf events = map (fun a => (baseDelay * 2 ^ a)%nat) (seq 0 (k - 1))
    /\ (forall i a, events !! i = Some (CallFn a) ->
          exists j, i = S j /\ events !! j = Some WaitForRateLimit).
Proof.
  cbn zeta. unfold withRetry.
  destruct (retryLoop_calls fn baseDelay maxRetries 0 None)
    as (k & Hk & _ & Hcalls & Hsleeps).
  exists k. repeat split; try assumption.
  apply retryLoop_waits.
Qed.

Lemma retryLoop_settles {A} (fn : nat -> Outcome A) (baseDelay : nat) :
  forall remaining attempt lastError,
    match snd (retryLoop fn baseDelay remaining attempt lastError) with
    | Resolved v =>
        exists k, (k < remaining)%nat /\ fn (attempt + k)%nat = Return v
                  /\ forall j, (j < k)%nat ->
                       exists e, fn (attempt + j)%nat = Throw e
                                 /\ isRateLimit e = true
    | Rejected (Some e) =>
        (exists k, (k < remaining)%nat /\ fn (attempt + k)%nat = Throw e
                   /\ (isRateLimit e = false \/ S k = remaining)
                   /\ forall j, (j < k)%nat ->
                        exists e', fn (attempt + j)%nat = Throw e'
                                   /\ isRateLimit e' = true)
        \/ (remaining = 0%nat /\ lastError = Some e)
    | Rejected None => remaining = 0%nat /\ lastError = None
    end.
Proof.
  induction remaining as [| remaining IH]; intros attempt lastError.
  - cbn. destruct lastError; [right |]; now split.
  - cbn [retryLoop].
    destruct (fn attempt) as [a | err] eqn:Hfn.
    { cbn. exists 0%nat. rewrite Nat.add_0_r. repeat split; [lia | exact Hfn |].
      intros j Hj. lia. }
    destruct (isRateLimit err) eqn:Hrl.
    2: { cbn. left. exists 0%nat. rewrite Nat.add_0_r.
         repeat split; [lia | exact Hfn | now left |]. intros j Hj. lia. }
    specialize (IH (S attempt) (Some err)).
    assert (Hshift : forall k (P : Outcome A -> Prop),
              (forall j, (j < k)%nat -> P (fn (S attempt + j)%nat)) ->
              P (fn attempt) ->
              forall j, (j < S k)%nat -> P (fn (attempt + j)%nat)).
    { intros k P Hall H0 [| j] Hj.
      - now rewrite Nat.add_0_r.
      - rewrite Nat.add_succ_r. apply Hall. lia. }
    destruct (retryLoop fn baseDelay remaining (S attempt) (Some err))
      as [events settled] eqn:Hrec.
    cbn [snd] in IH.
    assert (Hgoal :
      match settled with
      | Resolved v =>
          exists k, (k < S remaining)%nat /\ fn (attempt + k)%nat = Return v
                    /\ forall j, (j < k)%nat ->
                         exists e, fn (attempt + j)%nat = Throw e
                                   /\ isRateLimit e = true
      | Rejected (Some e) =>
          (exists k, (k < S remaining)%nat /\ fn (attempt + k)%nat = Throw e
                     /\ (isRateLimit e = false \/ S k = S remaining)
                     /\ forall j, (j < k)%nat ->
                          exists e', fn (attempt + j)%nat = Throw e'
                                     /\ isRateLimit e' = true)
          \/ (S remaining = 0%nat /\ lastError = Some e)
      | Rejected None => S remaining = 0%nat /\ lastError = None
      end).
    { destruct settled as [v | [e |]].
      - destruct IH as (k & Hk & Hv & Hbefore).
        exists (S k). rewrite Nat.add_succ_r. split; [lia |]. split; [exact Hv |].
        apply (Hshift k (fun o => exists e, o = Throw e /\ isRateLimit e = true));
          [exact Hbefore | now exists err].
      - left. destruct IH as [(k & Hk & Hv & Hwhy & Hbefore) | [-> [= ->]]].
        + exists (S k). rewrite Nat.add_succ_r. split; [lia |]. split; [exact Hv |].
          split; [destruct Hwhy; [now left | right; lia] |].
          apply (Hshift k (fun o => exists e, o = Throw e /\ isRateLimit e = true));
            [exact Hbefore | now exists err].
        + exists 0%nat. rewrite Nat.add_0_r. split; [lia |]. split; [exact Hfn |].
          split; [now right |]. intros j Hj. lia.
      - destruct IH as [_ [=]]. }
    destruct (0 <? remaining)%nat; cbn [snd]; exact Hgoal.
Qed.

(** X30.  How the retry wrapper settles.  It resolves to [v] exactly when
    some attempt below [maxRetries] returns [v] after rate-limit errors
    only.  It rejects with an error [e] exactly when [e] is the first error
    that is not a rate-limit error, or the rate-limit error of the last
    allowed attempt, all earlier attempts having failed with rate-limit
    errors.  With [maxRetries = 0] it calls nothing and throws
    [undefined]. *)
Theorem withRetry_settles {A} (fn : nat -> Outcome A) (maxRetries baseDelay : nat) :
  let rateLimitedBefore k :=
    forall j, (j < k)%nat -> exists e, fn j = Throw e /\ isRateLimit e = true in
  (forall v,
     snd (withRetry fn maxRetries baseDelay) = Resolved v
     <-> exists k, (k < maxRetries)%nat /\ fn k = Return v /\ rateLimitedBefore k)
  /\ (forall e,
        snd (withRetry fn maxRetries baseDelay) = Rejected (Some e)
        <-> exists k, (k < maxRetries)%nat /\ fn k = Throw e
                      /\ (isRateLimit e = false \/ S k = maxRetries)
                      /\ rateLimitedBefore k)
  /\ (snd (withRetry fn maxRetries baseDelay) = Rejected None
      <-> maxRetries = 0%nat).
Proof.
  cbn zeta. unfold withRetry.
  pose proof (retryLoop_settles fn baseDelay maxRetries 0 None) as Hs.
  destruct (snd (retryLoop fn baseDelay maxRetries 0 None)) as [v' | [e' |]];
    cbn [Nat.add] in Hs.
  - (* resolved *)
    destruct Hs as (k' & Hk' & Hv' & Hbefore').
    split; [| split].
    + intros v. split.
      * intros [= <-]. now exists k'.
      * intros (k & Hk & Hv & Hbefore). f_equal.
        destruct (Nat.lt_trichotomy k k') as [Hlt | [-> | Hgt]].
        -- destruct (Hbefore' k Hlt) as (e & He & _). congruence.
        -- congruence.
        -- destruct (Hbefore k' Hgt) as (e & He & _). congruence.
    + intros e. split; [discriminate |].
      intros (k & Hk & He & Hwhy & Hbefore). exfalso.
      destruct (Nat.lt_trichotomy k k') as [Hlt | [-> | Hgt]].
      * destruct (Hbefore' k Hlt) as (e0 & He0 & Hrl).
        assert (e0 = e) as -> by congruence.
        destruct Hwhy; [congruence | lia].
      * congruence.
      * destruct (Hbefore k' Hgt) as (e0 & He0 & _). congruence.
    + split; [discriminate | lia].
  - (* rejected with an error *)
    destruct Hs as [(k' & Hk' & He' & Hwhy' & Hbefore') | [_ [=]]].
    split; [| split].
    + intros v. split; [discriminate |].
      intros (k & Hk & Hv & Hbefore). exfalso.
      destruct (Nat.lt_trichotomy k k') as [Hlt | [-> | Hgt]].
      * destruct (Hbefore' k Hlt) as (e0 & He0 & _). congruence.
      * congruence.
      * destruct (Hbefore k' Hgt) as (e0 & He0 & Hrl).
        assert (e0 = e') as -> by congruence.
        destruct Hwhy'; [congruence | lia].
    + intros e. split.
      * intros [= <-]. now exists k'.
      * intros (k & Hk & He & Hwhy & Hbefore). do 2 f_equal.
        destruct (Nat.lt_trichotomy k k') as [Hlt | [-> | Hgt]].
        -- destruct (Hbefore' k Hlt) as (e0 & He0 & Hrl).
           assert (e0 = e) as -> by congruence.
           destruct Hwhy; [congruence | lia].
        -- congruence.
        -- destruct (Hbefore k' Hgt) as (e0 & He0 & Hrl).
           assert (e0 = e') as -> by congruence.
           destruct Hwhy'; [congruence | lia].
    + split; [discriminate | lia].
  - (* rejected with undefined *)
    destruct Hs as [-> _].
    split; [| split].
    + intros v. split; [discriminate |]. intros (k & Hk & _). lia.
    + intros e. split; [discriminate |]. intros (k & Hk & _). lia.
    + split; reflexivity.
Qed.


(** ** Instances of the further properties *)

Lemma closePosition_removes_first_witness :
  outcome (closePosition "ord-0") worldLong = Return (Some longBTC)
  /\ positions (bot (run (closePosition "ord-0") worldLong)) = [].
Proof.
  destruct (closePosition_removes_first worldLong "ord-0")
    as (i & pos & Hi & _ & _ & Hout & Hpos & _).
  - exists longBTC. split; [apply list_elem_of_here | reflexivity].
  - destruct i as [| i]; [| cbn in Hi; discriminate Hi].
    cbn in Hi. injection Hi as <-. split; [exact Hout | exact Hpos].
Defined.

Lemma addPosition_then_closePosition_witness :
  exists newPosition,
    outcome (addPosition buyBTC) world0 = Return newPosition
    /\ positions (bot (run (closePosition "a") (run (addPosition buyBTC) world0)))
       = positions (bot world0).
Proof.
  destruct (addPosition_then_closePosition world0 buyBTC "a")
    as (np & Hout & _ & _ & _ & Hback).
  - reflexivity.
  - discriminate.
  - intros q Hq. cbn in Hq. now apply elem_of_nil in Hq.
  - intros q Hq. cbn in Hq. now apply elem_of_nil in Hq.
  - exists np. split; [exact Hout | exact Hback].
Defined.

Lemma same_side_fill_changes_one_position_witness :
  exists p',
    positions (bot (run (addPosition buyBTC) worldLong)) = [p']
    /\ Pos.id p' = "ord-0"
    /\ Pos.size p' = 10 + 10
    /\ Pos.entryPrice p' = (100 * 10 + 110 * 10) / (10 + 10).
Proof.
  destruct (same_side_fill_changes_one_position worldLong buyBTC 0 longBTC)
    as (p' & returned & _ & Hp' & Hlen & _ & Hid & _ & _ & _ & _ & _ & _
        & Hsize & Hentry & _).
  - cbn. apply NoDup_singleton.
  - reflexivity.
  - reflexivity.
  - exists p'. split; [| split; [exact Hid | split; [exact Hsize | exact Hentry]]].
    destruct (positions (bot (run (addPosition buyBTC) worldLong)))
      as [| q [| q' l]]; try discriminate Hlen.
    cbn in Hp'. now injection Hp' as ->.
Defined.

Lemma position_sizes_stay_positive_witness :
  Forall positiveSize (positions (bot (run (applyOps opsExample) world0))).
Proof.
  apply (position_sizes_stay_positive world0 opsExample).
  - reflexivity.
  - repeat constructor.
Defined.

Lemma setPairSignal_keeps_cooldown_witness :
  let w' := run (setPairSignal "BTC-USDT" SELL) worldLong in
  pairSignal (bot w') "BTC-USDT" = Some SELL
  /\ pairLastPosition (bot w') "BTC-USDT" = Some long
  /\ pairLastTradeTime (bot w') "BTC-USDT" = Some 1600000000000%Z.
Proof.
  destruct (setPairSignal_keeps_cooldown "BTC-USDT" SELL worldLong)
    as (_ & Hsig & Hlp & Hlt & _).
  - apply (bool_decide_unpack _). vm_compute. reflexivity.
  - split; [exact Hsig |]. split; [rewrite Hlp | rewrite Hlt]; reflexivity.
Defined.

Lemma updatePairState_is_local_witness :
  let w' := run (updatePairState "ETH-USDT" sell) worldLong in
  pairLastPosition (bot w') "ETH-USDT" = Some short
  /\ pairState (bot w') !! "BTC-USDT" = pairState (bot worldLong) !! "BTC-USDT".
Proof.
  destruct (updatePairState_is_local "ETH-USDT" sell worldLong)
    as (_ & Hlp & _ & _ & Hother & _).
  - apply (bool_decide_unpack _). vm_compute. reflexivity.
  - split; [exact Hlp |].
    apply (Hother "BTC-USDT"); [| discriminate].
    apply (bool_decide_unpack _). vm_compute. reflexivity.
Defined.

Lemma getPairState_lazy_witness :
  outcome (getPairState "BTC-USDT") world0 = Return (Pair.mk None None (Some WAIT))
  /\ outcome (getPairState "BTC-USDT") worldLong
     = Return (Pair.mk (Some long) (Some 1600000000000%Z) (Some BUY)).
Proof.
  assert (Hkey : plainKey "BTC-USDT")
    by (apply (bool_decide_unpack _); vm_compute; reflexivity).
  destruct (getPairState_lazy "BTC-USDT" world0 Hkey) as (_ & Hnew & _).
  destruct (getPairState_lazy "BTC-USDT" worldLong Hkey) as (Hold & _).
  split.
  - apply Hnew. reflexivity.
  - unfold outcome.
    rewrite (Hold (Pair.mk (Some long) (Some 1600000000000%Z) (Some BUY)));
      reflexivity.
Defined.

Lemma same_signal_refused_after_trade_witness :
  let w' := run (updatePairState "BTC-USDT" buy) world0 in
  d_shouldTrade (shouldTrade BUY (pairLastPosition (bot w') "BTC-USDT")) = false
  /\ d_shouldTrade (shouldTrade SELL (pairLastPosition (bot w') "BTC-USDT")) = true.
Proof.
  destruct (same_signal_refused_after_trade "BTC-USDT" BUY None buy world0)
    as [Hsame Hother].
  - reflexivity.
  - reflexivity.
  - split; [exact Hsame |]. apply Hother; discriminate.
Defined.

Lemma setTradeConfig_clamps_leverage_witness :
  leverage (tradeConfig (bot (run
     (setTradeConfig (Update.mk JUndefined JUndefined (JNumber 200))) world0)))
  = 125.
Proof.
  destruct (setTradeConfig_clamps_leverage
              (Update.mk JUndefined JUndefined (JNumber 200)) 200 world0)
    as (_ & _ & _ & _ & _ & Habove & _).
  - reflexivity.
  - cbn. discriminate.
  - apply Habove. reflexivity.
Defined.

Lemma signal_follows_current_averages_witness :
  a_signal (analyzeMarket (Some (map close risingCandles))) = BUY
  <-> mean (lastn SLOW_MA_PERIOD (map close risingCandles))
      < mean (lastn FAST_MA_PERIOD (map close risingCandles)).
Proof.
  apply (signal_follows_current_averages (map close risingCandles)).
  vm_compute. constructor.
Defined.


Lemma too_few_candles_never_trade_witness :
  exists r new,
    outcome (executePairTrade exThin "BTC-USDT") world0 = Return r
    /\ Result.executed r = false
    /\ trace (run (executePairTrade exThin "BTC-USDT") world0) = new ++ trace world0
    /\ Forall notOrder new.
Proof.
  destruct (too_few_candles_never_trade exThin "BTC-USDT" world0
              (take 5 risingCandles))
    as (r & new & Hout & Hex & Ht & Hno & _).
  - reflexivity.
  - vm_compute. lia.
  - exists r, new. repeat split; assumption.
Defined.

Lemma orders_follow_decision_witness :
  exists new,
    trace (run (executePairTrade exAccept "BTC-USDT") world0) = new ++ trace world0
    /\ ev_call <$> new
       = [PlaceMarketOrder "BTC-USDT" buy 10 1;
          GetCandles "BTC-USDT" CANDLE_TIMEFRAME CANDLE_LIMIT;
          GetTicker "BTC-USDT"].
Proof.
  destruct (orders_follow_decision exAccept "BTC-USDT" world0
              (tickerAt "BTC-USDT" 123) risingCandles)
    as (new & Ht & Hcalls).
  - vm_compute. reflexivity.
  - reflexivity.
  - reflexivity.
  - exists new. split; [exact Ht |]. rewrite Hcalls. vm_compute. reflexivity.
Defined.

Lemma filled_order_effects_witness :
  outcome (executePairTrade exAccept "BTC-USDT") world0
  = Return (Result.mk "BTC-USDT" true None None (Some demo) (Some buy)
              (Some 123) (Some "ord-1"))
  /\ exists p, p ∈ positions (bot (run (executePairTrade exAccept "BTC-USDT") world0))
               /\ Pos.instId p = "BTC-USDT" /\ Pos.side p = buy.
Proof.
  destruct (filled_order_effects exAccept "BTC-USDT" world0
              (tickerAt "BTC-USDT" 123) risingCandles buy
              {| o_orderId := "ord-1"; clientOrderId := "cl-1";
                 success := true; simulated := true |})
    as (Hout & _ & _ & Hpos & _).
  - vm_compute. reflexivity.
  - reflexivity.
  - reflexivity.
  - vm_compute. reflexivity.
  - reflexivity.
  - split; [exact Hout | exact Hpos].
Defined.

Lemma cycle_orders_bounded_witness :
  exists report new,
    outcome (executeTradingCycle exAccept) world0 = Return report
    /\ trace (run (executeTradingCycle exAccept) world0) = new ++ trace world0
    /\ (length (List.filter isOrder new) <= 6)%nat.
Proof.
  destruct (cycle_orders_bounded exAccept world0 eq_refl)
    as (report & new & Hout & Ht & _ & _ & Hmax & _).
  exists report, new. repeat split; assumption.
Defined.

Lemma unconfigured_cycle_only_logs_witness :
  trace (run (executeTradingCycle exOffline) worldLong) = trace worldLong
  /\ positions (bot (run (executeTradingCycle exOffline) worldLong)) = [longBTC].
Proof.
  destruct (unconfigured_cycle_only_logs exOffline worldLong eq_refl)
    as (_ & Ht & Hpos & _).
  split; [exact Ht | exact Hpos].
Defined.

Lemma trade_history_bounded_newest_first_witness :
  te_trade <$> tradeHistory (run (logTrades [tradeBTC; tradeBTC]) world0)
  = [tradeBTC; tradeBTC].
Proof.
  destruct (trade_history_bounded_newest_first [tradeBTC; tradeBTC] world0)
    as (_ & Hh & _).
  - cbn. unfold MAX_TRADES. lia.
  - exact Hh.
Defined.
